(** * cURLmONKEY: the cURL importer and exporter, the request builder and
    the environment store, embedded and verified.

    Text is [String.string], read as the UTF-8 encoding of a Python [str].
    Case mapping is the ASCII one.  White space is Python's in
    [str_strip], which the importer applies to the header and data values
    of a command, and the ASCII one in [strip], which is applied to a whole
    command line and to the URL of [build_url]; so the embedding of these
    two is exact on text whose white space is ASCII.  A percent escape is
    decoded as [unquote] decodes it, with U+FFFD for the bytes that are not
    UTF-8.  The modules [Surrogates] and [Strict] also hold text with lone
    surrogates, on which [urlencode] raises.  A Python [dict] is an
    association list in insertion order with distinct keys.  An exception
    is a value: [None] of an [option], or an [Error] of a [result].

    The sources are embedded module by module (models.py, http_client.py,
    curl_import.py, curl_export.py, persistence.py, and the functions of
    ui_history.py and ui_main.py that add to the collections), after the
    functions of the Python library that they call ([str] methods,
    urllib.parse, shlex).  The statements follow, each with the lemmas it
    needs. *)

From Stdlib Require Import String Ascii List Bool Arith NArith Lia.
Import ListNotations.
Open Scope string_scope.

(** ** Python's [str] methods used by the sources *)

Module PyStr.

Definition code (c : ascii) : N := N_of_ascii c.

Definition between (lo hi : N) (c : ascii) : bool :=
  ((lo <=? code c) && (code c <=? hi))%N.

(** [str.isspace] on the ASCII range: TAB..CR, FS..US and the space. *)
Definition is_space (c : ascii) : bool := between 9 13 c || between 28 32 c.

Definition is_upper (c : ascii) : bool := between 65 90 c.
Definition is_lower (c : ascii) : bool := between 97 122 c.
Definition is_digit (c : ascii) : bool := between 48 57 c.
Definition is_alpha (c : ascii) : bool := is_upper c || is_lower c.
Definition is_alnum (c : ascii) : bool := is_alpha c || is_digit c.
Definition isascii_char (c : ascii) : bool := (code c <? 128)%N.

Definition upper_char (c : ascii) : ascii :=
  if is_lower c then ascii_of_N (code c - 32) else c.
Definition lower_char (c : ascii) : ascii :=
  if is_upper c then ascii_of_N (code c + 32) else c.

Fixpoint map_str (f : ascii -> ascii) (s : string) : string :=
  match s with
  | EmptyString => EmptyString
  | String c r => String (f c) (map_str f r)
  end.

Definition upper : string -> string := map_str upper_char.
Definition lower : string -> string := map_str lower_char.

Fixpoint forall_str (p : ascii -> bool) (s : string) : bool :=
  match s with
  | EmptyString => true
  | String c r => p c && forall_str p r
  end.

Fixpoint exists_str (p : ascii -> bool) (s : string) : bool :=
  match s with
  | EmptyString => false
  | String c r => p c || exists_str p r
  end.

(** [c in s] for a one-character [c]. *)
Definition has_char (c : ascii) (s : string) : bool := exists_str (Ascii.eqb c) s.

Definition isascii : string -> bool := forall_str isascii_char.

(** Truthiness of a [str]. *)
Definition nonempty (s : string) : bool :=
  match s with EmptyString => false | String _ _ => true end.

Definition startswith (p s : string) : bool := prefix p s.

Fixpoint rev_str (acc s : string) : string :=
  match s with
  | EmptyString => acc
  | String c r => rev_str (String c acc) r
  end.

Definition endswith (p s : string) : bool :=
  prefix (rev_str "" p) (rev_str "" s).

(** [s.lstrip(chars)] and [s.rstrip(chars)], the character set as a predicate. *)
Fixpoint lstrip_of (p : ascii -> bool) (s : string) : string :=
  match s with
  | EmptyString => EmptyString
  | String c r => if p c then lstrip_of p r else s
  end.

Fixpoint rstrip_of (p : ascii -> bool) (s : string) : string :=
  match s with
  | EmptyString => EmptyString
  | String c r =>
      match rstrip_of p r with
      | EmptyString => if p c then EmptyString else String c EmptyString
      | r' => String c r'
      end
  end.

(** [s.strip()] of a text whose white space is ASCII. *)
Definition strip (s : string) : string := rstrip_of is_space (lstrip_of is_space s).

(** The text of the bytes [bs]. *)
Definition bytes (bs : list N) : string :=
  fold_right (fun b s => String (ascii_of_N b) s) EmptyString bs.

(** The characters that [str.isspace] accepts, in UTF-8: the ASCII ones,
    U+0085 and U+00A0, U+1680, U+2000 to U+200A, U+2028, U+2029 and U+202F,
    U+205F, and U+3000. *)
Definition whitespace : list string :=
  app (map (fun b : N => bytes [b]) [9; 10; 11; 12; 13; 28; 29; 30; 31; 32]%N)
 (app [bytes [194; 133]; bytes [194; 160]; bytes [225; 154; 128]]%N
 (app (map (fun b : N => bytes [226; 128; b]%N)
           [128; 129; 130; 131; 132; 133; 134; 135; 136; 137; 138; 168; 169; 175]%N)
      [bytes [226; 129; 159]; bytes [227; 128; 128]]%N)).

(** [ch.isspace()] of a character. *)
Definition isspace (ch : string) : bool := existsb (String.eqb ch) whitespace.

(** [s.lstrip()]: a white-space character is one, two or three bytes. *)
Fixpoint str_lstrip (s : string) : string :=
  match s with
  | EmptyString => EmptyString
  | String c r =>
      if isspace (String c EmptyString) then str_lstrip r
      else match r with
           | EmptyString => s
           | String c1 r1 =>
               if isspace (String c (String c1 EmptyString)) then str_lstrip r1
               else match r1 with
                    | EmptyString => s
                    | String c2 r2 =>
                        if isspace (String c (String c1 (String c2 EmptyString)))
                        then str_lstrip r2 else s
                    end
           end
  end.

(** [s] is white space from end to end, or empty. *)
Definition all_space (s : string) : bool := negb (nonempty (str_lstrip s)).

(** [s.rstrip()]: [s] up to the first place after which there is white
    space only. *)
Fixpoint str_rstrip (s : string) : string :=
  match s with
  | EmptyString => EmptyString
  | String c r => if all_space s then EmptyString else String c (str_rstrip r)
  end.

(** [s.strip()] *)
Definition str_strip (s : string) : string := str_rstrip (str_lstrip s).

(** [s[n:]] *)
Fixpoint drop (n : nat) (s : string) : string :=
  match n, s with
  | O, _ => s
  | S k, String _ r => drop k r
  | S _, EmptyString => EmptyString
  end.

(** [s[1:-1]] *)
Definition slice_1_m1 (s : string) : string := substring 1 (String.length s - 2) s.

(** [s.split(c, 1)] when [c in s]: the text before and after the first [c]. *)
Fixpoint split_first (c : ascii) (s : string) : option (string * string) :=
  match s with
  | EmptyString => None
  | String a r =>
      if Ascii.eqb a c then Some (EmptyString, r)
      else match split_first c r with
           | Some (x, y) => Some (String a x, y)
           | None => None
           end
  end.

(** The text before and after the last [c] ([s.rfind(c)]). *)
Fixpoint split_last (c : ascii) (s : string) : option (string * string) :=
  match s with
  | EmptyString => None
  | String a r =>
      match split_last c r with
      | Some (x, y) => Some (String a x, y)
      | None => if Ascii.eqb a c then Some (EmptyString, r) else None
      end
  end.

(** [s.split(c)]: never empty. *)
Fixpoint split_char (c : ascii) (s : string) : list string :=
  match s with
  | EmptyString => [EmptyString]
  | String a r =>
      if Ascii.eqb a c then EmptyString :: split_char c r
      else match split_char c r with
           | x :: xs => String a x :: xs
           | [] => [String a EmptyString]
           end
  end.

(** The longest prefix free of [p], and the rest. *)
Fixpoint break_at (p : ascii -> bool) (s : string) : string * string :=
  match s with
  | EmptyString => (EmptyString, EmptyString)
  | String a r =>
      if p a then (EmptyString, s)
      else let '(x, y) := break_at p r in (String a x, y)
  end.

Fixpoint filter_str (p : ascii -> bool) (s : string) : string :=
  match s with
  | EmptyString => EmptyString
  | String a r => if p a then String a (filter_str p r) else filter_str p r
  end.

(** [s.replace(p, v)] for a non-empty [p]: the occurrences of [p] are taken
    from the left and do not overlap; [skip] counts the characters of the
    occurrence being replaced that are still to be passed. *)
Fixpoint replace_from (p v : string) (skip : nat) (s : string) : string :=
  match s with
  | EmptyString => EmptyString
  | String c r =>
      match skip with
      | S k => replace_from p v k r
      | O =>
          if prefix p s then v ++ replace_from p v (String.length p - 1) r
          else String c (replace_from p v 0 r)
      end
  end.

Fixpoint intersperse (v s : string) : string :=
  match s with
  | EmptyString => EmptyString
  | String c r => String c (v ++ intersperse v r)
  end.

Definition replace (p v s : string) : string :=
  match p with
  | EmptyString => v ++ intersperse v s
  | String _ _ => replace_from p v 0 s
  end.

(** [sep.join(l)] *)
Definition join (sep : string) (l : list string) : string := String.concat sep l.

End PyStr.

(** ** Python's [dict], in insertion order *)

Module PyDict.

Definition dict (V : Type) : Type := list (string * V).

Fixpoint get {V} (k : string) (d : dict V) : option V :=
  match d with
  | [] => None
  | (k', v) :: r => if String.eqb k' k then Some v else get k r
  end.

Definition mem {V} (k : string) (d : dict V) : bool :=
  match get k d with Some _ => true | None => false end.

(** [d[k] = v]: an existing key keeps its place, a new one goes last. *)
Fixpoint set {V} (k : string) (v : V) (d : dict V) : dict V :=
  match d with
  | [] => [(k, v)]
  | (k', v') :: r =>
      if String.eqb k' k then (k', v) :: r else (k', v') :: set k v r
  end.

Definition keys {V} (d : dict V) : list string := map fst d.

End PyDict.

(** ** models.py *)

Inductive HttpMethod := GET | POST | PUT | PATCH | DELETE | HEAD | OPTIONS.
Inductive BodyType := BODY_NONE | RAW | FORM_URLENCODED | MULTIPART.
Inductive RawBodyType := TEXT | JSON | XML.
Inductive AuthType := AUTH_NONE | BASIC | BEARER.

Definition method_value (m : HttpMethod) : string :=
  match m with
  | GET => "GET" | POST => "POST" | PUT => "PUT" | PATCH => "PATCH"
  | DELETE => "DELETE" | HEAD => "HEAD" | OPTIONS => "OPTIONS"
  end.

(** [HttpMethod(s)]: [None] stands for the [ValueError] of the enum. *)
Definition HttpMethod_of (s : string) : option HttpMethod :=
  if s =? "GET" then Some GET else if s =? "POST" then Some POST
  else if s =? "PUT" then Some PUT else if s =? "PATCH" then Some PATCH
  else if s =? "DELETE" then Some DELETE else if s =? "HEAD" then Some HEAD
  else if s =? "OPTIONS" then Some OPTIONS else None.

Definition body_type_value (b : BodyType) : string :=
  match b with
  | BODY_NONE => "none" | RAW => "raw"
  | FORM_URLENCODED => "x-www-form-urlencoded"
  | MULTIPART => "multipart/form-data"
  end.

Definition auth_type_value (a : AuthType) : string :=
  match a with AUTH_NONE => "none" | BASIC => "basic" | BEARER => "bearer" end.

Definition raw_body_type_value (t : RawBodyType) : string :=
  match t with TEXT => "text" | JSON => "json" | XML => "xml" end.

(** [BodyType(s)], [RawBodyType(s)] and [AuthType(s)]; [None] stands for
    the [ValueError] of the enum. *)
Definition BodyType_of (s : string) : option BodyType :=
  if s =? "none" then Some BODY_NONE else if s =? "raw" then Some RAW
  else if s =? "x-www-form-urlencoded" then Some FORM_URLENCODED
  else if s =? "multipart/form-data" then Some MULTIPART else None.

Definition RawBodyType_of (s : string) : option RawBodyType :=
  if s =? "text" then Some TEXT else if s =? "json" then Some JSON
  else if s =? "xml" then Some XML else None.

Definition AuthType_of (s : string) : option AuthType :=
  if s =? "none" then Some AUTH_NONE else if s =? "basic" then Some BASIC
  else if s =? "bearer" then Some BEARER else None.

Record KeyValuePair := mkKV {
  kv_enabled : bool;
  kv_key : string;
  kv_value : string }.

Record MultipartItem := mkMP {
  mp_enabled : bool;
  mp_key : string;
  mp_type : string;
  mp_value : string }.

Record AuthConfig := mkAuth {
  auth_type : AuthType;
  username : string;
  password : string;
  bearer_token : string }.

Definition AuthConfig_default : AuthConfig := mkAuth AUTH_NONE "" "" "".

Record RequestModel := mkRequest {
  method : HttpMethod;
  url : string;
  query_params : list KeyValuePair;
  headers : list KeyValuePair;
  body_type : BodyType;
  raw_body_type : RawBodyType;
  raw_body : string;
  form_data : list KeyValuePair;
  multipart_data : list MultipartItem;
  auth : AuthConfig;
  environment : string }.

Definition RequestModel_default : RequestModel :=
  mkRequest GET "" [] [] BODY_NONE TEXT "" [] [] AuthConfig_default "Default".

Record Environment := mkEnv {
  env_name : string;
  variables : PyDict.dict string }.

Record CollectionItem := mkItem {
  item_name : string;
  item_request : RequestModel }.

Record Collection := mkCollection {
  coll_name : string;
  coll_items : list CollectionItem }.

(** ** Outcomes of fallible code *)

Inductive result (E A : Type) : Type :=
| Ok (a : A)
| Error (e : E).
Arguments Ok {E A} a.
Arguments Error {E A} e.

(** Some characters that a string literal cannot hold conveniently. *)
Definition dquote : ascii := "034"%char.
Definition squote : ascii := "039"%char.
Definition backslash : ascii := "092"%char.
Definition tab : ascii := "009"%char.
Definition newline : ascii := "010"%char.
Definition carriage_return : ascii := "013"%char.

(** ** urllib.parse, as far as the sources call it

    [urlsplit] validates the network location with two helpers that are
    outside this development: [_check_bracketed_netloc] (the text between
    brackets must be an IPv6 or IPvFuture address, decided by the
    [ipaddress] module) and, for a netloc that is not ASCII, [_checknetloc]
    (its NFKC normal form).  Their verdicts are the two fields of
    [NetlocChecks]; everything else of [urlsplit] is modelled. *)

Module Urllib.
Import PyStr.

Record NetlocChecks := mkChecks {
  check_bracketed_netloc : string -> bool;
  checknetloc : string -> bool }.

Record ParseResult := mkParse {
  scheme : string;
  netloc : string;
  path : string;
  params : string;
  query : string;
  fragment : string }.

Definition replace_query (p : ParseResult) (q : string) : ParseResult :=
  mkParse (scheme p) (netloc p) (path p) (params p) q (fragment p).

Definition uses_netloc : list string :=
  [""; "ftp"; "http"; "gopher"; "nntp"; "telnet"; "imap"; "wais"; "file";
   "mms"; "https"; "shttp"; "snews"; "prospero"; "rtsp"; "rtspu"; "rsync";
   "svn"; "svn+ssh"; "sftp"; "nfs"; "git"; "git+ssh"; "ws"; "wss"].

Definition uses_params : list string :=
  [""; "ftp"; "hdl"; "prospero"; "http"; "imap"; "https"; "shttp"; "rtsp";
   "rtspu"; "sip"; "sips"; "mms"; "sftp"; "tel"].

Definition in_list (s : string) (l : list string) : bool :=
  existsb (String.eqb s) l.

Definition is_scheme_char (c : ascii) : bool :=
  is_alnum c || Ascii.eqb c "+" || Ascii.eqb c "-" || Ascii.eqb c ".".

Definition is_c0_or_space (c : ascii) : bool := (code c <=? 32)%N.

Definition is_unsafe_url_byte (c : ascii) : bool :=
  Ascii.eqb c tab || Ascii.eqb c carriage_return || Ascii.eqb c newline.

Definition is_netloc_delim (c : ascii) : bool :=
  Ascii.eqb c "/" || Ascii.eqb c "?" || Ascii.eqb c "#".

(** The scheme test of [urlsplit]: [i = url.find(':')], [i > 0], a first
    character that is an ASCII letter, and only scheme characters before
    the colon. *)
Definition split_scheme (url : string) : string * string :=
  match split_first ":" url with
  | Some (String c0 pre, rest) =>
      if isascii_char c0 && is_alpha c0 && forall_str is_scheme_char (String c0 pre)
      then (lower (String c0 pre), rest)
      else (EmptyString, url)
  | _ => (EmptyString, url)
  end.

(** [_splitnetloc(url, 2)] *)
Definition splitnetloc (url : string) : string * string :=
  break_at is_netloc_delim (drop 2 url).

Definition split_on (c : ascii) (url : string) : string * string :=
  match split_first c url with
  | Some (a, b) => (a, b)
  | None => (url, EmptyString)
  end.

Section WithChecks.
Variable lib : NetlocChecks.

(** The three places where [urlsplit] raises [ValueError]. *)
Definition netloc_accepted (nl : string) : bool :=
  negb (xorb (has_char "[" nl) (has_char "]" nl))
  && (negb (has_char "[" nl && has_char "]" nl) || check_bracketed_netloc lib nl).

Definition checknetloc_passes (nl : string) : bool :=
  negb (nonempty nl) || isascii nl || checknetloc lib nl.

(** [urlsplit(url)] followed by the parameter split of [urlparse(url)];
    [None] is the [ValueError]. *)
Definition urlparse (url0 : string) : option ParseResult :=
  let url := lstrip_of is_c0_or_space url0 in
  let url := filter_str (fun c => negb (is_unsafe_url_byte c)) url in
  let '(sch, url) := split_scheme url in
  let has_netloc := prefix "//" url in
  let '(nl, url) := if has_netloc then splitnetloc url else (EmptyString, url) in
  if has_netloc && negb (netloc_accepted nl) then None else
  let '(url, frag) := if has_char "#" url then split_on "#" url else (url, EmptyString) in
  let '(url, qry) := if has_char "?" url then split_on "?" url else (url, EmptyString) in
  if negb (checknetloc_passes nl) then None else
  let '(url, prm) :=
    if in_list sch uses_params && has_char ";" url then
      match split_last "/" url with
      | Some (dir, seg) =>
          match split_first ";" seg with
          | Some (a, b) => (dir ++ "/" ++ a, b)
          | None => (url, EmptyString)
          end
      | None => split_on ";" url
      end
    else (url, EmptyString) in
  Some (mkParse sch nl url prm qry frag).

End WithChecks.

(** [urlunparse(components)], through [urlunsplit]. *)
Definition urlunparse (p : ParseResult) : string :=
  let url := if nonempty (params p) then path p ++ ";" ++ params p else path p in
  let url :=
    if nonempty (netloc p)
       || (nonempty (scheme p) && in_list (scheme p) uses_netloc && negb (prefix "//" url))
    then "//" ++ netloc p ++
         (if nonempty url && negb (prefix "/" url) then "/" ++ url else url)
    else url in
  let url := if nonempty (scheme p) then scheme p ++ ":" ++ url else url in
  let url := if nonempty (query p) then url ++ "?" ++ query p else url in
  if nonempty (fragment p) then url ++ "#" ++ fragment p else url.

(** Percent-encoding. *)
Definition hex_digit (n : N) : ascii :=
  if (n <? 10)%N then ascii_of_N (48 + n) else ascii_of_N (55 + n).

Definition hex_value (c : ascii) : option N :=
  if is_digit c then Some (code c - 48)%N
  else if between 65 70 c then Some (code c - 55)%N
  else if between 97 102 c then Some (code c - 87)%N
  else None.

Definition always_safe (c : ascii) : bool :=
  is_alnum c || Ascii.eqb c "_" || Ascii.eqb c "." || Ascii.eqb c "-" || Ascii.eqb c "~".

(** [quote_plus(s)] with the default [safe='']. *)
Fixpoint quote_plus (s : string) : string :=
  match s with
  | EmptyString => EmptyString
  | String c r =>
      if always_safe c then String c (quote_plus r)
      else if Ascii.eqb c " " then String "+" (quote_plus r)
      else String "%" (String (hex_digit (code c / 16)) (String (hex_digit (code c mod 16)) (quote_plus r)))
  end.

(** [unquote_to_bytes(s)]: a percent sign followed by two hexadecimal
    digits is the byte they write, any other percent sign stays. *)
Fixpoint unquote_to_bytes (s : string) : string :=
  match s with
  | EmptyString => EmptyString
  | String c r =>
      if Ascii.eqb c "%" then
        match r with
        | String h1 (String h2 r') =>
            match hex_value h1, hex_value h2 with
            | Some a, Some b => String (ascii_of_N (16 * a + b)) (unquote_to_bytes r')
            | _, _ => String c (unquote_to_bytes r)
            end
        | _ => String c (unquote_to_bytes r)
        end
      else String c (unquote_to_bytes r)
  end.

(** U+FFFD, which the [replace] handler writes. *)
Definition replacement : string := bytes [239; 191; 189]%N.

(** The bytes after the lead byte [c] of a character of UTF-8: the
    bounds of the first, and how many there are. *)
Definition lead (c : ascii) : option (N * N * nat) :=
  if between 194 223 c then Some (128%N, 191%N, 1)
  else if (code c =? 224)%N then Some (160%N, 191%N, 2)
  else if between 225 236 c || between 238 239 c then Some (128%N, 191%N, 2)
  else if (code c =? 237)%N then Some (128%N, 159%N, 2)
  else if (code c =? 240)%N then Some (144%N, 191%N, 3)
  else if between 241 243 c then Some (128%N, 191%N, 3)
  else if (code c =? 244)%N then Some (128%N, 143%N, 3)
  else None.

(** [b.decode('utf-8', 'replace')]: the bytes that start no character,
    and the bytes of a character that is cut short, become U+FFFD. *)
Fixpoint decode_replace (b : string) : string :=
  match b with
  | EmptyString => EmptyString
  | String c r =>
      if isascii_char c then String c (decode_replace r)
      else
        match lead c with
        | None => replacement ++ decode_replace r
        | Some (lo, hi, n) =>
            match r with
            | EmptyString => replacement
            | String c1 r1 =>
                if negb (between lo hi c1) then replacement ++ decode_replace r
                else
                  match n with
                  | 1 => String c (String c1 (decode_replace r1))
                  | _ =>
                      match r1 with
                      | EmptyString => replacement
                      | String c2 r2 =>
                          if negb (between 128 191 c2) then replacement ++ decode_replace r1
                          else
                            match n with
                            | 2 => String c (String c1 (String c2 (decode_replace r2)))
                            | _ =>
                                match r2 with
                                | EmptyString => replacement
                                | String c3 r3 =>
                                    if negb (between 128 191 c3)
                                    then replacement ++ decode_replace r2
                                    else String c (String c1 (String c2 (String c3
                                           (decode_replace r3))))
                                end
                            end
                      end
                  end
            end
        end
  end.

(** [_asciire.split(s)]: the runs of ASCII characters and the runs of
    other characters of [s], in turn. *)
Fixpoint ascii_runs (s : string) : list string :=
  match s with
  | EmptyString => []
  | String c r =>
      match ascii_runs r with
      | String d x :: rest =>
          if Bool.eqb (isascii_char c) (isascii_char d)
          then String c (String d x) :: rest
          else String c EmptyString :: String d x :: rest
      | _ => [String c EmptyString]
      end
  end.

(** [unquote(s)]: the escapes of each ASCII run are decoded together; the
    other characters stay. *)
Definition unquote (s : string) : string :=
  if has_char "%" s
  then String.concat EmptyString
         (map (fun bit => if isascii bit then decode_replace (unquote_to_bytes bit) else bit)
              (ascii_runs s))
  else s.

Definition plus_to_space (c : ascii) : ascii := if Ascii.eqb c "+" then " "%char else c.

Definition unquote_plus (s : string) : string := unquote (map_str plus_to_space s).

(** [parse_qsl(qs, keep_blank_values=True)] *)
Definition parse_qsl (qs : string) : list (string * string) :=
  if nonempty qs then
    flat_map (fun name_value =>
      if nonempty name_value then
        match split_first "=" name_value with
        | Some (n, v) => [(unquote_plus n, unquote_plus v)]
        | None => [(unquote_plus name_value, EmptyString)]
        end
      else []) (split_char "&" qs)
  else [].

(** [parse_qs(qs, keep_blank_values=True)] *)
Definition parse_qs (qs : string) : PyDict.dict (list string) :=
  fold_left (fun d '(name, value) =>
    match PyDict.get name d with
    | Some vs => PyDict.set name (vs ++ [value])%list d
    | None => PyDict.set name [value] d
    end) (parse_qsl qs) [].

(** The pairs that [urlencode(d, doseq=True)] writes, before encoding. *)
Definition flatten (d : PyDict.dict (list string)) : list (string * string) :=
  flat_map (fun '(k, vs) => map (fun v => (k, v)) vs) d.

Definition encode_pair (kv : string * string) : string :=
  quote_plus (fst kv) ++ "=" ++ quote_plus (snd kv).

(** [urlencode(d, doseq=True)] *)
Definition urlencode (d : PyDict.dict (list string)) : string :=
  join "&" (map encode_pair (flatten d)).

End Urllib.

(** ** urllib.parse on text with lone surrogates

    A [str] of Python can hold a lone surrogate, U+D800 to U+DFFF, which
    UTF-8 does not write: [str.encode] raises [UnicodeEncodeError] on it,
    and so do [quote_plus] and [urlencode].  In this module, and in the
    exporter [Strict] that is built on it, a text writes a lone surrogate
    in the three bytes ED, A0 to BF, 80 to BF, which are not those of a
    character of UTF-8. *)

Module Surrogates.
Import PyStr.

(** [s.encode('utf-8')] returns: there is no lone surrogate in [s]. *)
Fixpoint encodable (s : string) : bool :=
  match s with
  | EmptyString => true
  | String c r =>
      match r with
      | String c1 (String c2 _) =>
          negb ((code c =? 237)%N && between 160 191 c1 && between 128 191 c2)
          && encodable r
      | _ => true
      end
  end.

(** [quote_plus(s)]; [None] is the [UnicodeEncodeError]. *)
Definition quote_plus (s : string) : option string :=
  if encodable s then Some (Urllib.quote_plus s) else None.

(** [urlencode(d, doseq=True)]: the key is encoded, then each of its
    values; [None] is the [UnicodeEncodeError] of one of them. *)
Definition urlencode (d : PyDict.dict (list string)) : option string :=
  option_map (join "&")
    (fold_left (fun l '(k, v) =>
                  match l, quote_plus k with
                  | Some l, Some k =>
                      fold_left (fun l elt =>
                                   match l, quote_plus elt with
                                   | Some l, Some elt => Some (app l [k ++ "=" ++ elt])
                                   | _, _ => None
                                   end) v (Some l)
                  | _, _ => None
                  end) d (Some [])).

End Surrogates.

(** ** shlex, as far as the sources call it: [shlex.quote] and
    [shlex.split] (POSIX mode, [whitespace_split], no comment characters) *)

Module Shlex.
Import PyStr.

(** The characters outside the class that [_find_unsafe] searches for. *)
Definition is_safe (c : ascii) : bool :=
  is_alnum c || Ascii.eqb c "_" || Ascii.eqb c "@" || Ascii.eqb c "%"
  || Ascii.eqb c "+" || Ascii.eqb c "=" || Ascii.eqb c ":" || Ascii.eqb c ","
  || Ascii.eqb c "." || Ascii.eqb c "/" || Ascii.eqb c "-".

(** What a single quote becomes inside single quotes: quote, double
    quote, quote, double quote, quote. *)
Definition quote_escape : string :=
  String squote (String dquote (String squote (String dquote (String squote EmptyString)))).

Definition quote (s : string) : string :=
  if negb (nonempty s) then "''"
  else if forall_str is_safe s then s
  else String squote (replace (String squote EmptyString) quote_escape s ++ String squote EmptyString).

(** The lexer's [state]: white space, inside a word ('a'), inside a quote,
    or after a backslash; [InEscape q] remembers whether the backslash was
    met inside double quotes ([escapedstate]). *)
Inductive lex_state :=
| InWhite
| InWord
| InQuote (q : ascii)
| InEscape (in_dquote : bool).

Record lexer := mkLexer {
  state : lex_state;
  token : string;
  quoted : bool;
  emitted : list string }.

Definition is_whitespace (c : ascii) : bool :=
  Ascii.eqb c " " || Ascii.eqb c tab || Ascii.eqb c carriage_return || Ascii.eqb c newline.

Definition is_quote (c : ascii) : bool := Ascii.eqb c squote || Ascii.eqb c dquote.

Definition add (l : lexer) (c : ascii) : string := token l ++ String c EmptyString.

(** The test [if self.token or (self.posix and quoted): break] and the
    reset at the end of [read_token]. *)
Definition emit (st : lex_state) (l : lexer) : lexer :=
  if nonempty (token l) || quoted l
  then mkLexer st EmptyString false (emitted l ++ [token l])
  else mkLexer st EmptyString false (emitted l).

(** One turn of the loop of [read_token] on the character [c]. *)
Definition step (l : lexer) (c : ascii) : lexer :=
  match state l with
  | InWhite =>
      if is_whitespace c then emit InWhite l
      else if Ascii.eqb c backslash then mkLexer (InEscape false) (token l) (quoted l) (emitted l)
      else if is_quote c then mkLexer (InQuote c) (token l) (quoted l) (emitted l)
      else mkLexer InWord (String c EmptyString) (quoted l) (emitted l)
  | InQuote q =>
      if Ascii.eqb c q then mkLexer InWord (token l) true (emitted l)
      else if Ascii.eqb c backslash && Ascii.eqb q dquote
      then mkLexer (InEscape true) (token l) true (emitted l)
      else mkLexer (InQuote q) (add l c) true (emitted l)
  | InEscape dq =>
      let tok :=
        if dq && negb (Ascii.eqb c backslash) && negb (Ascii.eqb c dquote)
        then token l ++ String backslash (String c EmptyString)
        else add l c in
      mkLexer (if dq then InQuote dquote else InWord) tok (quoted l) (emitted l)
  | InWord =>
      if is_whitespace c then emit InWhite l
      else if is_quote c then mkLexer (InQuote c) (token l) (quoted l) (emitted l)
      else if Ascii.eqb c backslash then mkLexer (InEscape false) (token l) (quoted l) (emitted l)
      else mkLexer InWord (add l c) (quoted l) (emitted l)
  end.

Fixpoint run (l : lexer) (s : string) : lexer :=
  match s with
  | EmptyString => l
  | String c r => run (step l c) r
  end.

(** The end of the input: [ValueError] inside a quote or after a
    backslash, the last token otherwise. *)
Definition finish (l : lexer) : option (list string) :=
  match state l with
  | InQuote _ | InEscape _ => None
  | _ => Some (emitted (emit InWhite l))
  end.

Definition initial : lexer := mkLexer InWhite EmptyString false [].

Definition split (s : string) : option (list string) := finish (run initial s).

End Shlex.

(** ** http_client.py *)

Module HttpClient.
Import PyStr Urllib.

Definition placeholder (var_name : string) : string := "{{" ++ var_name ++ "}}".

Definition substitute_variables (text : string) (env_vars : PyDict.dict string) : string :=
  fold_left (fun result '(var_name, var_value) =>
               replace (placeholder var_name) var_value result) env_vars text.

(** The loop [for param in request.query_params] of [build_url] and of
    [generate_curl_command]; [f] is what is done to the value. *)
Definition merge_params (f : string -> string) (ps : list KeyValuePair)
    (existing_params : PyDict.dict (list string)) : PyDict.dict (list string) :=
  fold_left (fun d param =>
               if kv_enabled param && nonempty (kv_key param)
               then PyDict.set (kv_key param) [f (kv_value param)] d
               else d) ps existing_params.

(** The URL as [build_url] hands it to [urlparse]. *)
Definition prepare_url (request : RequestModel) (env_vars : PyDict.dict string) : string :=
  let url := strip (substitute_variables (url request) env_vars) in
  if (startswith (String dquote EmptyString) url && endswith (String dquote EmptyString) url)
     || (startswith (String squote EmptyString) url && endswith (String squote EmptyString) url)
  then slice_1_m1 url else url.

Definition build_url (lib : NetlocChecks) (request : RequestModel)
    (env_vars : PyDict.dict string) : option string :=
  match urlparse lib (prepare_url request env_vars) with
  | None => None
  | Some parsed =>
      let existing_params := parse_qs (query parsed) in
      let existing_params :=
        merge_params (fun v => substitute_variables v env_vars)
                     (query_params request) existing_params in
      let new_query := urlencode existing_params in
      Some (urlunparse (replace_query parsed new_query))
  end.

Definition build_headers (request : RequestModel) (env_vars : PyDict.dict string)
    : PyDict.dict string :=
  let headers :=
    fold_left (fun headers header =>
                 if kv_enabled header && nonempty (kv_key header)
                 then let key := substitute_variables (kv_key header) env_vars in
                      let value := substitute_variables (kv_value header) env_vars in
                      PyDict.set key value headers
                 else headers) (headers request) [] in
  if (auth_type_value (auth_type (auth request)) =? "bearer")
     && nonempty (bearer_token (auth request))
  then let token := substitute_variables (bearer_token (auth request)) env_vars in
       PyDict.set "Authorization" ("Bearer " ++ token) headers
  else headers.

(** The [data] that [build_body] returns: a text or a dict. *)
Inductive body_data :=
| DataText (text : string)
| DataDict (fields : PyDict.dict string).

(** What [json.loads] does with a text: it returns the value, raises
    [JSONDecodeError], or raises something else (the [ValueError] of an
    integer with too many digits, a [RecursionError]). *)
Inductive loads (Json : Type) : Type :=
| Loaded (json_data : Json)
| JSONDecodeError
| OtherError.
Arguments Loaded {Json} json_data.
Arguments JSONDecodeError {Json}.
Arguments OtherError {Json}.

(** [build_body] calls [json.loads] and opens the files of a multipart
    body.  Both are taken as given: [json_loads] tells what [json.loads]
    does, [open_rb] is [None] where [open(path, 'rb')] raises. *)
Section WithSystem.
Variables Json File : Type.
Variable json_loads : string -> loads Json.
Variable open_rb : string -> option File.

(** The loop over [request.multipart_data]: the [data] and the [files]. *)
Definition multipart_body (items : list MultipartItem) (env_vars : PyDict.dict string)
    : PyDict.dict string * PyDict.dict File :=
  fold_left (fun '(data, files) item =>
               if mp_enabled item && nonempty (mp_key item)
               then let key := substitute_variables (mp_key item) env_vars in
                    if mp_type item =? "file"
                    then let file_path := substitute_variables (mp_value item) env_vars in
                         match open_rb file_path with
                         | Some f => (data, PyDict.set key f files)
                         | None => (data, files)
                         end
                    else let value := substitute_variables (mp_value item) env_vars in
                         (PyDict.set key value data, files)
               else (data, files)) items ([], []).

(** [build_body]: the triple [(data, files, json)]; [None] is an
    exception that escapes it, which is one of [json.loads] that
    [except json.JSONDecodeError] does not take. *)
Definition build_body (request : RequestModel) (env_vars : PyDict.dict string)
    : option (option body_data * option (PyDict.dict File) * option Json) :=
  if body_type_value (body_type request) =? "none" then Some (None, None, None)
  else if body_type_value (body_type request) =? "raw" then
    let body_text := substitute_variables (raw_body request) env_vars in
    if raw_body_type_value (raw_body_type request) =? "json" then
      match json_loads body_text with
      | Loaded json_data => Some (None, None, Some json_data)
      | JSONDecodeError => Some (Some (DataText body_text), None, None)
      | OtherError => None
      end
    else Some (Some (DataText body_text), None, None)
  else if body_type_value (body_type request) =? "x-www-form-urlencoded" then
    let data :=
      fold_left (fun data item =>
                   if kv_enabled item && nonempty (kv_key item)
                   then let key := substitute_variables (kv_key item) env_vars in
                        let value := substitute_variables (kv_value item) env_vars in
                        PyDict.set key value data
                   else data) (form_data request) [] in
    Some (Some (DataDict data), None, None)
  else if body_type_value (body_type request) =? "multipart/form-data" then
    let '(data, files) := multipart_body (multipart_data request) env_vars in
    Some (Some (DataDict data), Some files, None)
  else Some (None, None, None).

End WithSystem.

End HttpClient.

(** ** curl_import.py *)

Module CurlImport.
Import PyStr Urllib.

(** The three ways [parse_curl_command] raises [ValueError]: its own two
    messages, and the one that [urlparse] lets through. *)
Inductive ValueError :=
| Empty_cURL_command
| No_URL_found
| Raised_by_urlparse.

(** Truthiness of a variable that is [None] or a [str], and [a or b]. *)
Definition truthy (o : option string) : bool :=
  match o with Some s => nonempty s | None => false end.

Definition py_or (a b : option string) : option string :=
  if truthy a then a else b.

(** The prefix removal at the head of [parse_curl_command]. *)
Definition strip_curl_prefix (curl_string : string) : string :=
  let s := strip curl_string in
  if startswith "curl " s then strip (drop 5 s)
  else if startswith (String "c" (String "u" (String "r" (String "l" (String newline EmptyString))))) s
  then strip (drop 5 s)
  else s.

(** The hand-written tokenizer of the [except ValueError] branch. *)
Record fallback_state := mkFallback {
  fb_tokens : list string;
  fb_current : string;
  fb_quote_char : option ascii }.

Definition fallback_step (st : fallback_state) (char : ascii) : fallback_state :=
  match fb_quote_char st with
  | None =>
      if Ascii.eqb char dquote || Ascii.eqb char squote
      then mkFallback (fb_tokens st) (fb_current st) (Some char)
      else if Ascii.eqb char " "
      then if nonempty (fb_current st)
           then mkFallback (fb_tokens st ++ [fb_current st]) EmptyString None
           else st
      else mkFallback (fb_tokens st) (fb_current st ++ String char EmptyString) None
  | Some q =>
      if Ascii.eqb char q
      then mkFallback (fb_tokens st) (fb_current st) None
      else mkFallback (fb_tokens st) (fb_current st ++ String char EmptyString) (Some q)
  end.

Fixpoint fallback_run (st : fallback_state) (s : string) : fallback_state :=
  match s with
  | EmptyString => st
  | String c r => fallback_run (fallback_step st c) r
  end.

Definition fallback_split (s : string) : list string :=
  let st := fallback_run (mkFallback [] EmptyString None) s in
  if nonempty (fb_current st) then (fb_tokens st ++ [fb_current st])%list else fb_tokens st.

Definition tokenize (curl_string : string) : list string :=
  match Shlex.split curl_string with
  | Some tokens => tokens
  | None => fallback_split curl_string
  end.

(** The local variables of the scanning loop. *)
Record scan_vars := mkVars {
  v_url : option string;
  v_method : string;
  v_headers : list (string * string);
  v_data : option string;
  v_data_raw : option string;
  v_data_binary : option string;
  v_form_data : list string;
  v_auth_user : option string;
  v_auth_pass : option string;
  v_bearer_token : option string }.

Definition initial_vars : scan_vars :=
  mkVars None "GET" [] None None None [] None None None.

Definition set_url u v := mkVars (Some u) (v_method v) (v_headers v) (v_data v) (v_data_raw v)
  (v_data_binary v) (v_form_data v) (v_auth_user v) (v_auth_pass v) (v_bearer_token v).
Definition set_method m v := mkVars (v_url v) m (v_headers v) (v_data v) (v_data_raw v)
  (v_data_binary v) (v_form_data v) (v_auth_user v) (v_auth_pass v) (v_bearer_token v).
Definition add_header h v := mkVars (v_url v) (v_method v) (v_headers v ++ [h]) (v_data v)
  (v_data_raw v) (v_data_binary v) (v_form_data v) (v_auth_user v) (v_auth_pass v) (v_bearer_token v).
Definition set_data d v := mkVars (v_url v) (v_method v) (v_headers v) (Some d) (v_data_raw v)
  (v_data_binary v) (v_form_data v) (v_auth_user v) (v_auth_pass v) (v_bearer_token v).
Definition set_data_raw d v := mkVars (v_url v) (v_method v) (v_headers v) (v_data v) (Some d)
  (v_data_binary v) (v_form_data v) (v_auth_user v) (v_auth_pass v) (v_bearer_token v).
Definition set_data_binary d v := mkVars (v_url v) (v_method v) (v_headers v) (v_data v)
  (v_data_raw v) (Some d) (v_form_data v) (v_auth_user v) (v_auth_pass v) (v_bearer_token v).
Definition add_form f v := mkVars (v_url v) (v_method v) (v_headers v) (v_data v) (v_data_raw v)
  (v_data_binary v) (v_form_data v ++ [f]) (v_auth_user v) (v_auth_pass v) (v_bearer_token v).
Definition set_auth_user u v := mkVars (v_url v) (v_method v) (v_headers v) (v_data v)
  (v_data_raw v) (v_data_binary v) (v_form_data v) (Some u) (v_auth_pass v) (v_bearer_token v).
Definition set_auth_pass p v := mkVars (v_url v) (v_method v) (v_headers v) (v_data v)
  (v_data_raw v) (v_data_binary v) (v_form_data v) (v_auth_user v) (Some p) (v_bearer_token v).
Definition set_bearer_token t v := mkVars (v_url v) (v_method v) (v_headers v) (v_data v)
  (v_data_raw v) (v_data_binary v) (v_form_data v) (v_auth_user v) (v_auth_pass v) (Some t).

(** The body of [-H]: a header without a colon is dropped. *)
Definition scan_header (header_str : string) (v : scan_vars) : scan_vars :=
  match split_first ":" header_str with
  | Some (key, value) =>
      let key := str_strip key in
      let value := str_strip value in
      if (lower key =? "authorization") && startswith "bearer " (lower value)
      then set_bearer_token (str_strip (drop 7 value)) v
      else add_header (key, value) v
  | None => v
  end.

(** The body of [-u]. *)
Definition scan_user (auth_str : string) (v : scan_vars) : scan_vars :=
  match split_first ":" auth_str with
  | Some (user, pass) => set_auth_pass pass (set_auth_user user v)
  | None => set_auth_user auth_str v
  end.

Definition is_flag (names : list string) (token : string) : bool :=
  existsb (String.eqb token) names.

(** The [while i < len(tokens)] loop.  A recognised flag that is the last
    token has no argument: the loop passes it ([i += 1]) and ends. *)
Fixpoint scan (v : scan_vars) (tokens : list string) : scan_vars :=
  match tokens with
  | [] => v
  | token :: rest =>
      if is_flag ["-X"; "--request"] token then
        match rest with
        | arg :: rest' => scan (set_method (upper arg) v) rest'
        | [] => v
        end
      else if is_flag ["-H"; "--header"] token then
        match rest with
        | arg :: rest' => scan (scan_header arg v) rest'
        | [] => v
        end
      else if is_flag ["-d"; "--data"] token then
        match rest with
        | arg :: rest' => scan (set_data arg v) rest'
        | [] => v
        end
      else if token =? "--data-raw" then
        match rest with
        | arg :: rest' => scan (set_data_raw arg v) rest'
        | [] => v
        end
      else if token =? "--data-binary" then
        match rest with
        | arg :: rest' => scan (set_data_binary arg v) rest'
        | [] => v
        end
      else if is_flag ["-F"; "--form"] token then
        match rest with
        | arg :: rest' => scan (add_form arg v) rest'
        | [] => v
        end
      else if is_flag ["-u"; "--user"] token then
        match rest with
        | arg :: rest' => scan (scan_user arg v) rest'
        | [] => v
        end
      else if startswith "--proxy" token then
        match rest with
        | _ :: rest' => scan v rest'
        | [] => v
        end
      else if startswith "-" token || startswith "--" token then scan v rest
      else if negb (truthy (v_url v)) then scan (set_url token v) rest
      else scan v rest
  end.

(** [body_content = data_raw or data_binary or data] *)
Definition body_content (v : scan_vars) : option string :=
  py_or (py_or (v_data_raw v) (v_data_binary v)) (v_data v).

Definition form_pairs (content : string) : list KeyValuePair :=
  flat_map (fun pair =>
              match split_first "=" pair with
              | Some (key, value) => [mkKV true key value]
              | None => []
              end) (split_char "&" content).

Definition multipart_items (items : list string) : list MultipartItem :=
  flat_map (fun form_item =>
              match split_first "=" form_item with
              | Some (key, value) =>
                  if startswith "@" value
                  then [mkMP true key "file" (drop 1 value)]
                  else [mkMP true key "text" value]
              | None => []
              end) items.

(** The [#set body] part: the body fields of the request, which start at
    their defaults. *)
Record body_fields := mkBody {
  b_body_type : BodyType;
  b_raw_body_type : RawBodyType;
  b_raw_body : string;
  b_form_data : list KeyValuePair;
  b_multipart_data : list MultipartItem }.

Definition set_body (v : scan_vars) : body_fields :=
  match body_content v with
  | Some (String c0 s0) =>
      let content := str_strip (String c0 s0) in
      if startswith "{" content || startswith "[" content
      then mkBody RAW JSON content [] []
      else if has_char "=" content && has_char "&" content
      then mkBody FORM_URLENCODED TEXT EmptyString (form_pairs content) []
      else mkBody RAW TEXT content [] []
  | _ =>
      match v_form_data v with
      | _ :: _ => mkBody MULTIPART TEXT EmptyString [] (multipart_items (v_form_data v))
      | [] => mkBody BODY_NONE TEXT EmptyString [] []
      end
  end.

(** The [#set auth] part. *)
Definition set_auth (v : scan_vars) : AuthConfig :=
  match v_bearer_token v with
  | Some (String c t) => mkAuth BEARER EmptyString EmptyString (String c t)
  | _ =>
      match v_auth_user v with
      | Some (String c u) =>
          mkAuth BASIC (String c u)
                 (match py_or (v_auth_pass v) (Some EmptyString) with
                  | Some p => p | None => EmptyString end)
                 EmptyString
      | _ => AuthConfig_default
      end
  end.

Definition parse_curl_command (lib : NetlocChecks) (curl_string : string)
    : result ValueError RequestModel :=
  let tokens := tokenize (strip_curl_prefix curl_string) in
  match tokens with
  | [] => Error Empty_cURL_command
  | _ :: _ =>
      let v := scan initial_vars tokens in
      match v_url v with
      | Some (String c0 u0) =>
          let url := String c0 u0 in
          let method :=
            match HttpMethod_of (v_method v) with Some m => m | None => GET end in
          match urlparse lib url with
          | None => Error Raised_by_urlparse
          | Some parsed =>
              let query_params :=
                map (fun kv => mkKV true (fst kv) (snd kv)) (flatten (parse_qs (query parsed))) in
              let headers := map (fun kv => mkKV true (fst kv) (snd kv)) (v_headers v) in
              let body := set_body v in
              Ok (mkRequest method url query_params headers
                    (b_body_type body) (b_raw_body_type body) (b_raw_body body)
                    (b_form_data body) (b_multipart_data body)
                    (set_auth v) "Default")
          end
      | _ => Error No_URL_found
      end
  end.

End CurlImport.

(** ** curl_export.py *)

Module CurlExport.
Import PyStr Urllib.

Definition escape_shell_string (s : string) : string := Shlex.quote s.

(** The [#headers] loop. *)
Definition header_parts (hs : list KeyValuePair) : list string :=
  flat_map (fun header =>
              if kv_enabled header && nonempty (kv_key header)
              then ["-H " ++ escape_shell_string (kv_key header ++ ": " ++ kv_value header)]
              else []) hs.

(** The [#auth] part. *)
Definition auth_parts (a : AuthConfig) : list string :=
  if auth_type_value (auth_type a) =? "basic" then
    if nonempty (username a) || nonempty (password a)
    then ["-u " ++ escape_shell_string (username a ++ ":" ++ password a)]
    else []
  else if auth_type_value (auth_type a) =? "bearer" then
    if nonempty (bearer_token a)
    then ["-H " ++ escape_shell_string ("Authorization: Bearer " ++ bearer_token a)]
    else []
  else [].

Definition form_parts (items : list KeyValuePair) : list string :=
  flat_map (fun item =>
              if kv_enabled item && nonempty (kv_key item)
              then [kv_key item ++ "=" ++ kv_value item]
              else []) items.

Definition multipart_parts (items : list MultipartItem) : list string :=
  flat_map (fun item =>
              if mp_enabled item && nonempty (mp_key item)
              then if mp_type item =? "file"
                   then ["-F " ++ escape_shell_string (mp_key item ++ "=@" ++ mp_value item)]
                   else ["-F " ++ escape_shell_string (mp_key item ++ "=" ++ mp_value item)]
              else []) items.

(** The [#body] part. *)
Definition body_parts (request : RequestModel) : list string :=
  if body_type_value (body_type request) =? "raw" then
    if nonempty (raw_body request)
    then ["--data-raw " ++ escape_shell_string (raw_body request)]
    else []
  else if body_type_value (body_type request) =? "x-www-form-urlencoded" then
    match form_data request with
    | [] => []
    | _ :: _ =>
        match form_parts (form_data request) with
        | [] => []
        | fp => ["--data " ++ escape_shell_string (join "&" fp)]
        end
    end
  else if body_type_value (body_type request) =? "multipart/form-data" then
    multipart_parts (multipart_data request)
  else [].

(** The URL that the exporter writes: the request's URL with its enabled
    query parameters merged in.  [None] when [urlparse] raises. *)
Definition full_url (lib : NetlocChecks) (request : RequestModel) : option string :=
  match urlparse lib (url request) with
  | None => None
  | Some parsed =>
      let existing_params := parse_qs (query parsed) in
      let existing_params := HttpClient.merge_params (fun v => v) (query_params request) existing_params in
      let new_query := urlencode existing_params in
      Some (urlunparse (replace_query parsed new_query))
  end.

(** The [#proxy] part; [None] when its [urlparse] raises. *)
Definition proxy_parts (lib : NetlocChecks) (include_proxy : bool)
    (proxy_http proxy_https full : string) : option (list string) :=
  if include_proxy then
    match urlparse lib full with
    | None => None
    | Some parsed_url =>
        if (scheme parsed_url =? "https") && nonempty proxy_https
        then Some ["--proxy " ++ escape_shell_string proxy_https]
        else if (scheme parsed_url =? "http") && nonempty proxy_http
        then Some ["--proxy " ++ escape_shell_string proxy_http]
        else Some []
    end
  else Some [].

(** [generate_curl_command]; [None] is an exception that escapes it. *)
Definition generate_curl_command (lib : NetlocChecks) (request : RequestModel)
    (include_proxy : bool) (proxy_http proxy_https : string) (ssl_verify : bool)
    : option string :=
  let parts := ["curl"] in
  let parts :=
    if negb (method_value (method request) =? "GET")
    then app parts ["-X " ++ method_value (method request)] else parts in
  match full_url lib request with
  | None => None
  | Some full =>
      let parts := app parts [escape_shell_string full] in
      let parts := app parts (header_parts (headers request)) in
      let parts := app parts (auth_parts (auth request)) in
      let parts := app parts (body_parts request) in
      match proxy_parts lib include_proxy proxy_http proxy_https full with
      | None => None
      | Some pp =>
          let parts := app parts pp in
          let parts := if negb ssl_verify then app parts ["--insecure"] else parts in
          Some (join " " parts)
      end
  end.

End CurlExport.

(** ** curl_export.py on text with lone surrogates: [generate_curl_command]
    with the [urlencode] that raises *)

Module Strict.
Import PyStr Urllib CurlExport.

(** The URL that the exporter writes; [None] when [urlparse] or
    [urlencode] raises. *)
Definition full_url (lib : NetlocChecks) (request : RequestModel) : option string :=
  match urlparse lib (url request) with
  | None => None
  | Some parsed =>
      let existing_params := parse_qs (query parsed) in
      let existing_params := HttpClient.merge_params (fun v => v) (query_params request) existing_params in
      match Surrogates.urlencode existing_params with
      | None => None
      | Some new_query => Some (urlunparse (replace_query parsed new_query))
      end
  end.

(** [generate_curl_command]; [None] is an exception that escapes it. *)
Definition generate_curl_command (lib : NetlocChecks) (request : RequestModel)
    (include_proxy : bool) (proxy_http proxy_https : string) (ssl_verify : bool)
    : option string :=
  let parts := ["curl"] in
  let parts :=
    if negb (method_value (method request) =? "GET")
    then app parts ["-X " ++ method_value (method request)] else parts in
  match full_url lib request with
  | None => None
  | Some full =>
      let parts := app parts [escape_shell_string full] in
      let parts := app parts (header_parts (headers request)) in
      let parts := app parts (auth_parts (auth request)) in
      let parts := app parts (body_parts request) in
      match proxy_parts lib include_proxy proxy_http proxy_https full with
      | None => None
      | Some pp =>
          let parts := app parts pp in
          let parts := if negb ssl_verify then app parts ["--insecure"] else parts in
          Some (join " " parts)
      end
  end.

End Strict.

(** ** persistence.py and the start-up code of app.py that uses it *)

Module Persistence.

(** A JSON document, as [json.load] returns it. *)
#[warnings="-register-all"]
Inductive json :=
| JNull
| JBool (b : bool)
| JNumber (literal : string)
| JString (s : string)
| JArray (items : list json)
| JObject (members : PyDict.dict json).

(** An [Environment] as the dataclass holds it: nothing checks the types
    of the fields that [from_dict] reads. *)
Record EnvironmentData := mkEnvData {
  ed_name : json;
  ed_variables : json }.

Definition default_env : EnvironmentData := mkEnvData (JString "Default") (JObject []).

(** [Environment.from_dict(data)]; [None] when [data.get] does not exist. *)
Definition Environment_from_dict (data : json) : option EnvironmentData :=
  match data with
  | JObject m =>
      Some (mkEnvData
              (match PyDict.get "name" m with Some n => n | None => JString EmptyString end)
              (match PyDict.get "variables" m with Some vs => vs | None => JObject [] end))
  | _ => None
  end.

Definition Environment_to_dict (e : EnvironmentData) : json :=
  JObject [("name", ed_name e); ("variables", ed_variables e)].

(** The environments file: absent, or present with a content that
    [json.load] reads ([Some]) or rejects ([None]); and whether writing
    it succeeds. *)
Inductive file_state :=
| Absent
| Present (content : option json).

Record disk := mkDisk {
  environments_file : file_state;
  writable : bool }.

Definition save_environments (environments : PyDict.dict EnvironmentData) (d : disk) : disk :=
  if writable d
  then mkDisk (Present (Some (JObject (map (fun '(name, env) => (name, Environment_to_dict env))
                                           environments)))) true
  else d.

(** The dict comprehension over [data.items()]; [None] when an entry, or
    [data] itself, is not an object. *)
Fixpoint load_entries (members : PyDict.dict json) : option (PyDict.dict EnvironmentData) :=
  match members with
  | [] => Some []
  | (name, env_data) :: rest =>
      match Environment_from_dict env_data, load_entries rest with
      | Some e, Some r => Some ((name, e) :: r)
      | _, _ => None
      end
  end.

Definition load_environments (d : disk) : PyDict.dict EnvironmentData * disk :=
  match environments_file d with
  | Absent =>
      let envs := [("Default", default_env)] in
      (envs, save_environments envs d)
  | Present (Some (JObject members)) =>
      match load_entries members with
      | Some envs => (envs, d)
      | None => ([("Default", default_env)], d)
      end
  | Present _ => ([("Default", default_env)], d)
  end.

(** app.py, [create_main_window]: the environments that the window gets. *)
Definition create_main_window_environments (d : disk) : PyDict.dict EnvironmentData * disk :=
  let '(environments, d) := load_environments d in
  if negb (PyDict.mem "Default" environments)
  then let environments := PyDict.set "Default" default_env environments in
       (environments, save_environments environments d)
  else (environments, d).

End Persistence.

(** ** models.py: [to_dict] and [from_dict]

    A [from_dict] reads its fields with [data.get] and checks no type.  Its
    outcome is one of three: the object, every field of the type that the
    dataclass annotates ([Built]); an object one field of which holds a
    value of another type, which this development does not follow
    ([Untyped]); or an exception ([Raises]: [data] has no [get], an enum
    rejects its value, or a value that is iterated cannot be). *)

Module ModelDicts.
Import Persistence.

Inductive built (A : Type) : Type :=
| Built (a : A)
| Untyped
| Raises.
Arguments Built {A} a.
Arguments Untyped {A}.
Arguments Raises {A}.

(** One more argument of a constructor call.  Every argument is
    evaluated, so an exception in any of them is the outcome of the
    call. *)
Definition ap {A B : Type} (f : built (A -> B)) (x : built A) : built B :=
  match f, x with
  | Raises, _ | _, Raises => Raises
  | Untyped, _ | _, Untyped => Untyped
  | Built g, Built a => Built (g a)
  end.

Notation "f <*> x" := (ap f x) (at level 40, left associativity).

Fixpoint collect {A : Type} (l : list (built A)) : built (list A) :=
  match l with
  | [] => Built []
  | x :: r => Built cons <*> x <*> collect r
  end.

(** [for item in value]: the items of a list, the keys of a dict, the
    characters of a [str] (here its bytes; on each of them every
    [from_dict] raises); [None] when [value] is not iterable. *)
Definition iterate (value : json) : option (list json) :=
  match value with
  | JArray items => Some items
  | JObject members => Some (map JString (PyDict.keys members))
  | JString s => Some (map (fun c => JString (String c EmptyString)) (list_ascii_of_string s))
  | _ => None
  end.

(** [[from_dict(item) for item in value]] *)
Definition comprehension {A : Type} (from_dict : json -> built A) (value : json)
    : built (list A) :=
  match iterate value with
  | Some items => collect (map from_dict items)
  | None => Raises
  end.

(** [data.get(key, default)] *)
Definition field (key : string) (default : json) (data : PyDict.dict json) : json :=
  match PyDict.get key data with Some v => v | None => default end.

(** A value stored in a field annotated [bool], [str]. *)
Definition a_bool (v : json) : built bool :=
  match v with JBool b => Built b | _ => Untyped end.

Definition a_str (v : json) : built string :=
  match v with JString s => Built s | _ => Untyped end.

(** [Enum(v)]: a value that is not the value of a member raises. *)
Definition an_enum {A : Type} (of_value : string -> option A) (v : json) : built A :=
  match v with
  | JString s => match of_value s with Some a => Built a | None => Raises end
  | _ => Raises
  end.

Definition KeyValuePair_to_dict (p : KeyValuePair) : json :=
  JObject [("enabled", JBool (kv_enabled p)); ("key", JString (kv_key p));
           ("value", JString (kv_value p))].

Definition KeyValuePair_from_dict (data : json) : built KeyValuePair :=
  match data with
  | JObject d =>
      Built mkKV <*> a_bool (field "enabled" (JBool true) d)
                 <*> a_str (field "key" (JString "") d)
                 <*> a_str (field "value" (JString "") d)
  | _ => Raises
  end.

Definition MultipartItem_to_dict (m : MultipartItem) : json :=
  JObject [("enabled", JBool (mp_enabled m)); ("key", JString (mp_key m));
           ("type", JString (mp_type m)); ("value", JString (mp_value m))].

Definition MultipartItem_from_dict (data : json) : built MultipartItem :=
  match data with
  | JObject d =>
      Built mkMP <*> a_bool (field "enabled" (JBool true) d)
                 <*> a_str (field "key" (JString "") d)
                 <*> a_str (field "type" (JString "text") d)
                 <*> a_str (field "value" (JString "") d)
  | _ => Raises
  end.

Definition AuthConfig_to_dict (a : AuthConfig) : json :=
  JObject [("auth_type", JString (auth_type_value (auth_type a)));
           ("username", JString (username a)); ("password", JString (password a));
           ("bearer_token", JString (bearer_token a))].

Definition AuthConfig_from_dict (data : json) : built AuthConfig :=
  match data with
  | JObject d =>
      Built mkAuth <*> an_enum AuthType_of (field "auth_type" (JString "none") d)
                   <*> a_str (field "username" (JString "") d)
                   <*> a_str (field "password" (JString "") d)
                   <*> a_str (field "bearer_token" (JString "") d)
  | _ => Raises
  end.

Definition RequestModel_to_dict (r : RequestModel) : json :=
  JObject [("method", JString (method_value (method r)));
           ("url", JString (url r));
           ("query_params", JArray (map KeyValuePair_to_dict (query_params r)));
           ("headers", JArray (map KeyValuePair_to_dict (headers r)));
           ("body_type", JString (body_type_value (body_type r)));
           ("raw_body_type", JString (raw_body_type_value (raw_body_type r)));
           ("raw_body", JString (raw_body r));
           ("form_data", JArray (map KeyValuePair_to_dict (form_data r)));
           ("multipart_data", JArray (map MultipartItem_to_dict (multipart_data r)));
           ("auth", AuthConfig_to_dict (auth r));
           ("environment", JString (environment r))].

Definition RequestModel_from_dict (data : json) : built RequestModel :=
  match data with
  | JObject d =>
      Built mkRequest
        <*> an_enum HttpMethod_of (field "method" (JString "GET") d)
        <*> a_str (field "url" (JString "") d)
        <*> comprehension KeyValuePair_from_dict (field "query_params" (JArray []) d)
        <*> comprehension KeyValuePair_from_dict (field "headers" (JArray []) d)
        <*> an_enum BodyType_of (field "body_type" (JString "none") d)
        <*> an_enum RawBodyType_of (field "raw_body_type" (JString "text") d)
        <*> a_str (field "raw_body" (JString "") d)
        <*> comprehension KeyValuePair_from_dict (field "form_data" (JArray []) d)
        <*> comprehension MultipartItem_from_dict (field "multipart_data" (JArray []) d)
        <*> AuthConfig_from_dict (field "auth" (JObject []) d)
        <*> a_str (field "environment" (JString "Default") d)
  | _ => Raises
  end.

Definition CollectionItem_to_dict (i : CollectionItem) : json :=
  JObject [("name", JString (item_name i));
           ("request", RequestModel_to_dict (item_request i))].

Definition CollectionItem_from_dict (data : json) : built CollectionItem :=
  match data with
  | JObject d =>
      Built mkItem <*> a_str (field "name" (JString "") d)
                   <*> RequestModel_from_dict (field "request" (JObject []) d)
  | _ => Raises
  end.

Definition Collection_to_dict (c : Collection) : json :=
  JObject [("name", JString (coll_name c));
           ("items", JArray (map CollectionItem_to_dict (coll_items c)))].

Definition Collection_from_dict (data : json) : built Collection :=
  match data with
  | JObject d =>
      Built mkCollection
        <*> a_str (field "name" (JString "") d)
        <*> comprehension CollectionItem_from_dict (field "items" (JArray []) d)
  | _ => Raises
  end.


End ModelDicts.

(** ** persistence.py: the history and the collections files

    A file is absent, or present with a content that [json.load] reads or
    rejects; writing it succeeds as a whole or leaves it as it is. *)

Module Storage.
Import Persistence ModelDicts.

Record json_file := mkFile {
  file_content : file_state;
  file_writable : bool }.

(** [with open(path, "w") as f: json.dump(document, f)] under the
    [try] of a [save_] function. *)
Definition write_json (document : json) (f : json_file) : json_file :=
  if file_writable f then mkFile (Present (Some document)) true else f.

Definition save_collections (collections : list Collection) (f : json_file) : json_file :=
  write_json (JArray (map Collection_to_dict collections)) f.

(** [load_collections]: an exception, of [json.load] or of a
    [from_dict], gives the empty list. *)
Definition load_collections (f : json_file) : built (list Collection) :=
  match file_content f with
  | Absent => Built []
  | Present None => Built []
  | Present (Some data) =>
      match comprehension Collection_from_dict data with
      | Raises => Built []
      | collections => collections
      end
  end.

(** The history functions, whatever the entries are: [to_dict] and
    [from_dict] stand for the two methods of [HistoryEntry].
    [from_dict i item] is the call that a load makes for the item at
    position [i], [None] when it raises; the position is there because the
    method reads the clock for an item whose timestamp does not parse, so
    that two calls on equal items may differ. *)
Section History.
Variable Entry : Type.
Variable to_dict : Entry -> json.
Variable from_dict : nat -> json -> option Entry.

Fixpoint entries_from (i : nat) (items : list json) : option (list Entry) :=
  match items with
  | [] => Some []
  | item :: rest =>
      match from_dict i item with
      | Some entry =>
          match entries_from (S i) rest with
          | Some entries => Some (entry :: entries)
          | None => None
          end
      | None => None
      end
  end.

Definition load_history (f : json_file) : list Entry :=
  match file_content f with
  | Present (Some data) =>
      match iterate data with
      | Some items =>
          match entries_from 0 items with
          | Some history => history
          | None => []
          end
      | None => []
      end
  | _ => []
  end.

Definition save_history (history : list Entry) (f : json_file) : json_file :=
  write_json (JArray (map to_dict history)) f.

Definition add_history_entry (entry : Entry) (f : json_file) : json_file :=
  let history := load_history f in
  let history := entry :: history in
  let history := firstn 1000 history in
  save_history history f.

Definition clear_history (f : json_file) : json_file := save_history [] f.

End History.

End Storage.

(** ** ui_history.py and ui_main.py: the collections that the window holds

    The list [self.collections] of the collections widget, as the two
    functions that add to it leave it; the tree that displays it is not
    modelled. *)

Module UiCollections.
Import PyStr.



(** The merge of [MainWindow.import_collections]: the collections read
    from the file are added to the existing ones, except those whose name
    an existing collection had before the merge. *)
Definition import_collections (existing collections : list Collection) : list Collection :=
  let existing_names := map coll_name existing in
  fold_left (fun existing coll =>
               if negb (existsb (String.eqb (coll_name coll)) existing_names)
               then app existing [coll]
               else existing) collections existing.

End UiCollections.

(** ** What the statements below speak of *)

Module Spec.
Import PyStr.

(** [p] occurs in [s] as a substring. *)
Definition Occurs (p s : string) : Prop := exists a b, s = a ++ p ++ b.

(** [p] without its last character. *)
Fixpoint but_last (p : string) : string :=
  match p with
  | EmptyString => EmptyString
  | String c r => match r with EmptyString => EmptyString | _ => String c (but_last r) end
  end.

(** [Replaced p v s t]: [t] is [s] with every occurrence of [p], taken
    from the left without overlap, replaced with [v].  In the second rule
    the occurrence after [a] is the first one: [p] does not occur in [a]
    followed by all but the last character of [p]. *)
Inductive Replaced (p v : string) : string -> string -> Prop :=
| Replaced_none s : ~ Occurs p s -> Replaced p v s s
| Replaced_next a b b' :
    ~ Occurs p (a ++ but_last p) ->
    Replaced p v b b' ->
    Replaced p v (a ++ p ++ b) (a ++ v ++ b').

(** [Substituted env s t]: the variables of [env], in its order, each
    replaced in the text that the ones before it produced. *)
Inductive Substituted : PyDict.dict string -> string -> string -> Prop :=
| Substituted_done s : Substituted [] s s
| Substituted_step k v env s s' t :
    Replaced (HttpClient.placeholder k) v s s' ->
    Substituted env s' t ->
    Substituted ((k, v) :: env) s t.

(** A query parameter that the builders merge: enabled, with a key. *)
Definition mergeable (p : KeyValuePair) : bool := kv_enabled p && nonempty (kv_key p).

(** The last mergeable parameter of [ps] whose key is [k]. *)
Fixpoint last_with_key (k : string) (ps : list KeyValuePair) : option KeyValuePair :=
  match ps with
  | [] => None
  | p :: r =>
      match last_with_key k r with
      | Some q => Some q
      | None => if mergeable p && (kv_key p =? k) then Some p else None
      end
  end.


(** The library checks of a CPython release without the validation of
    bracketed hosts; on an ASCII netloc without brackets every release
    agrees with it. *)
Definition permissive : Urllib.NetlocChecks :=
  Urllib.mkChecks (fun _ => true) (fun _ => true).

(** The flags that the importer reads together with the token after them. *)
Definition takes_argument (token : string) : bool :=
  CurlImport.is_flag ["-X"; "--request"; "-H"; "--header"; "-d"; "--data"; "--data-raw";
                      "--data-binary"; "-F"; "--form"; "-u"; "--user"] token
  || startswith "--proxy" token.

(** The URL token of a command line: the first token that is not empty,
    is not a flag (does not start with a dash) and is not the argument of
    a flag that takes one. *)
Fixpoint url_token (tokens : list string) : option string :=
  match tokens with
  | [] => None
  | token :: rest =>
      if takes_argument token then
        match rest with
        | _ :: rest' => url_token rest'
        | [] => None
        end
      else if startswith "-" token then url_token rest
      else if nonempty token then Some token
      else url_token rest
  end.

(** What [shlex.quote] writes between the single quotes. *)
Definition quoted_body (s : string) : string :=
  replace (String squote EmptyString) Shlex.quote_escape s.

(** The words of the command line that the exporter writes after the
    word curl, before they are quoted; [full] is the exported URL. *)
Definition method_words (m : HttpMethod) : list string :=
  if negb (method_value m =? "GET") then ["-X"; method_value m] else [].

Definition header_words (hs : list KeyValuePair) : list string :=
  flat_map (fun h => if mergeable h then ["-H"; kv_key h ++ ": " ++ kv_value h] else []) hs.

Definition auth_words (a : AuthConfig) : list string :=
  match auth_type a with
  | BASIC =>
      if nonempty (username a) || nonempty (password a)
      then ["-u"; username a ++ ":" ++ password a] else []
  | BEARER =>
      if nonempty (bearer_token a)
      then ["-H"; "Authorization: Bearer " ++ bearer_token a] else []
  | AUTH_NONE => []
  end.

Definition multipart_words (items : list MultipartItem) : list string :=
  flat_map (fun item =>
              if mp_enabled item && nonempty (mp_key item)
              then ["-F"; mp_key item
                            ++ (if mp_type item =? "file" then "=@" else "=")
                            ++ mp_value item]
              else []) items.

Definition body_words (request : RequestModel) : list string :=
  match body_type request with
  | RAW => if nonempty (raw_body request) then ["--data-raw"; raw_body request] else []
  | FORM_URLENCODED =>
      match CurlExport.form_parts (form_data request) with
      | [] => []
      | fp => ["--data"; join "&" fp]
      end
  | MULTIPART => multipart_words (multipart_data request)
  | BODY_NONE => []
  end.

Definition export_words (request : RequestModel) (full : string) : list string :=
  app (method_words (method request))
      (full :: app (header_words (headers request))
                   (app (auth_words (auth request)) (body_words request))).

(** [parts], the pieces that the exporter joins with spaces, write the
    words [ws]. *)
Definition Renders (parts ws : list string) : Prop :=
  join " " parts = join " " (map Shlex.quote ws) /\ (parts = [] <-> ws = []).

(** The white-space characters of Python: the code points that
    [str.isspace] accepts. *)
Definition white_space_code_points : list N :=
  [9; 10; 11; 12; 13; 28; 29; 30; 31; 32; 133; 160; 5760;
   8192; 8193; 8194; 8195; 8196; 8197; 8198; 8199; 8200; 8201; 8202;
   8232; 8233; 8239; 8287; 12288]%N.

(** The UTF-8 of a code point below U+10000. *)
Definition utf8 (cp : N) : string :=
  if (cp <? 128)%N then bytes [cp]
  else if (cp <? 2048)%N then bytes [192 + cp / 64; 128 + cp mod 64]%N
  else bytes [224 + cp / 4096; 128 + (cp / 64) mod 64; 128 + cp mod 64]%N.

Definition white_space : list string := map utf8 white_space_code_points.

(** A text made of white-space characters only. *)
Inductive White : string -> Prop :=
| White_empty : White EmptyString
| White_more w s : In w white_space -> White s -> White (w ++ s).

(** [content] is [b] trimmed: [b] is [content] between two texts of
    white space, and [content] neither starts nor ends with a white-space
    character. *)
Definition TrimOf (b content : string) : Prop :=
  (exists l t, b = l ++ content ++ t /\ White l /\ White t)
  /\ (forall w x, In w white_space -> content <> w ++ x)
  /\ (forall w x, In w white_space -> content <> x ++ w).


(** [s] holds a lone surrogate: the three bytes of a code point from
    U+D800 to U+DFFF. *)
Definition HoldsSurrogate (s : string) : Prop :=
  exists a b cp, (55296 <= cp <= 57343)%N /\ s = a ++ utf8 cp ++ b.

(** The values that the exporter writes under the key [k] for a request
    whose URL has the query [qs]: the value of the last enabled parameter
    of the request with that key, or else the values that the query has
    under it. *)
Definition exported_values (qs : string) (r : RequestModel) (k : string)
    : option (list string) :=
  match last_with_key k (query_params r) with
  | Some p => Some [kv_value p]
  | None => PyDict.get k (Urllib.parse_qs qs)
  end.

(** Every key and value of [d] can be encoded. *)
Definition all_encodable (d : PyDict.dict (list string)) : bool :=
  forallb (fun kv => Surrogates.encodable (fst kv) && forallb Surrogates.encodable (snd kv)) d.


(** A text that [strip] leaves alone, and that is not empty. *)
Definition Trimmed (x : string) : Prop :=
  lstrip_of is_space x = x /\ rstrip_of is_space x = x /\ x <> EmptyString.

(** What the scanning loop does with the exported words, group by group. *)
Definition after_method (m : HttpMethod) (v : CurlImport.scan_vars) : CurlImport.scan_vars :=
  if negb (method_value m =? "GET") then CurlImport.set_method (method_value m) v else v.

Definition after_headers (hs : list KeyValuePair) (v : CurlImport.scan_vars)
    : CurlImport.scan_vars :=
  fold_left (fun v h =>
               if mergeable h
               then CurlImport.scan_header (kv_key h ++ ": " ++ kv_value h) v
               else v) hs v.

Definition after_auth (a : AuthConfig) (v : CurlImport.scan_vars) : CurlImport.scan_vars :=
  match auth_words a with
  | flag :: arg :: _ =>
      if flag =? "-u" then CurlImport.scan_user arg v else CurlImport.scan_header arg v
  | _ => v
  end.

Fixpoint after_flag_args (set : string -> CurlImport.scan_vars -> CurlImport.scan_vars)
    (words : list string) (v : CurlImport.scan_vars) : CurlImport.scan_vars :=
  match words with
  | _ :: arg :: rest => after_flag_args set rest (set arg v)
  | _ => v
  end.

Definition after_body (request : RequestModel) (v : CurlImport.scan_vars)
    : CurlImport.scan_vars :=
  match body_type request with
  | RAW => after_flag_args CurlImport.set_data_raw (body_words request) v
  | FORM_URLENCODED => after_flag_args CurlImport.set_data (body_words request) v
  | MULTIPART => after_flag_args CurlImport.add_form (body_words request) v
  | BODY_NONE => v
  end.

Definition after_export (request : RequestModel) (full : string) : CurlImport.scan_vars :=
  after_body request
    (after_auth (auth request)
       (after_headers (headers request)
          (CurlImport.set_url full (after_method (method request) CurlImport.initial_vars)))).






Definition mergeable_item (item : MultipartItem) : bool :=
  mp_enabled item && nonempty (mp_key item).




(** A name without braces, as the names of variables are. *)
Definition brace_free (s : string) : bool :=
  negb (has_char "{" s) && negb (has_char "}" s).

(** The request without the entries that are disabled or have no key. *)
Definition enabled_only (r : RequestModel) : RequestModel :=
  mkRequest (method r) (url r) (filter mergeable (query_params r))
            (filter mergeable (headers r)) (body_type r) (raw_body_type r) (raw_body r)
            (filter mergeable (form_data r)) (filter mergeable_item (multipart_data r))
            (auth r) (environment r).

(** [pick] tells the key and the value that an item assigns, if it
    assigns one; [last_assigned pick k items] is the value that the last
    item to assign the key [k] gives it. *)
Fixpoint last_assigned {A V : Type} (pick : A -> option (string * V)) (k : string)
    (items : list A) : option V :=
  match items with
  | [] => None
  | x :: r =>
      match last_assigned pick k r with
      | Some v => Some v
      | None =>
          match pick x with
          | Some (k', v) => if k' =? k then Some v else None
          | None => None
          end
      end
  end.

(** The loop [for item in items: d[key] = value], for the items that
    assign something. *)
Definition assign_all {A V : Type} (pick : A -> option (string * V)) (items : list A)
    (d : PyDict.dict V) : PyDict.dict V :=
  fold_left (fun d x => match pick x with Some (k, v) => PyDict.set k v d | None => d end)
            items d.

(** What a header or a form field assigns in the dict that is sent: both
    its key and its value with the variables substituted. *)
Definition sent_pair (env_vars : PyDict.dict string) (p : KeyValuePair)
    : option (string * string) :=
  if mergeable p
  then Some (HttpClient.substitute_variables (kv_key p) env_vars,
             HttpClient.substitute_variables (kv_value p) env_vars)
  else None.

(** What a multipart item assigns among the text fields, and among the
    files: a file item assigns the file that [open_rb] gives for its
    substituted path, and nothing when the path cannot be opened. *)
Definition sent_text (env_vars : PyDict.dict string) (i : MultipartItem)
    : option (string * string) :=
  if mergeable_item i && negb (mp_type i =? "file")
  then Some (HttpClient.substitute_variables (mp_key i) env_vars,
             HttpClient.substitute_variables (mp_value i) env_vars)
  else None.

Definition sent_file {File : Type} (open_rb : string -> option File)
    (env_vars : PyDict.dict string) (i : MultipartItem) : option (string * File) :=
  if mergeable_item i && (mp_type i =? "file")
  then match open_rb (HttpClient.substitute_variables (mp_value i) env_vars) with
       | Some f => Some (HttpClient.substitute_variables (mp_key i) env_vars, f)
       | None => None
       end
  else None.

(** A multipart item that reaches the body: enabled, with a key, and, if
    it is a file, one that can be opened. *)
Definition reaches_body {File : Type} (open_rb : string -> option File)
    (env_vars : PyDict.dict string) (i : MultipartItem) : bool :=
  mergeable_item i
  && (negb (mp_type i =? "file")
      || match open_rb (HttpClient.substitute_variables (mp_value i) env_vars) with
         | Some _ => true
         | None => false
         end).

(** The proxy that the exporter writes, if it writes one, and the words
    that it writes after those of the request. *)
Definition chosen_proxy (lib : Urllib.NetlocChecks) (include_proxy : bool)
    (proxy_http proxy_https full : string) : option string :=
  if include_proxy then
    match Urllib.urlparse lib full with
    | Some parsed_url =>
        if (Urllib.scheme parsed_url =? "https") && nonempty proxy_https then Some proxy_https
        else if (Urllib.scheme parsed_url =? "http") && nonempty proxy_http then Some proxy_http
        else None
    | None => None
    end
  else None.

Definition option_words (proxy : option string) (ssl_verify : bool) : list string :=
  app (match proxy with Some p => ["--proxy"; p] | None => [] end)
      (if ssl_verify then [] else ["--insecure"]).



(** What every header that the importer returns satisfies: it is
    enabled, its key and its value are trimmed, and it is not the bearer
    form of Authorization. *)
Definition imported_header (h : KeyValuePair) : Prop :=
  kv_enabled h = true
  /\ strip (kv_key h) = kv_key h
  /\ strip (kv_value h) = kv_value h
  /\ (lower (kv_key h) =? "authorization") && startswith "bearer " (lower (kv_value h))
     = false.

(** What the importer's hand-written tokenizer returns at the end. *)
Definition fallback_finish (st : CurlImport.fallback_state) : list string :=
  if nonempty (CurlImport.fb_current st)
  then app (CurlImport.fb_tokens st) [CurlImport.fb_current st]
  else CurlImport.fb_tokens st.

End Spec.

(** * Theorems *)

(** ** Strings *)

Section StringFacts.
Import PyStr.

Lemma append_nil_r (s : string) : s ++ "" = s.
Proof. induction s; simpl; congruence. Qed.

Lemma append_assoc (a b c : string) : (a ++ b) ++ c = a ++ b ++ c.
Proof. induction a; simpl; congruence. Qed.

Lemma length_append (a b : string) :
  String.length (a ++ b) = String.length a + String.length b.
Proof. induction a; simpl; auto. Qed.

Lemma prefix_append (p b : string) : prefix p (p ++ b) = true.
Proof.
  induction p as [|c p IH]; simpl.
  - destruct b; reflexivity.
  - destruct (ascii_dec c c); [exact IH | congruence].
Qed.

Lemma prefix_inv (p s : string) : prefix p s = true -> exists b, s = p ++ b.
Proof.
  revert s; induction p as [|c p IH]; intros s H.
  - exists s; reflexivity.
  - destruct s as [|d s]; simpl in H; [discriminate|].
    destruct (ascii_dec c d); [subst|discriminate].
    destruct (IH _ H) as [b ->]. exists b; reflexivity.
Qed.

Lemma prefix_iff (p s : string) : prefix p s = true <-> exists b, s = p ++ b.
Proof.
  split; [apply prefix_inv|]. intros [b ->]. apply prefix_append.
Qed.

(** A prefix of [x ++ y] that is no longer than [x] is a prefix of [x]. *)
Lemma prefix_shorten (p x y : string) :
  String.length p <= String.length x -> prefix p (x ++ y) = true -> prefix p x = true.
Proof.
  revert x; induction p as [|c p IH]; intros x Hl H.
  - destruct x; reflexivity.
  - destruct x as [|d x]; simpl in Hl; [lia|].
    simpl in *. destruct (ascii_dec c d); [|discriminate].
    apply IH; [lia | exact H].
Qed.

Lemma length_but_last (p : string) :
  String.length (Spec.but_last p) = String.length p - 1.
Proof.
  induction p as [|c p IH]; simpl; auto.
  destruct p; simpl in *; auto. rewrite IH. lia.
Qed.

Lemma occurs_length (p s : string) : Spec.Occurs p s -> String.length p <= String.length s.
Proof. intros (a & b & ->). rewrite !length_append. lia. Qed.

Lemma occurs_cons (p : string) (c : ascii) (s : string) :
  Spec.Occurs p (String c s) -> prefix p (String c s) = true \/ Spec.Occurs p s.
Proof.
  intros (a & b & H). destruct a as [|d a]; simpl in H.
  - left. rewrite H. apply prefix_append.
  - right. inversion H; subst. exists a, b; reflexivity.
Qed.

Lemma occurs_tail (p : string) (c : ascii) (s : string) :
  Spec.Occurs p s -> Spec.Occurs p (String c s).
Proof. intros (a & b & ->). exists (String c a), b; reflexivity. Qed.

Lemma has_char_append (c : ascii) (a b : string) :
  has_char c (a ++ b) = has_char c a || has_char c b.
Proof.
  unfold has_char. induction a as [|x a IH]; [reflexivity|]. simpl.
  now rewrite IH, orb_assoc.
Qed.

End StringFacts.

(** ** White space and [str.strip] *)

Section Trimming.
Import PyStr.

(** The white space of [str_strip] is Python's. *)
Lemma whitespace_is_white_space : whitespace = Spec.white_space.
Proof. reflexivity. Qed.

Lemma whitespace_lengths :
  forall w, In w whitespace ->
    (exists a, w = String a "")
    \/ (exists a b, w = String a (String b "") /\ isspace (String a "") = false)
    \/ (exists a b c, w = String a (String b (String c ""))
                      /\ isspace (String a "") = false
                      /\ isspace (String a (String b "")) = false).
Proof.
  assert (C : forallb (fun w =>
                match w with
                | String a "" => true
                | String a (String b "") => negb (isspace (String a ""))
                | String a (String b (String c "")) =>
                    negb (isspace (String a "")) && negb (isspace (String a (String b "")))
                | _ => false
                end) whitespace = true) by (vm_compute; reflexivity).
  intros w I. rewrite forallb_forall in C. specialize (C w I).
  destruct w as [|a [|b [|c [|d w]]]]; try discriminate.
  - left. eauto.
  - right. left. exists a, b. split; [reflexivity|]. now apply negb_true_iff.
  - right. right. exists a, b, c. apply andb_true_iff in C as [C1 C2].
    split; [reflexivity|]. split; now apply negb_true_iff.
Qed.

Lemma isspace_in (w : string) : isspace w = true <-> In w whitespace.
Proof.
  unfold isspace. rewrite existsb_exists. split.
  - intros (x & I & E). apply String.eqb_eq in E. now subst.
  - intros I. exists w. split; [exact I|apply String.eqb_refl].
Qed.

(** [str_lstrip] passes over a white-space character. *)
Lemma lstrip_skip (w r : string) : In w whitespace -> str_lstrip (w ++ r) = str_lstrip r.
Proof.
  intros I. pose proof (proj2 (isspace_in w) I) as S.
  destruct (whitespace_lengths w I) as [(a & ->)|[(a & b & -> & A)|(a & b & c & -> & A & B)]];
    cbn [append str_lstrip].
  - now rewrite S.
  - now rewrite A, S.
  - now rewrite A, B, S.
Qed.

(** Either [s] starts with a white-space character, which [str_lstrip]
    passes over, or it does not and [str_lstrip] returns it. *)
Lemma lstrip_step (s : string) :
  (exists w r, In w whitespace /\ s = w ++ r /\ str_lstrip s = str_lstrip r)
  \/ (str_lstrip s = s /\ forall w r, In w whitespace -> s <> w ++ r).
Proof.
  destruct s as [|c r].
  { right. split; [reflexivity|]. intros w r I E.
    destruct (whitespace_lengths w I) as [(a & ->)|[(a & b & -> & _)|(a & b & d & -> & _)]];
      discriminate. }
  destruct (isspace (String c "")) eqn:S1.
  { left. exists (String c ""), r. apply isspace_in in S1 as I.
    split; [exact I|]. split; [reflexivity|]. now apply (lstrip_skip (String c "") r). }
  assert (N1 : forall w x, In w whitespace -> String c r = w ++ x ->
                 (exists a, w = String a "") -> False).
  { intros w x I E (a & ->). injection E as <- _. apply isspace_in in I. congruence. }
  destruct r as [|c1 r1].
  { right. split; [cbn [str_lstrip]; now rewrite S1|]. intros w x I E.
    destruct (whitespace_lengths w I) as [H|[(a & b & -> & _)|(a & b & d & -> & _)]];
      [exact (N1 w x I E H)|discriminate|discriminate]. }
  destruct (isspace (String c (String c1 ""))) eqn:S2.
  { left. exists (String c (String c1 "")), r1. apply isspace_in in S2 as I.
    split; [exact I|]. split; [reflexivity|].
    now apply (lstrip_skip (String c (String c1 "")) r1). }
  assert (N2 : forall w x, In w whitespace -> String c (String c1 r1) = w ++ x ->
                 (exists a b, w = String a (String b "")) -> False).
  { intros w x I E (a & b & ->). injection E as <- <- _. apply isspace_in in I. congruence. }
  destruct r1 as [|c2 r2].
  { right. split; [cbn [str_lstrip]; now rewrite S1, S2|]. intros w x I E.
    destruct (whitespace_lengths w I) as [H|[(a & b & -> & _)|(a & b & d & -> & _)]];
      [exact (N1 w x I E H)|apply (N2 _ x I E); eauto|discriminate]. }
  destruct (isspace (String c (String c1 (String c2 "")))) eqn:S3.
  { left. exists (String c (String c1 (String c2 ""))), r2. apply isspace_in in S3 as I.
    split; [exact I|]. split; [reflexivity|].
    now apply (lstrip_skip (String c (String c1 (String c2 ""))) r2). }
  right. split; [cbn [str_lstrip]; now rewrite S1, S2, S3|]. intros w x I E.
  destruct (whitespace_lengths w I) as [H|[(a & b & -> & _)|(a & b & d & -> & _)]].
  - exact (N1 w x I E H).
  - apply (N2 _ x I E); eauto.
  - injection E as <- <- <- _. apply isspace_in in I. congruence.
Qed.

Lemma whitespace_nonempty (w : string) : In w whitespace -> 0 < String.length w.
Proof.
  intros I.
  destruct (whitespace_lengths w I) as [(a & ->)|[(a & b & -> & _)|(a & b & d & -> & _)]];
    simpl; lia.
Qed.

(** What [str_lstrip] takes off is white space, and what it returns does
    not start with a white-space character. *)
Lemma lstrip_white (s : string) :
  (exists l, s = l ++ str_lstrip s /\ Spec.White l)
  /\ (forall w x, In w whitespace -> str_lstrip s <> w ++ x).
Proof.
  remember (String.length s) as n eqn:L.
  revert s L. induction n as [n IH] using lt_wf_ind. intros s L.
  destruct (lstrip_step s) as [(w & r & I & -> & E)|[E N]].
  - pose proof (whitespace_nonempty w I) as P.
    destruct (IH (String.length r)) with (s := r) as [(l & El & Wl) Nr];
      [rewrite L, length_append; lia|reflexivity|].
    rewrite E. split; [|exact Nr].
    exists (w ++ l). rewrite append_assoc, <- El. split; [reflexivity|].
    now constructor.
  - rewrite E. split; [|exact N]. exists "". split; [reflexivity|constructor].
Qed.

Lemma white_append (a b : string) : Spec.White a -> Spec.White b -> Spec.White (a ++ b).
Proof.
  intros A B. induction A as [|w s I A IH]; [exact B|].
  rewrite append_assoc. now constructor.
Qed.

Lemma lstrip_of_white (l s : string) : Spec.White l -> str_lstrip (l ++ s) = str_lstrip s.
Proof.
  intros W. induction W as [|w x I W IH]; [reflexivity|].
  rewrite append_assoc, lstrip_skip by exact I. exact IH.
Qed.

(** [all_space] is [White]. *)
Lemma all_space_white (s : string) : all_space s = true <-> Spec.White s.
Proof.
  unfold all_space. split.
  - intros A. destruct (lstrip_white s) as [(l & E & W) _].
    destruct (str_lstrip s); [|discriminate]. rewrite append_nil_r in E. now subst.
  - intros W. rewrite <- (append_nil_r s), lstrip_of_white by exact W. reflexivity.
Qed.

(** What [str_rstrip] takes off is white space, and what it returns does
    not end with a white-space character. *)
Lemma rstrip_white (s : string) :
  (exists t, s = str_rstrip s ++ t /\ Spec.White t)
  /\ (forall w x, In w whitespace -> str_rstrip s <> x ++ w).
Proof.
  induction s as [|c r [(t & E & W) N]].
  - split; [exists ""; split; [reflexivity|constructor]|].
    intros w x I H. pose proof (whitespace_nonempty w I) as P.
    apply (f_equal String.length) in H. rewrite length_append in H. simpl in H. lia.
  - cbn [str_rstrip]. destruct (all_space (String c r)) eqn:A.
    + split; [exists (String c r); split; [reflexivity|now apply all_space_white]|].
      intros w x I H. pose proof (whitespace_nonempty w I) as P.
      apply (f_equal String.length) in H. rewrite length_append in H. simpl in H. lia.
    + split; [exists t; split; [cbn [append]; now rewrite <- E|exact W]|].
      intros w x I H. destruct x as [|d x]; cbn [append] in H.
      * assert (Wh : Spec.White (String c r)).
        { rewrite E. change (String c (str_rstrip r ++ t))
            with (String c (str_rstrip r) ++ t). rewrite H. now constructor. }
        apply all_space_white in Wh. congruence.
      * injection H as _ H. exact (N w x I H).
Qed.

(** [str_strip] trims. *)
Lemma strip_trims (b : string) : Spec.TrimOf b (str_strip b).
Proof.
  unfold str_strip.
  destruct (lstrip_white b) as [(l & El & Wl) Nl].
  destruct (rstrip_white (str_lstrip b)) as [(t & Et & Wt) Nt].
  split; [|split].
  - exists l, t. rewrite <- Et. auto.
  - intros w x I H. apply (Nl w (x ++ t) I). rewrite Et at 1. rewrite H.
    apply append_assoc.
  - exact Nt.
Qed.

Lemma is_space_isspace (c : ascii) : is_space c = true -> In (String c "") whitespace.
Proof.
  intros S. apply isspace_in. revert S.
  destruct c as [[] [] [] [] [] [] [] []]; vm_compute; congruence.
Qed.

Lemma rstrip_of_kept (p : ascii -> bool) (y : string) :
  (forall c x, p c = true -> y <> x ++ String c "") -> rstrip_of p y = y.
Proof.
  induction y as [|a y IH]; intros N; [reflexivity|].
  cbn [rstrip_of]. rewrite IH.
  - destruct y as [|b y]; [|reflexivity].
    destruct (p a) eqn:P; [|reflexivity]. now destruct (N a "" P).
  - intros c x P E. apply (N c (String a x) P). cbn [append]. now rewrite E.
Qed.

(** What [str_strip] returns has no ASCII white space at its ends
    either. *)
Lemma strip_str_strip (x : string) : strip (str_strip x) = str_strip x.
Proof.
  destruct (strip_trims x) as (_ & Nl & Nr). unfold strip.
  assert (L : lstrip_of is_space (str_strip x) = str_strip x).
  { destruct (str_strip x) as [|c y]; [reflexivity|]. cbn [lstrip_of].
    destruct (is_space c) eqn:S; [|reflexivity].
    now destruct (Nl (String c "") y (is_space_isspace c S)). }
  rewrite L. apply rstrip_of_kept. intros c y S.
  apply (Nr (String c "") y (is_space_isspace c S)).
Qed.




End Trimming.

(** ** substitute_variables (http_client.py) *)

Section Substitution.
Import PyStr HttpClient.

Lemma replace_from_skip (p v q s : string) :
  replace_from p v (String.length q) (q ++ s) = replace_from p v 0 s.
Proof.
  induction q as [|c q IH]; simpl.
  - destruct s; reflexivity.
  - exact IH.
Qed.

(** At an occurrence the value is written and the occurrence is passed. *)
Lemma replace_from_hit (p v b : string) :
  p <> "" -> replace_from p v 0 (p ++ b) = v ++ replace_from p v 0 b.
Proof.
  intros Hp. destruct p as [|c p]; [congruence|].
  change (String c p ++ b) with (String c (p ++ b)).
  cbn [replace_from].
  change (String c (p ++ b)) with (String c p ++ b).
  rewrite prefix_append.
  cbn [String.length]. rewrite Nat.sub_0_r || replace (S (String.length p) - 1) with (String.length p) by lia.
  now rewrite replace_from_skip.
Qed.

Lemma replace_from_miss (p v : string) (c : ascii) (s : string) :
  prefix p (String c s) = false ->
  replace_from p v 0 (String c s) = String c (replace_from p v 0 s).
Proof. intros H. cbn [replace_from]. now rewrite H. Qed.

Lemma replace_from_absent (p v s : string) :
  ~ Spec.Occurs p s -> replace_from p v 0 s = s.
Proof.
  induction s as [|c s IH]; intros H; [reflexivity|].
  rewrite replace_from_miss.
  - f_equal. apply IH. intros O. apply H, occurs_tail, O.
  - destruct (prefix p (String c s)) eqn:E; [|reflexivity].
    exfalso. apply H. apply prefix_inv in E as [b ->]. exists "", b; reflexivity.
Qed.

Lemma but_last_snoc (p : string) :
  p <> "" -> exists l, p = Spec.but_last p ++ String l "".
Proof.
  induction p as [|c p IH]; intros H; [congruence|].
  destruct p as [|d p].
  - exists c; reflexivity.
  - destruct IH as [l E]; [discriminate|]. exists l.
    change (Spec.but_last (String c (String d p))) with (String c (Spec.but_last (String d p))).
    cbn [append]. f_equal. exact E.
Qed.

(** Before the first occurrence nothing changes. *)
Lemma replace_from_first (p v a b : string) :
  p <> "" -> ~ Spec.Occurs p (a ++ Spec.but_last p) ->
  replace_from p v 0 (a ++ p ++ b) = a ++ v ++ replace_from p v 0 b.
Proof.
  intros Hp. induction a as [|c a IH]; intros H.
  - simpl. apply replace_from_hit, Hp.
  - change (String c a ++ p ++ b) with (String c (a ++ p ++ b)).
    rewrite replace_from_miss.
    + simpl. f_equal. apply IH. intros O. apply H.
      apply occurs_tail with (c := c) in O. exact O.
    + destruct (prefix p (String c (a ++ p ++ b))) eqn:E; [|reflexivity].
      exfalso. apply H.
      destruct (but_last_snoc p Hp) as [l El].
      assert (L : String.length p <= String.length (String c a ++ Spec.but_last p)).
      { simpl. rewrite length_append, length_but_last. lia. }
      remember (Spec.but_last p) as q eqn:Eq. clear Eq.
      assert (P : prefix p (String c a ++ q) = true).
      { apply prefix_shorten with (y := String l b); [exact L|].
        rewrite El in E at 2. simpl in *. now rewrite !append_assoc in *. }
      apply prefix_inv in P as [y Ey]. rewrite Ey. exists "", y; reflexivity.
Qed.

(** Where [p] first occurs in [s], if it does. *)
Lemma first_occurrence (p s : string) :
  p <> "" ->
  ~ Spec.Occurs p s \/
  exists a b, s = a ++ p ++ b /\ ~ Spec.Occurs p (a ++ Spec.but_last p).
Proof.
  intros Hp. induction s as [|c s IH].
  - left. intros O. apply occurs_length in O. destruct p; simpl in O; [congruence|lia].
  - destruct (prefix p (String c s)) eqn:E.
    + right. apply prefix_inv in E as [b E]. exists "", b. split; [exact E|].
      simpl. intros O. apply occurs_length in O. rewrite length_but_last in O.
      destruct p; simpl in O; [congruence|lia].
    + destruct IH as [N | (a & b & -> & N)].
      * left. intros O. apply occurs_cons in O as [P|O]; [congruence|auto].
      * right. exists (String c a), b. split; [reflexivity|].
        intros O. simpl in O. apply occurs_cons in O as [P|O]; [|auto].
        destruct (but_last_snoc p Hp) as [l El].
        remember (Spec.but_last p) as q eqn:Eq. clear Eq.
        apply prefix_inv in P as [y Ey].
        assert (P' : prefix p (String c (a ++ p ++ b)) = true).
        { apply prefix_iff. exists (y ++ String l b).
          rewrite <- (append_assoc p y), <- Ey. rewrite El at 1.
          simpl. f_equal. now rewrite !append_assoc. }
        congruence.
Qed.

Lemma replace_from_spec (p v s : string) :
  p <> "" -> Spec.Replaced p v s (replace_from p v 0 s).
Proof.
  intros Hp.
  remember (String.length s) as n eqn:En.
  revert s En. induction n as [n IH] using lt_wf_ind. intros s En.
  destruct (first_occurrence p s Hp) as [N | (a & b & -> & N)].
  - rewrite replace_from_absent by exact N. now constructor.
  - rewrite replace_from_first by assumption.
    constructor; [exact N|].
    apply (IH (String.length b)); [|reflexivity].
    subst n. rewrite !length_append. destruct p; simpl; [congruence|lia].
Qed.

Lemma replace_spec (p v s : string) : p <> "" -> Spec.Replaced p v s (replace p v s).
Proof.
  intros Hp. destruct p; [congruence|]. apply replace_from_spec, Hp.
Qed.

Lemma replaced_unique (p v s t : string) :
  p <> "" -> Spec.Replaced p v s t -> t = replace p v s.
Proof.
  intros Hp R. destruct p as [|c p]; [congruence|]. unfold replace.
  induction R as [s N | a b b' N R IH].
  - now rewrite replace_from_absent.
  - rewrite replace_from_first by assumption. now rewrite IH.
Qed.

Lemma placeholder_nonempty (k : string) : placeholder k <> "".
Proof. unfold placeholder. simpl. discriminate. Qed.

Lemma replace_absent (p v s : string) : p <> "" -> ~ Spec.Occurs p s -> replace p v s = s.
Proof.
  intros Hp N. destruct p; [congruence|]. now apply replace_from_absent.
Qed.

Lemma substitute_variables_cons (text k v : string) (env : PyDict.dict string) :
  substitute_variables text ((k, v) :: env)
  = substitute_variables (replace (placeholder k) v text) env.
Proof. reflexivity. Qed.

Lemma substitute_variables_app (text : string) (e1 e2 : PyDict.dict string) :
  substitute_variables text (app e1 e2)
  = substitute_variables (substitute_variables text e1) e2.
Proof. unfold substitute_variables. apply fold_left_app. Qed.

(** Two ways of cutting the same text. *)
Lemma append_eq_cases (a s x t : string) :
  a ++ s = x ++ t ->
  (exists d, x = a ++ d /\ s = d ++ t) \/ (exists d, a = x ++ d /\ t = d ++ s).
Proof.
  revert x. induction a as [|c a IH]; intros x E.
  - left. exists x. auto.
  - destruct x as [|c' x].
    + right. exists (String c a). auto.
    + simpl in E. injection E as <- E. destruct (IH x E) as [(d & -> & ->)|(d & -> & ->)].
      * left. exists d. auto.
      * right. exists d. auto.
Qed.

Lemma brace_free_append (a b : string) :
  Spec.brace_free (a ++ b) = Spec.brace_free a && Spec.brace_free b.
Proof.
  unfold Spec.brace_free. rewrite !has_char_append.
  destruct (has_char "{" a), (has_char "{" b), (has_char "}" a), (has_char "}" b); reflexivity.
Qed.

Lemma brace_free_cons (c : ascii) (s : string) :
  Spec.brace_free (String c s) = true ->
  c <> "{"%char /\ c <> "}"%char /\ Spec.brace_free s = true.
Proof.
  change (String c s) with (String c "" ++ s). rewrite brace_free_append.
  intros H. apply andb_true_iff in H as [H ->]. unfold Spec.brace_free, has_char in H.
  cbn [exists_str] in H. rewrite !orb_false_r in H. apply andb_true_iff in H as [H1 H2].
  apply negb_true_iff in H1, H2. apply Ascii.eqb_neq in H1, H2. auto.
Qed.

(** Names without braces that are followed by a closing brace in the
    same text are the same name. *)
Lemma brace_free_names_agree (k n y b : string) :
  Spec.brace_free k = true -> Spec.brace_free n = true ->
  k ++ String "}" y = n ++ String "}" b -> k = n.
Proof.
  revert n. induction k as [|c k IH]; intros n Bk Bn E.
  - destruct n as [|c' n]; [reflexivity|]. simpl in E. injection E as <- _.
    apply brace_free_cons in Bn as (_ & Bn & _). congruence.
  - destruct n as [|c' n]; simpl in E.
    + injection E as -> _. apply brace_free_cons in Bk as (_ & Bk & _). congruence.
    + injection E as <- E. f_equal.
      apply IH; [| |exact E].
      * now apply brace_free_cons in Bk.
      * now apply brace_free_cons in Bn.
Qed.

Lemma brace_free_no_open (s x y : string) :
  Spec.brace_free s = true -> s ++ "}}" <> x ++ String "{" y.
Proof.
  intros B E.
  assert (H : has_char "{" (s ++ "}}") = true)
    by (rewrite E, has_char_append; simpl; apply orb_true_r).
  rewrite has_char_append in H. unfold Spec.brace_free in B.
  apply andb_true_iff in B as [B _]. apply negb_true_iff in B. rewrite B in H. discriminate.
Qed.

(** A suffix of a placeholder that starts with an opening brace is the
    placeholder itself or the placeholder without its first brace. *)
Lemma placeholder_suffix (n d e : string) :
  Spec.brace_free n = true ->
  placeholder n = d ++ String "{" e ->
  (d = "" /\ String "{" e = placeholder n)
  \/ (d = "{" /\ e = n ++ "}}").
Proof.
  intros B E. unfold placeholder in *. simpl in E.
  destruct d as [|c1 [|c2 d]]; simpl in E.
  - left. auto.
  - injection E as <- E. right. auto.
  - injection E as <- <- E. exfalso. exact (brace_free_no_open n d e B E).
Qed.

Lemma placeholders_differ (k n y b : string) :
  Spec.brace_free k = true -> Spec.brace_free n = true -> k <> n ->
  placeholder k ++ y <> placeholder n ++ b.
Proof.
  intros Bk Bn N E. unfold placeholder in E. simpl in E.
  injection E as E. apply N. rewrite !append_assoc in E. simpl in E.
  exact (brace_free_names_agree k n _ _ Bk Bn E).
Qed.

Lemma placeholder_second_open (k n y b : string) :
  Spec.brace_free k = true -> String "{" (k ++ "}}") ++ y <> placeholder n ++ b.
Proof.
  intros Bk E. unfold placeholder in E. simpl in E. injection E as E.
  destruct k as [|c k]; simpl in E; [discriminate|].
  injection E as E _. apply brace_free_cons in Bk as (Bk & _). congruence.
Qed.

(** An occurrence of a key's placeholder does not overlap the
    placeholder of another name. *)
Lemma occurs_around_placeholder (k n a b : string) :
  Spec.brace_free k = true -> Spec.brace_free n = true -> k <> n ->
  Spec.Occurs (placeholder k) (a ++ placeholder n ++ b) ->
  Spec.Occurs (placeholder k) a \/ Spec.Occurs (placeholder k) b.
Proof.
  intros Bk Bn N (x & y & E).
  destruct (append_eq_cases _ _ _ _ E) as [(d & -> & E1)|(d & -> & E1)].
  - (* the occurrence starts in the placeholder of [n] or after it *)
    destruct (append_eq_cases _ _ _ _ E1) as [(d' & -> & E2)|(d' & E2 & E3)].
    + right. exists d', y. exact E2.
    + destruct d' as [|c d'].
      * right. exists "", y. simpl in E3. now rewrite <- E3.
      * exfalso.
        assert (c = "{"%char) as -> by (unfold placeholder in E3; simpl in E3; congruence).
        destruct (placeholder_suffix n d _ Bn E2) as [[-> E4]|[-> E4]].
        -- rewrite E4 in E3. exact (placeholders_differ k n y b Bk Bn N E3).
        -- rewrite E4 in E3. symmetry in E3.
           exact (placeholder_second_open n k b y Bn E3).
  - (* the occurrence starts in [a] *)
    destruct (append_eq_cases _ _ _ _ E1) as [(d' & E2 & E3)|(d' & E2 & E3)].
    + left. exists x, d'. now rewrite E2.
    + destruct d' as [|c d'].
      * left. exists x, "". rewrite append_nil_r in E2. now rewrite <- E2, append_nil_r.
      * exfalso.
        assert (c = "{"%char) as -> by (unfold placeholder in E3; simpl in E3; congruence).
        destruct (placeholder_suffix k d _ Bk E2) as [[-> E4]|[-> E4]].
        -- rewrite E4 in E3. symmetry in E3.
           exact (placeholders_differ k n y b Bk Bn N E3).
        -- rewrite E4 in E3.
           exact (placeholder_second_open k n y b Bk (eq_sym E3)).
Qed.

(** Around the placeholder of a name that is not the key, the
    replacement of a key works on each side separately. *)
Lemma replaced_around_placeholder (k v n a a' b b' : string) :
  Spec.brace_free k = true -> Spec.brace_free n = true -> k <> n ->
  Spec.Replaced (placeholder k) v a a' ->
  Spec.Replaced (placeholder k) v b b' ->
  Spec.Replaced (placeholder k) v (a ++ placeholder n ++ b) (a' ++ placeholder n ++ b').
Proof.
  intros Bk Bn N Ra Rb.
  induction Ra as [a Na | a1 a2 a2' Na Ra IH].
  - induction Rb as [b Nb | b1 b2 b2' Nb Rb IH].
    + constructor. intros O.
      destruct (occurs_around_placeholder k n a b Bk Bn N O); contradiction.
    + replace (a ++ placeholder n ++ b1 ++ placeholder k ++ b2)
        with ((a ++ placeholder n ++ b1) ++ placeholder k ++ b2)
        by (now rewrite !append_assoc).
      replace (a ++ placeholder n ++ b1 ++ v ++ b2')
        with ((a ++ placeholder n ++ b1) ++ v ++ b2')
        by (now rewrite !append_assoc).
      constructor; [|exact Rb].
      rewrite !append_assoc. intros O.
      destruct (occurs_around_placeholder k n a _ Bk Bn N O); contradiction.
  - rewrite !append_assoc. constructor; [exact Na|]. rewrite <- !append_assoc.
    rewrite <- !append_assoc in IH. exact IH.
Qed.

Lemma replace_around_placeholder (k v n a b : string) :
  Spec.brace_free k = true -> Spec.brace_free n = true -> k <> n ->
  replace (placeholder k) v (a ++ placeholder n ++ b)
  = replace (placeholder k) v a ++ placeholder n ++ replace (placeholder k) v b.
Proof.
  intros Bk Bn N. symmetry. apply replaced_unique; [apply placeholder_nonempty|].
  apply replaced_around_placeholder; auto; apply replace_spec, placeholder_nonempty.
Qed.

(** A placeholder whose name is not a variable stays where it is. *)
Lemma substitute_variables_around_placeholder (env : PyDict.dict string) :
  forall n a b,
    (forall k, In k (PyDict.keys env) -> Spec.brace_free k = true) ->
    Spec.brace_free n = true -> ~ In n (PyDict.keys env) ->
    substitute_variables (a ++ placeholder n ++ b) env
    = substitute_variables a env ++ placeholder n ++ substitute_variables b env.
Proof.
  induction env as [|[k v] env IH]; intros n a b K Bn NI; [reflexivity|].
  rewrite !substitute_variables_cons.
  rewrite replace_around_placeholder.
  - apply IH; auto.
    + intros k' I. apply K. now right.
    + intros I. apply NI. now right.
  - apply K. now left.
  - exact Bn.
  - intros ->. apply NI. now left.
Qed.

(** C3 as stated fails.  The replacements are made one key after the
    other, each in the text that the keys before it produced, and a key
    may hold braces.  So the placeholder of a name that is not a key is
    not left verbatim when a key's placeholder reaches over it, and an
    occurrence is not left replaced with its key's value when that value
    holds the placeholder of a later key: the value is substituted in
    turn, and whether it is depends on the order of the map. *)
Lemma substitute_variables_overlap_and_resubstitution :
  ~ In "missing" (PyDict.keys [("x}}{{missing", "v")])
  /\ substitute_variables "{{x}}{{missing}}" [("x}}{{missing", "v")] = "v"
  /\ substitute_variables "{{a}}" [("a", "{{b}}"); ("b", "x")] = "x"
  /\ substitute_variables "{{a}}" [("b", "x"); ("a", "{{b}}")] = "{{b}}".
Proof.
  split; [|repeat split]. simpl. intros [H|[]]. discriminate H.
Qed.

(** C3, as the code has it.  For every text and every variable map,
    [substitute_variables] takes the keys in the map's order and replaces,
    for each key [k], every literal occurrence of the placeholder of [k]
    (two opening braces, [k], two closing braces: a comparison of
    characters, so no character of a key is special) in the text produced
    so far with the value of [k]; its result is the one text that these
    replacements determine.  A text in which no key's placeholder occurs
    comes back verbatim, and so does, wherever it stands, the placeholder
    of a name that is not a key, when the name and the keys are free of
    braces.  The function is total: no error is raised. *)
Theorem substitute_variables_replaces_keys_in_order :
  forall (text : string) (env_vars : PyDict.dict string),
    (forall t, Spec.Substituted env_vars text t <-> t = substitute_variables text env_vars)
    /\ ((forall k, In k (PyDict.keys env_vars) -> ~ Spec.Occurs (placeholder k) text) ->
        substitute_variables text env_vars = text)
    /\ (forall name before after,
          text = before ++ placeholder name ++ after ->
          (forall k, In k (PyDict.keys env_vars) -> Spec.brace_free k = true) ->
          Spec.brace_free name = true -> ~ In name (PyDict.keys env_vars) ->
          substitute_variables text env_vars
          = substitute_variables before env_vars ++ placeholder name
            ++ substitute_variables after env_vars).
Proof.
  intros text env. split; [|split].
  - intros t. split.
    + intros S. induction S as [s | k v env s s' t R S IH]; [reflexivity|].
      rewrite substitute_variables_cons.
      apply replaced_unique in R; [|apply placeholder_nonempty]. now subst s'.
    + intros ->. revert text. induction env as [|[k v] env IH]; intros text.
      * constructor.
      * rewrite substitute_variables_cons. econstructor.
        -- apply replace_spec, placeholder_nonempty.
        -- apply IH.
  - revert text. induction env as [|[k v] env IH]; intros text H; [reflexivity|].
    rewrite substitute_variables_cons.
    rewrite replace_absent.
    + apply IH. intros k' Hk'. apply H. right; exact Hk'.
    + apply placeholder_nonempty.
    + apply H. left; reflexivity.
  - intros name before after ->. apply substitute_variables_around_placeholder.
Qed.

(** The examples of the specification, and a key with a character that
    a regular expression would read as a wildcard. *)
Example substitute_variables_examples :
  substitute_variables "{{a}}-{{b}}" [("a", "1"); ("b", "2")] = "1-2"
  /\ substitute_variables "{{missing}}" [] = "{{missing}}"
  /\ substitute_variables "{{a.b}} {{aXb}} {{missing}}" [("a.b", "1")]
     = "1 {{aXb}} {{missing}}".
Proof. repeat split. Qed.

End Substitution.

(** ** Dictionaries *)

Section DictFacts.
Context {V : Type}.
Implicit Types (d : PyDict.dict V) (k : string) (v : V).

Lemma get_set_same k v d : PyDict.get k (PyDict.set k v d) = Some v.
Proof.
  induction d as [|[k' v'] d IH]; simpl.
  - now rewrite String.eqb_refl.
  - destruct (String.eqb k' k) eqn:E; simpl; rewrite E; auto.
Qed.

Lemma get_set_other k k' v d :
  k <> k' -> PyDict.get k' (PyDict.set k v d) = PyDict.get k' d.
Proof.
  intros N. induction d as [|[k0 v0] d IH]; simpl.
  - destruct (String.eqb_spec k k'); [contradiction|reflexivity].
  - destruct (String.eqb_spec k0 k); simpl.
    + subst. destruct (String.eqb_spec k k'); [contradiction|reflexivity].
    + now rewrite IH.
Qed.

Lemma get_none_keys k d : PyDict.get k d = None <-> ~ In k (PyDict.keys d).
Proof.
  induction d as [|[k0 v0] d IH]; simpl; [tauto|].
  destruct (String.eqb_spec k0 k); [subst|].
  - split; [discriminate|]. intros H; exfalso; apply H; now left.
  - rewrite IH. tauto.
Qed.

Lemma keys_set k v d :
  PyDict.keys (PyDict.set k v d)
  = if PyDict.mem k d then PyDict.keys d else app (PyDict.keys d) [k].
Proof.
  unfold PyDict.mem. induction d as [|[k0 v0] d IH]; simpl; [reflexivity|].
  destruct (String.eqb_spec k0 k); simpl; [reflexivity|].
  rewrite IH. destruct (PyDict.get k d); reflexivity.
Qed.

Lemma nodup_keys_set k v d :
  NoDup (PyDict.keys d) -> NoDup (PyDict.keys (PyDict.set k v d)).
Proof.
  intros N. rewrite keys_set. unfold PyDict.mem.
  destruct (PyDict.get k d) eqn:E; [exact N|].
  apply get_none_keys in E.
  apply NoDup_app; auto.
  - repeat constructor; simpl; tauto.
  - intros x Hx [<-|[]]. contradiction.
Qed.

End DictFacts.

(** ** build_url (http_client.py) *)

Section BuildUrl.
Import PyStr Urllib HttpClient.

Lemma nodup_keys_parse_qs (qs : string) : NoDup (PyDict.keys (parse_qs qs)).
Proof.
  unfold parse_qs.
  assert (G : forall l (d : PyDict.dict (list string)),
             NoDup (PyDict.keys d) ->
             NoDup (PyDict.keys (fold_left (fun d '(name, value) =>
               match PyDict.get name d with
               | Some vs => PyDict.set name (vs ++ [value])%list d
               | None => PyDict.set name [value] d
               end) l d))).
  { induction l as [|[n v] l IH]; intros d N; simpl; [exact N|].
    apply IH. destruct (PyDict.get n d); now apply nodup_keys_set. }
  apply G. constructor.
Qed.

Lemma merge_params_cons f p ps d :
  merge_params f (p :: ps) d
  = merge_params f ps (if Spec.mergeable p then PyDict.set (kv_key p) [f (kv_value p)] d else d).
Proof. reflexivity. Qed.

Lemma nodup_keys_merge_params f ps d :
  NoDup (PyDict.keys d) -> NoDup (PyDict.keys (merge_params f ps d)).
Proof.
  revert d. induction ps as [|p ps IH]; intros d N; [exact N|].
  rewrite merge_params_cons. apply IH.
  destruct (Spec.mergeable p); [now apply nodup_keys_set | exact N].
Qed.

(** What the merged dictionary holds under a key. *)
Lemma get_merge_params f ps d k :
  PyDict.get k (merge_params f ps d)
  = match Spec.last_with_key k ps with
    | Some p => Some [f (kv_value p)]
    | None => PyDict.get k d
    end.
Proof.
  revert d. induction ps as [|p ps IH]; intros d; [reflexivity|].
  rewrite merge_params_cons, IH. simpl.
  destruct (Spec.last_with_key k ps); [reflexivity|].
  destruct (Spec.mergeable p); simpl; [|reflexivity].
  destruct (String.eqb_spec (kv_key p) k).
  - subst. apply get_set_same.
  - now apply get_set_other.
Qed.













End BuildUrl.

(** ** load_environments (persistence.py) *)

Section Environments.
Import Persistence.

Lemma keys_load_entries members envs :
  load_entries members = Some envs -> PyDict.keys envs = PyDict.keys members.
Proof.
  revert envs. induction members as [|[name data] members IH]; intros envs; simpl.
  - now intros [= <-].
  - destruct (Environment_from_dict data); [|discriminate].
    destruct (load_entries members) as [r|]; [|discriminate].
    intros [= <-]. simpl. f_equal. now apply IH.
Qed.

(** C8 as stated fails: an environments file that holds an object
    without the key Default (here the empty object, and one with a single
    other environment) is loaded as it is. *)
Lemma load_environments_without_default :
  fst (load_environments (mkDisk (Present (Some (JObject []))) true)) = []
  /\ PyDict.mem "Default"
       (fst (load_environments
               (mkDisk (Present (Some (JObject [("Prod", JObject [("name", JString "Prod");
                                                                   ("variables", JObject [])])])))
                       true))) = false.
Proof. split; reflexivity. Qed.

(** C8, as the code has it.  [load_environments] returns the single
    environment Default when the file is absent (and then writes it, if
    the file can be written) and when the file cannot be read as an object
    of environment objects; a file that can is returned key for key.  The
    start-up code that calls it adds Default when the loaded collection
    lacks it, so the collection that the application holds always has
    it. *)
Theorem default_environment_after_startup :
  forall d : disk,
    (environments_file d = Absent ->
       fst (load_environments d) = [("Default", default_env)]
       /\ (writable d = true ->
           environments_file (snd (load_environments d))
           = Present (Some (JObject [("Default", Environment_to_dict default_env)]))))
    /\ (forall members envs,
          environments_file d = Present (Some (JObject members)) ->
          load_entries members = Some envs ->
          fst (load_environments d) = envs /\ PyDict.keys envs = PyDict.keys members)
    /\ (fst (load_environments d) = [("Default", default_env)]
        \/ exists members, environments_file d = Present (Some (JObject members))
                           /\ load_entries members = Some (fst (load_environments d)))
    /\ PyDict.mem "Default" (fst (create_main_window_environments d)) = true.
Proof.
  intros [f w]. split; [|split; [|split]].
  - simpl. intros ->. split; [reflexivity|]. intros ->. reflexivity.
  - simpl. intros members envs -> L. unfold load_environments. simpl. rewrite L.
    split; [reflexivity|]. now apply keys_load_entries.
  - unfold load_environments. simpl.
    destruct f as [|[[]|]]; auto.
    destruct (load_entries members) eqn:L; auto.
    right. exists members. auto.
  - unfold create_main_window_environments.
    destruct (load_environments (mkDisk f w)) as [envs d'].
    destruct (PyDict.mem "Default" envs) eqn:M; simpl; [exact M|].
    unfold PyDict.mem. now rewrite get_set_same.
Qed.

End Environments.

(** ** parse_curl_command (curl_import.py) *)

Section Importer.
Import PyStr Urllib CurlImport.

Lemma list_ind2 {A} (P : list A -> Prop) :
  P [] -> (forall t, P [t]) ->
  (forall t a rest, P rest -> P (a :: rest) -> P (t :: a :: rest)) ->
  forall l, P l.
Proof.
  intros H0 H1 H2 l.
  assert (G : P l /\ forall t, P (t :: l)); [|apply G].
  induction l as [|a l [IH1 IH2]]; split; auto.
Qed.

(** One turn of the loop. *)
Lemma scan_cons v token rest :
  scan v (token :: rest) =
      if is_flag ["-X"; "--request"] token then
        match rest with
        | arg :: rest' => scan (set_method (upper arg) v) rest'
        | [] => v
        end
      else if is_flag ["-H"; "--header"] token then
        match rest with
        | arg :: rest' => scan (scan_header arg v) rest'
        | [] => v
        end
      else if is_flag ["-d"; "--data"] token then
        match rest with
        | arg :: rest' => scan (set_data arg v) rest'
        | [] => v
        end
      else if token =? "--data-raw" then
        match rest with
        | arg :: rest' => scan (set_data_raw arg v) rest'
        | [] => v
        end
      else if token =? "--data-binary" then
        match rest with
        | arg :: rest' => scan (set_data_binary arg v) rest'
        | [] => v
        end
      else if is_flag ["-F"; "--form"] token then
        match rest with
        | arg :: rest' => scan (add_form arg v) rest'
        | [] => v
        end
      else if is_flag ["-u"; "--user"] token then
        match rest with
        | arg :: rest' => scan (scan_user arg v) rest'
        | [] => v
        end
      else if startswith "--proxy" token then
        match rest with
        | _ :: rest' => scan v rest'
        | [] => v
        end
      else if startswith "-" token || startswith "--" token then scan v rest
      else if negb (truthy (v_url v)) then scan (set_url token v) rest
      else scan v rest.
Proof. reflexivity. Qed.

Ltac scan_cases :=
  rewrite scan_cons; cbv beta iota;
  repeat match goal with
         | |- context [if ?b then _ else _] => destruct b eqn:?
         end.

Lemma v_url_scan_header a v : v_url (scan_header a v) = v_url v.
Proof.
  unfold scan_header. destruct (split_first ":" a) as [[k x]|]; [|reflexivity].
  destruct (_ && _); reflexivity.
Qed.

Lemma v_url_scan_user a v : v_url (scan_user a v) = v_url v.
Proof. unfold scan_user. destruct (split_first ":" a) as [[k x]|]; reflexivity. Qed.

(** Once a URL is held, no later token replaces it. *)
Lemma scan_keeps_url tokens :
  forall v, truthy (v_url v) = true -> v_url (scan v tokens) = v_url v.
Proof.
  induction tokens as [|t|t a rest IH1 IH2] using list_ind2; intros v T.
  - reflexivity.
  - scan_cases; first [reflexivity | rewrite T in *; discriminate].
  - scan_cases;
      first [ rewrite T in *; discriminate
            | now apply IH2
            | rewrite IH1 by (cbn [v_url set_method set_data set_data_raw set_data_binary add_form];
                              rewrite ?v_url_scan_header, ?v_url_scan_user; exact T);
              rewrite ?v_url_scan_header, ?v_url_scan_user; reflexivity ].
Qed.

Lemma takes_argument_eq t :
  Spec.takes_argument t
  = is_flag ["-X"; "--request"] t || (is_flag ["-H"; "--header"] t
    || (is_flag ["-d"; "--data"] t || ((t =? "--data-raw") || ((t =? "--data-binary")
    || (is_flag ["-F"; "--form"] t || (is_flag ["-u"; "--user"] t
    || startswith "--proxy" t)))))).
Proof.
  unfold Spec.takes_argument, is_flag. cbn [existsb].
  rewrite !orb_false_r, <- !orb_assoc. reflexivity.
Qed.

Lemma url_token_cons token rest :
  Spec.url_token (token :: rest) =
      if Spec.takes_argument token then
        match rest with
        | _ :: rest' => Spec.url_token rest'
        | [] => None
        end
      else if startswith "-" token then Spec.url_token rest
      else if nonempty token then Some token
      else Spec.url_token rest.
Proof. reflexivity. Qed.

Lemma starts_dash t : startswith "-" t || startswith "--" t = startswith "-" t.
Proof.
  destruct (startswith "-" t) eqn:E; [reflexivity|]. simpl.
  destruct (startswith "--" t) eqn:F; [|reflexivity].
  apply prefix_inv in F as [b ->]. simpl in E. discriminate.
Qed.

Ltac split_flag c := destruct c eqn:?; cbn [orb]; cbv beta iota.

(** The URL that the loop ends with is the URL token. *)
Lemma scan_finds_url_token tokens :
  forall v, truthy (v_url v) = false ->
    match Spec.url_token tokens with
    | Some u => v_url (scan v tokens) = Some u
    | None => truthy (v_url (scan v tokens)) = false
    end.
Proof.
  induction tokens as [|t|t a rest IH1 IH2] using list_ind2; intros v T.
  - exact T.
  - rewrite url_token_cons, takes_argument_eq, scan_cons, starts_dash. cbv beta iota.
    split_flag (is_flag ["-X"; "--request"] t); [exact T|].
    split_flag (is_flag ["-H"; "--header"] t); [exact T|].
    split_flag (is_flag ["-d"; "--data"] t); [exact T|].
    split_flag (t =? "--data-raw"); [exact T|].
    split_flag (t =? "--data-binary"); [exact T|].
    split_flag (is_flag ["-F"; "--form"] t); [exact T|].
    split_flag (is_flag ["-u"; "--user"] t); [exact T|].
    split_flag (startswith "--proxy" t); [exact T|].
    split_flag (startswith "-" t); [exact T|].
    rewrite T. cbn [negb scan Spec.url_token]. destruct (nonempty t) eqn:N; [reflexivity|exact N].
  - rewrite url_token_cons, takes_argument_eq, scan_cons, starts_dash. cbv beta iota.
    split_flag (is_flag ["-X"; "--request"] t); [now apply IH1|].
    split_flag (is_flag ["-H"; "--header"] t); [apply IH1; now rewrite v_url_scan_header|].
    split_flag (is_flag ["-d"; "--data"] t); [now apply IH1|].
    split_flag (t =? "--data-raw"); [now apply IH1|].
    split_flag (t =? "--data-binary"); [now apply IH1|].
    split_flag (is_flag ["-F"; "--form"] t); [now apply IH1|].
    split_flag (is_flag ["-u"; "--user"] t); [apply IH1; now rewrite v_url_scan_user|].
    split_flag (startswith "--proxy" t); [now apply IH1|].
    split_flag (startswith "-" t); [now apply IH2|].
    rewrite T. cbn [negb]. destruct (nonempty t) eqn:N.
    + rewrite scan_keeps_url; [reflexivity | exact N].
    + apply IH2. exact N.
Qed.

Lemma url_token_nonempty tokens :
  forall u, Spec.url_token tokens = Some u -> nonempty u = true.
Proof.
  induction tokens as [|t|t a rest IH1 IH2] using list_ind2; intros u;
    rewrite ?url_token_cons; cbv beta iota; try discriminate.
  - destruct (Spec.takes_argument t); [discriminate|].
    destruct (startswith "-" t); [discriminate|].
    destruct (nonempty t) eqn:N; [|discriminate]. now intros [= <-].
  - destruct (Spec.takes_argument t); [apply IH1|].
    destruct (startswith "-" t); [apply IH2|].
    destruct (nonempty t) eqn:N; [|apply IH2]. now intros [= <-].
Qed.

(** What [parse_curl_command] returns once the loop has found a URL. *)
Lemma parse_curl_command_found lib curl u :
  Spec.url_token (tokenize (strip_curl_prefix curl)) = Some u ->
  parse_curl_command lib curl =
    let v := scan initial_vars (tokenize (strip_curl_prefix curl)) in
    match urlparse lib u with
    | None => Error Raised_by_urlparse
    | Some parsed =>
        Ok (mkRequest
              (match HttpMethod_of (v_method v) with Some m => m | None => GET end)
              u
              (map (fun kv => mkKV true (fst kv) (snd kv)) (flatten (parse_qs (query parsed))))
              (map (fun kv => mkKV true (fst kv) (snd kv)) (v_headers v))
              (b_body_type (set_body v)) (b_raw_body_type (set_body v))
              (b_raw_body (set_body v)) (b_form_data (set_body v))
              (b_multipart_data (set_body v)) (set_auth v) "Default")
    end.
Proof.
  intros U. unfold parse_curl_command.
  pose proof (scan_finds_url_token (tokenize (strip_curl_prefix curl)) initial_vars eq_refl) as F.
  rewrite U in F. pose proof (url_token_nonempty _ _ U) as N.
  destruct (tokenize (strip_curl_prefix curl)) as [|t ts] eqn:Tk; [discriminate|].
  rewrite F. destruct u as [|c0 u0]; [discriminate|]. reflexivity.
Qed.

Lemma parse_curl_command_not_found lib curl :
  Spec.url_token (tokenize (strip_curl_prefix curl)) = None ->
  parse_curl_command lib curl = Error Empty_cURL_command
  \/ parse_curl_command lib curl = Error No_URL_found.
Proof.
  intros U. unfold parse_curl_command.
  pose proof (scan_finds_url_token (tokenize (strip_curl_prefix curl)) initial_vars eq_refl) as F.
  rewrite U in F.
  destruct (tokenize (strip_curl_prefix curl)) as [|t ts]; [now left|]. right.
  destruct (v_url (scan initial_vars (t :: ts))) as [[|c0 u0]|]; try reflexivity.
  discriminate.
Qed.




(** What a successful import holds, field by field. *)
Lemma parse_curl_command_ok lib curl r :
  parse_curl_command lib curl = Ok r ->
  let v := scan initial_vars (tokenize (strip_curl_prefix curl)) in
  Spec.url_token (tokenize (strip_curl_prefix curl)) = Some (url r)
  /\ method r = match HttpMethod_of (v_method v) with Some m => m | None => GET end
  /\ headers r = map (fun kv => mkKV true (fst kv) (snd kv)) (v_headers v)
  /\ body_type r = b_body_type (set_body v)
  /\ raw_body_type r = b_raw_body_type (set_body v)
  /\ raw_body r = b_raw_body (set_body v)
  /\ form_data r = b_form_data (set_body v)
  /\ multipart_data r = b_multipart_data (set_body v)
  /\ auth r = set_auth v.
Proof.
  intros P v.
  destruct (Spec.url_token (tokenize (strip_curl_prefix curl))) as [u|] eqn:U.
  - rewrite (parse_curl_command_found lib curl u U) in P. cbv zeta in P.
    destruct (urlparse lib u); [|discriminate]. injection P as <-. repeat split.
  - destruct (parse_curl_command_not_found lib curl U) as [E|E]; congruence.
Qed.

Lemma v_data_scan_header a v : v_data (scan_header a v) = v_data v
  /\ v_data_raw (scan_header a v) = v_data_raw v
  /\ v_data_binary (scan_header a v) = v_data_binary v.
Proof.
  unfold scan_header. destruct (split_first ":" a) as [[k x]|]; [|auto].
  destruct (_ && _); auto.
Qed.

Lemma v_data_scan_user a v : v_data (scan_user a v) = v_data v
  /\ v_data_raw (scan_user a v) = v_data_raw v
  /\ v_data_binary (scan_user a v) = v_data_binary v.
Proof. unfold scan_user. destruct (split_first ":" a) as [[k x]|]; auto. Qed.

Ltac slot_kept IH1 IH2 F1 F2 proj_header proj_user :=
  first [ congruence
        | now apply IH2
        | rewrite IH2 by exact F1; reflexivity
        | rewrite IH1 by exact F2; first [reflexivity | apply proj_header | apply proj_user] ].

(** A slot keeps its value while no flag of the slot is met. *)
Lemma scan_keeps_data tokens :
  forall v, Forall (fun t => is_flag ["-d"; "--data"] t = false) tokens ->
            v_data (scan v tokens) = v_data v.
Proof.
  induction tokens as [|t|t a rest IH1 IH2] using list_ind2; intros v F.
  - reflexivity.
  - scan_cases; reflexivity.
  - inversion F as [|? ? Ft F1]; subst. inversion F1 as [|? ? Fa F2]; subst.
    scan_cases;
      slot_kept IH1 IH2 F1 F2 (proj1 (v_data_scan_header a v)) (proj1 (v_data_scan_user a v)).
Qed.

Lemma scan_keeps_data_raw tokens :
  forall v, Forall (fun t => (t =? "--data-raw") = false) tokens ->
            v_data_raw (scan v tokens) = v_data_raw v.
Proof.
  induction tokens as [|t|t a rest IH1 IH2] using list_ind2; intros v F.
  - reflexivity.
  - scan_cases; reflexivity.
  - inversion F as [|? ? Ft F1]; subst. inversion F1 as [|? ? Fa F2]; subst.
    scan_cases;
      slot_kept IH1 IH2 F1 F2 (proj1 (proj2 (v_data_scan_header a v)))
                (proj1 (proj2 (v_data_scan_user a v))).
Qed.

Lemma scan_keeps_data_binary tokens :
  forall v, Forall (fun t => (t =? "--data-binary") = false) tokens ->
            v_data_binary (scan v tokens) = v_data_binary v.
Proof.
  induction tokens as [|t|t a rest IH1 IH2] using list_ind2; intros v F.
  - reflexivity.
  - scan_cases; reflexivity.
  - inversion F as [|? ? Ft F1]; subst. inversion F1 as [|? ? Fa F2]; subst.
    scan_cases;
      slot_kept IH1 IH2 F1 F2 (proj2 (proj2 (v_data_scan_header a v)))
                (proj2 (proj2 (v_data_scan_user a v))).
Qed.

(** C4, as the code has it.  Each of -d/--data, --data-raw and
    --data-binary writes its argument into its own variable and leaves the
    other two alone; a later occurrence of the same flag overwrites the
    variable, so the value kept is the one of the last occurrence; and the
    body content is the first non-empty one of data_raw, data_binary and
    data, in that order. *)
Theorem data_slots_keep_the_last_value :
  forall (v : scan_vars) (arg : string) (rest : list string),
    (scan v ("-d" :: arg :: rest) = scan (set_data arg v) rest
     /\ scan v ("--data" :: arg :: rest) = scan (set_data arg v) rest
     /\ scan v ("--data-raw" :: arg :: rest) = scan (set_data_raw arg v) rest
     /\ scan v ("--data-binary" :: arg :: rest) = scan (set_data_binary arg v) rest)
    /\ (v_data_raw (set_data arg v) = v_data_raw v
        /\ v_data_binary (set_data arg v) = v_data_binary v
        /\ v_data (set_data_raw arg v) = v_data v
        /\ v_data_binary (set_data_raw arg v) = v_data_binary v
        /\ v_data (set_data_binary arg v) = v_data v
        /\ v_data_raw (set_data_binary arg v) = v_data_raw v)
    /\ (Forall (fun t => is_flag ["-d"; "--data"] t = false) rest ->
        v_data (scan v ("-d" :: arg :: rest)) = Some arg
        /\ v_data (scan v ("--data" :: arg :: rest)) = Some arg)
    /\ (Forall (fun t => (t =? "--data-raw") = false) rest ->
        v_data_raw (scan v ("--data-raw" :: arg :: rest)) = Some arg)
    /\ (Forall (fun t => (t =? "--data-binary") = false) rest ->
        v_data_binary (scan v ("--data-binary" :: arg :: rest)) = Some arg)
    /\ body_content v
       = if truthy (v_data_raw v) then v_data_raw v
         else if truthy (v_data_binary v) then v_data_binary v
         else v_data v.
Proof.
  intros v arg rest.
  assert (S : scan v ("-d" :: arg :: rest) = scan (set_data arg v) rest
     /\ scan v ("--data" :: arg :: rest) = scan (set_data arg v) rest
     /\ scan v ("--data-raw" :: arg :: rest) = scan (set_data_raw arg v) rest
     /\ scan v ("--data-binary" :: arg :: rest) = scan (set_data_binary arg v) rest)
    by (repeat split; reflexivity).
  destruct S as (S1 & S2 & S3 & S4).
  split; [auto|]. split; [repeat split|].
  split; [|split; [|split]].
  - intros F. rewrite S1, S2, scan_keeps_data by exact F. auto.
  - intros F. rewrite S3, scan_keeps_data_raw by exact F. reflexivity.
  - intros F. rewrite S4, scan_keeps_data_binary by exact F. reflexivity.
  - unfold body_content, py_or. destruct (truthy (v_data_raw v)) eqn:R.
    + now rewrite R.
    + destruct (truthy (v_data_binary v)) eqn:B; cbv beta iota; rewrite ?B; reflexivity.
Qed.

(** C4 as stated fails: with the same flag twice, the value kept is the
    one found last. *)
Lemma repeated_data_flag_keeps_the_last :
  exists r, parse_curl_command Spec.permissive "curl http://x.test -d first -d second" = Ok r
            /\ body_type r = RAW /\ raw_body r = "second".
Proof. eexists. repeat split. Qed.

Lemma split_first_spec c s x y :
  split_first c s = Some (x, y) <-> s = x ++ String c y /\ has_char c x = false.
Proof.
  unfold has_char. revert x. induction s as [|a s IH]; intros x; simpl.
  - split; [discriminate|]. intros [E _]. destruct x; discriminate.
  - destruct (Ascii.eqb_spec a c) as [->|N].
    + split.
      * intros [= <- <-]. auto.
      * intros [E H]. destruct x as [|b x]; simpl in *.
        -- now injection E as ->.
        -- injection E as <- _. rewrite Ascii.eqb_refl in H. discriminate.
    + destruct (split_first c s) as [[x' y']|] eqn:S.
      * split.
        -- intros [= <- <-]. destruct (proj1 (IH x') eq_refl) as [-> H]. simpl.
           split; [reflexivity|]. rewrite H, orb_false_r. apply Ascii.eqb_neq. congruence.
        -- intros [E H]. destruct x as [|b x]; simpl in *.
           ++ injection E as -> _. congruence.
           ++ injection E as <- E. apply orb_false_iff in H as [_ H].
              pose proof (proj2 (IH x) (conj E H)) as Q. injection Q as -> ->. reflexivity.
      * split; [discriminate|]. intros [E H]. destruct x as [|b x]; simpl in *.
        -- injection E as -> _. congruence.
        -- injection E as <- E. apply orb_false_iff in H as [_ H].
           pose proof (proj2 (IH x) (conj E H)). discriminate.
Qed.



Lemma split_char_pieces c s : Forall (fun x => has_char c x = false) (split_char c s).
Proof.
  unfold has_char. induction s as [|a s IH]; simpl.
  - repeat constructor.
  - destruct (Ascii.eqb_spec a c) as [->|N].
    + constructor; [reflexivity|exact IH].
    + destruct (split_char c s) as [|x xs].
      * repeat constructor. simpl. rewrite orb_false_r. apply Ascii.eqb_neq. congruence.
      * inversion IH; subst. constructor; [|assumption]. simpl.
        apply orb_false_iff. split; [apply Ascii.eqb_neq; congruence|assumption].
Qed.






End Importer.

(** ** shlex: what [split] reads back from [quote] *)

Section ShlexFacts.
Import PyStr Shlex.

Lemma run_app (l : lexer) (a b : string) : run l (a ++ b) = run (run l a) b.
Proof. revert l. induction a as [|c a IH]; intros l; simpl; auto. Qed.

Lemma safe_char_plain (c : ascii) :
  is_safe c = true ->
  is_whitespace c = false /\ is_quote c = false /\ Ascii.eqb c backslash = false
  /\ is_space c = false.
Proof.
  destruct c as [[] [] [] [] [] [] [] []]; vm_compute; intros H;
    first [discriminate H | repeat split].
Qed.

(** A safe character met in white space or in a word goes to the word. *)
Lemma step_safe (l : lexer) (c : ascii) :
  is_safe c = true -> token l = "" \/ state l = InWord ->
  state l = InWhite \/ state l = InWord ->
  step l c = mkLexer InWord (token l ++ String c "") (quoted l) (emitted l).
Proof.
  intros S T St. destruct (safe_char_plain c S) as (W & Q & B & _).
  destruct l as [st tok q em]. cbn [state token quoted emitted] in *.
  unfold step. cbn [state token quoted emitted].
  destruct St as [-> | ->]; rewrite W, Q, B.
  - destruct T as [-> | E]; [reflexivity | discriminate].
  - reflexivity.
Qed.

Lemma run_safe (s : string) :
  forall l, forall_str is_safe s = true -> state l = InWord ->
            run l s = mkLexer InWord (token l ++ s) (quoted l) (emitted l).
Proof.
  induction s as [|c s IH]; intros l S St; simpl.
  - rewrite append_nil_r. destruct l; simpl in *; now subst.
  - simpl in S. apply andb_true_iff in S as [Sc Ss].
    rewrite step_safe by auto. rewrite IH by auto. simpl.
    now rewrite append_assoc.
Qed.

(** [s.replace(q, v)] for a one-character [q], character by character. *)
Lemma replace_char (q : ascii) (v : string) (c : ascii) (s : string) :
  replace (String q "") v (String c s)
  = (if Ascii.eqb c q then v else String c "") ++ replace (String q "") v s.
Proof.
  unfold replace. cbn [replace_from prefix String.length Nat.sub].
  destruct (ascii_dec q c) as [->|N].
  - rewrite Ascii.eqb_refl. destruct s; reflexivity.
  - destruct (Ascii.eqb_spec c q); [congruence|reflexivity].
Qed.

(** Inside single quotes the escaped body is read back as the text. *)
Lemma run_quoted_body (s : string) :
  forall l, state l = InQuote squote ->
            run l (Spec.quoted_body s ++ String squote "")
            = mkLexer InWord (token l ++ s) true (emitted l).
Proof.
  unfold Spec.quoted_body.
  induction s as [|c s IH]; intros [st tok q em] St; simpl in St; subst st.
  - simpl. now rewrite append_nil_r.
  - rewrite replace_char. destruct (Ascii.eqb_spec c squote) as [->|N].
    + rewrite append_assoc, run_app.
      change (run (mkLexer (InQuote squote) tok q em) quote_escape)
        with (mkLexer (InQuote squote) (tok ++ String squote "") true em).
      rewrite IH by reflexivity. simpl. now rewrite append_assoc.
    + cbn [append run]. unfold step at 1. cbn [state].
      destruct (Ascii.eqb_spec c squote); [contradiction|].
      replace (Ascii.eqb squote dquote) with false by reflexivity.
      rewrite andb_false_r. unfold add. cbn [token emitted].
      rewrite IH by reflexivity. simpl. now rewrite append_assoc.
Qed.

(** From white space, [quote s] is read as the word [s]; the word is
    marked as quoted when it was written between quotes, which is the case
    of the empty word. *)
Lemma run_quote (s : string) (em : list string) :
  exists q, run (mkLexer InWhite "" false em) (quote s) = mkLexer InWord s q em
            /\ nonempty s || q = true.
Proof.
  unfold quote. destruct s as [|c s].
  - exists true. split; reflexivity.
  - cbn [nonempty negb]. destruct (forall_str is_safe (String c s)) eqn:S.
    + exists false. split; [|reflexivity].
      simpl in S. apply andb_true_iff in S as [Sc Ss].
      cbn [run]. rewrite step_safe by auto. rewrite run_safe by auto. reflexivity.
    + exists true. split; [|reflexivity].
      cbn [run]. change (step (mkLexer InWhite "" false em) squote)
        with (mkLexer (InQuote squote) "" false em).
      apply (run_quoted_body (String c s) (mkLexer (InQuote squote) "" false em) eq_refl).
Qed.

Lemma finish_join_quote (ts : list string) :
  forall t em,
    finish (run (mkLexer InWhite "" false em) (join " " (map quote (t :: ts))))
    = Some (app em (t :: ts)).
Proof.
  unfold join. induction ts as [|t' ts IH]; intros t em.
  - cbn [map String.concat].
    destruct (run_quote t em) as (q & -> & Q).
    unfold finish, emit. cbn [state token quoted emitted]. now rewrite Q.
  - change (String.concat " " (map quote (t :: t' :: ts)))
      with (quote t ++ " " ++ String.concat " " (map quote (t' :: ts))).
    rewrite run_app. destruct (run_quote t em) as (q & -> & Q).
    cbn [append run]. unfold step at 1. cbn [state].
    replace (is_whitespace " ") with true by reflexivity.
    unfold emit. cbn [token quoted emitted]. rewrite Q.
    rewrite IH. now rewrite <- app_assoc.
Qed.

(** [shlex.split] reads back the words that [shlex.quote] wrote, when
    they are joined with single spaces. *)
Lemma split_join_quote (t : string) (ts : list string) :
  split (join " " (map quote (t :: ts))) = Some (t :: ts).
Proof. unfold split, initial. apply finish_join_quote. Qed.

End ShlexFacts.

(** ** generate_curl_command (curl_export.py) *)

Section Exporter.
Import PyStr Urllib Shlex CurlExport.

Lemma get_in {V : Type} (k : string) (v : V) (d : PyDict.dict V) :
  PyDict.get k d = Some v -> In (k, v) d.
Proof.
  induction d as [|[k0 v0] d IH]; simpl; [discriminate|].
  destruct (String.eqb_spec k0 k); [intros [= ->]; subst; now left|].
  intros G. right. now apply IH.
Qed.

Lemma in_get {V : Type} (k : string) (v : V) (d : PyDict.dict V) :
  NoDup (PyDict.keys d) -> In (k, v) d -> PyDict.get k d = Some v.
Proof.
  induction d as [|[k0 v0] d IH]; simpl; [tauto|].
  intros N I. inversion N as [|x l Nk Nd]; subst.
  destruct I as [[= -> ->]|I].
  - now rewrite String.eqb_refl.
  - destruct (String.eqb_spec k0 k); [subst|now apply IH].
    exfalso. apply Nk. apply (in_map fst) in I. exact I.
Qed.

Lemma code_ascii_of_N (n : N) : (n < 256)%N -> code (ascii_of_N n) = n.
Proof. intros H. unfold code. now apply N_ascii_embedding. Qed.

(** The three bytes of a surrogate code point. *)
Lemma utf8_surrogate (cp : N) :
  (55296 <= cp <= 57343)%N ->
  exists c c1 c2,
    Spec.utf8 cp = String c (String c1 (String c2 ""))
    /\ (code c =? 237)%N && between 160 191 c1 && between 128 191 c2 = true.
Proof.
  intros [Lo Hi]. unfold Spec.utf8.
  destruct (N.ltb_spec cp 128); [lia|]. destruct (N.ltb_spec cp 2048); [lia|].
  cbn [bytes fold_right]. do 3 eexists. split; [reflexivity|].
  assert (D1 : (cp / 4096 = 13)%N).
  { symmetry. apply (N.div_unique cp 4096 13 (cp - 53248)); lia. }
  pose proof (N.mod_upper_bound (cp / 64) 64 ltac:(lia)) as M1.
  pose proof (N.mod_upper_bound cp 64 ltac:(lia)) as M2.
  assert (D2 : (32 <= (cp / 64) mod 64)%N).
  { assert (Q : (864 <= cp / 64 < 896)%N).
    { split; [apply N.div_le_lower_bound; lia|apply N.Div0.div_lt_upper_bound; lia]. }
    rewrite (N.Div0.mod_eq (cp / 64) 64).
    assert (E : ((cp / 64) / 64 = 13)%N).
    { symmetry. apply (N.div_unique (cp / 64) 64 13 (cp / 64 - 832)); lia. }
    rewrite E. lia. }
  rewrite D1. unfold between.
  rewrite (code_ascii_of_N (224 + 13)) by lia.
  generalize dependent ((cp / 64) mod 64)%N. intros m1 M1 D2.
  generalize dependent (cp mod 64)%N. intros m2 M2.
  rewrite (code_ascii_of_N (128 + m1)) by lia.
  rewrite (code_ascii_of_N (128 + m2)) by lia.
  apply andb_true_iff. split; [apply andb_true_iff; split|].
  - reflexivity.
  - apply andb_true_iff. split; apply N.leb_le; lia.
  - apply andb_true_iff. split; apply N.leb_le; lia.
Qed.

Lemma surrogate_utf8 (c c1 c2 : ascii) :
  (code c =? 237)%N && between 160 191 c1 && between 128 191 c2 = true ->
  exists cp, (55296 <= cp <= 57343)%N
             /\ Spec.utf8 cp = String c (String c1 (String c2 "")).
Proof.
  intros T. apply andb_true_iff in T as [T B2]. apply andb_true_iff in T as [E B1].
  apply N.eqb_eq in E. unfold between in B1, B2.
  apply andb_true_iff in B1 as [L1 H1]. apply andb_true_iff in B2 as [L2 H2].
  apply N.leb_le in L1, H1, L2, H2.
  exists (55296 + (code c1 - 160) * 64 + (code c2 - 128))%N.
  set (cp := (55296 + (code c1 - 160) * 64 + (code c2 - 128))%N).
  assert (R : (55296 <= cp <= 57343)%N) by (unfold cp; lia).
  split; [exact R|]. unfold Spec.utf8.
  destruct (N.ltb_spec cp 128); [lia|]. destruct (N.ltb_spec cp 2048); [lia|].
  assert (D1 : (cp / 4096 = 13)%N).
  { symmetry. apply (N.div_unique cp 4096 13 (cp - 53248)); lia. }
  assert (D2 : (cp / 64 = 704 + code c1)%N).
  { symmetry. apply (N.div_unique cp 64 (704 + code c1) (code c2 - 128)); unfold cp; lia. }
  assert (D3 : (cp mod 64 = code c2 - 128)%N).
  { symmetry. apply (N.mod_unique cp 64 (704 + code c1) (code c2 - 128)); unfold cp; lia. }
  assert (D4 : ((704 + code c1) mod 64 = code c1 - 128)%N).
  { symmetry. apply (N.mod_unique (704 + code c1) 64 13 (code c1 - 128)); lia. }
  rewrite D1, D2, D3, D4. cbn [bytes fold_right].
  replace (224 + 13)%N with (code c) by lia.
  replace (128 + (code c1 - 128))%N with (code c1) by lia.
  replace (128 + (code c2 - 128))%N with (code c2) by lia.
  unfold code. now rewrite !ascii_N_embedding.
Qed.

(** What cannot be encoded is what holds a lone surrogate. *)
Lemma encodable_surrogate (s : string) :
  Surrogates.encodable s = false <-> Spec.HoldsSurrogate s.
Proof.
  split.
  - induction s as [|c r IH]; [discriminate|].
    cbn [Surrogates.encodable]. destruct r as [|c1 [|c2 r2]]; try discriminate.
    destruct ((code c =? 237)%N && between 160 191 c1 && between 128 191 c2) eqn:T.
    + intros _. destruct (surrogate_utf8 c c1 c2 T) as (cp & R & E).
      exists "", r2, cp. split; [exact R|]. rewrite E. reflexivity.
    + cbn [negb andb]. intros E. destruct (IH E) as (a & b & cp & R & ->).
      exists (String c a), b, cp. split; [exact R|reflexivity].
  - intros (a & b & cp & R & ->).
    destruct (utf8_surrogate cp R) as (c & c1 & c2 & -> & T).
    induction a as [|x a IH].
    + cbn [append Surrogates.encodable]. now rewrite T.
    + cbn [append]. cbn [append] in IH.
      remember (a ++ String c (String c1 (String c2 b))) as r eqn:Er.
      assert (L : 2 <= String.length r).
      { rewrite Er, length_append. simpl. lia. }
      destruct r as [|y1 [|y2 r']]; simpl in L; try lia.
      cbn [Surrogates.encodable]. cbn [Surrogates.encodable] in IH. rewrite IH.
      apply andb_false_r.
Qed.

(** [urlencode] raises on the first key or value that cannot be encoded,
    and writes what the [urlencode] without the exception writes when
    there is none. *)
Lemma urlencode_encodable (d : PyDict.dict (list string)) :
  Surrogates.urlencode d = if Spec.all_encodable d then Some (urlencode d) else None.
Proof.
  unfold Surrogates.urlencode, urlencode, Spec.all_encodable.
  set (inner := fun (k : string) (l : option (list string)) (elt : string) =>
                  match l, Surrogates.quote_plus elt with
                  | Some l, Some elt => Some (app l [k ++ "=" ++ elt])
                  | _, _ => None
                  end).
  set (outer := fun (l : option (list string)) (kv : string * list string) =>
                  let '(k, v) := kv in
                  match l, Surrogates.quote_plus k with
                  | Some l, Some k => fold_left (inner k) v (Some l)
                  | _, _ => None
                  end).
  assert (In0 : forall k v, fold_left (inner k) v None = None)
    by (intros k v; induction v as [|x v IH]; [reflexivity|exact IH]).
  assert (In1 : forall k v l,
             fold_left (inner k) v (Some l)
             = if forallb Surrogates.encodable v
               then Some (app l (map (fun elt => k ++ "=" ++ quote_plus elt) v))
               else None).
  { intros k v. induction v as [|x v IH]; intros l; cbn [fold_left forallb map].
    - now rewrite app_nil_r.
    - unfold inner at 2. unfold Surrogates.quote_plus.
      destruct (Surrogates.encodable x); cbn [andb]; [|apply In0].
      rewrite IH. destruct (forallb _ v); [|reflexivity].
      now rewrite <- app_assoc. }
  assert (Out0 : forall d', fold_left outer d' None = None)
    by (intros d'; induction d' as [|[k v] d' IH]; [reflexivity|exact IH]).
  assert (Out1 : forall d' l,
             fold_left outer d' (Some l)
             = if forallb (fun kv => Surrogates.encodable (fst kv)
                                     && forallb Surrogates.encodable (snd kv)) d'
               then Some (app l (map encode_pair (flatten d')))
               else None).
  { induction d' as [|[k v] d' IH]; intros l; cbn [fold_left forallb flatten flat_map map].
    - now rewrite app_nil_r.
    - cbn [outer fst snd]. unfold Surrogates.quote_plus at 1.
      destruct (Surrogates.encodable k); cbn [andb]; [|apply Out0].
      rewrite In1. destruct (forallb Surrogates.encodable v); cbn [andb]; [|apply Out0].
      rewrite IH. fold (flatten d').
      destruct (forallb _ d'); [|reflexivity].
      rewrite map_app, map_map, <- app_assoc. reflexivity. }
  change (fold_left _ d (Some [])) with (fold_left outer d (Some [])).
  rewrite Out1. destruct (forallb _ d); reflexivity.
Qed.

(** A dictionary with distinct keys holds what cannot be encoded under
    one of them. *)
Lemma all_encodable_false (d : PyDict.dict (list string)) :
  NoDup (PyDict.keys d) ->
  (Spec.all_encodable d = false
   <-> exists k vs, PyDict.get k d = Some vs
                    /\ (Surrogates.encodable k = false
                        \/ exists v, In v vs /\ Surrogates.encodable v = false)).
Proof.
  intros N. unfold Spec.all_encodable. split.
  - intros F. destruct (forallb _ d) eqn:E in F; [discriminate|]. clear F.
    induction d as [|[k vs] d IH]; [discriminate|].
    cbn [forallb fst snd] in E. inversion N as [|x l Nk Nd]; subst.
    destruct (Surrogates.encodable k) eqn:K.
    + destruct (forallb Surrogates.encodable vs) eqn:V.
      * destruct (IH Nd E) as (k' & vs' & G & H). exists k', vs'. split; [|exact H].
        apply in_get; [exact N|]. right. now apply get_in.
      * exists k, vs. split; [cbn; now rewrite String.eqb_refl|]. right.
        clear -V. induction vs as [|v vs IH]; [discriminate|]. cbn [forallb] in V.
        destruct (Surrogates.encodable v) eqn:Ev.
        -- destruct (IH V) as (v' & I & H). exists v'. split; [now right|exact H].
        -- exists v. split; [now left|exact Ev].
    + exists k, vs. split; [cbn; now rewrite String.eqb_refl|]. now left.
  - intros (k & vs & G & H). apply get_in in G.
    destruct (forallb _ d) eqn:E; [|reflexivity].
    rewrite forallb_forall in E. specialize (E _ G). cbn [fst snd] in E.
    apply andb_true_iff in E as [Ek Ev]. destruct H as [H|(v & I & H)]; [congruence|].
    rewrite forallb_forall in Ev. specialize (Ev v I). congruence.
Qed.

(** The exporter with the exception of [urlencode] is the exporter
    without it, where nothing is to be encoded that cannot be. *)
Lemma strict_full_url (lib : NetlocChecks) (request : RequestModel) :
  Strict.full_url lib request
  = match urlparse lib (url request) with
    | Some parsed =>
        if Spec.all_encodable (HttpClient.merge_params (fun v => v) (query_params request)
                            (parse_qs (query parsed)))
        then full_url lib request else None
    | None => None
    end.
Proof.
  unfold Strict.full_url, full_url. destruct (urlparse lib (url request)); [|reflexivity].
  cbv zeta. rewrite urlencode_encodable. now destruct (Spec.all_encodable _).
Qed.

Lemma strict_generate_curl_command (lib : NetlocChecks) (request : RequestModel)
    (include_proxy : bool) (proxy_http proxy_https : string) (ssl_verify : bool) :
  Strict.generate_curl_command lib request include_proxy proxy_http proxy_https ssl_verify
  = match Strict.full_url lib request with
    | Some _ =>
        generate_curl_command lib request include_proxy proxy_http proxy_https ssl_verify
    | None => None
    end.
Proof.
  unfold Strict.generate_curl_command, generate_curl_command. rewrite strict_full_url.
  destruct (urlparse lib (url request)) as [parsed|] eqn:U; [|reflexivity].
  destruct (Spec.all_encodable _); [|reflexivity].
  destruct (full_url lib request); reflexivity.
Qed.

Lemma full_url_none lib request :
  full_url lib request = None <-> urlparse lib (url request) = None.
Proof.
  unfold full_url. destruct (urlparse lib (url request)); split; congruence.
Qed.

(** C7 as stated fails.  For a URL with an opening bracket and no
    closing one in its network location [urlparse] raises, whatever the
    library checks say.  For a query parameter whose value is the lone
    surrogate U+D800 [urlencode] raises, although [urlparse] accepts the
    URL.  Nothing in the exporter catches either. *)
Lemma generate_curl_command_raises_on_bracket_and_on_surrogate :
  let bracket :=
    mkRequest GET "http://[" [] [] BODY_NONE TEXT "" [] [] AuthConfig_default "Default" in
  let surrogate :=
    mkRequest GET "http://x.test" [mkKV true "q" (Spec.utf8 55296)] []
              BODY_NONE TEXT "" [] [] AuthConfig_default "Default" in
  (forall lib include_proxy proxy_http proxy_https ssl_verify,
     urlparse lib (url bracket) = None
     /\ Strict.generate_curl_command lib bracket include_proxy proxy_http proxy_https ssl_verify
        = None)
  /\ (forall lib include_proxy proxy_http proxy_https ssl_verify,
        urlparse lib (url surrogate) = Some (mkParse "http" "x.test" "" "" "" "")
        /\ Surrogates.encodable (Spec.utf8 55296) = false
        /\ Strict.generate_curl_command lib surrogate include_proxy proxy_http proxy_https
             ssl_verify = None).
Proof.
  intros bracket surrogate. split; intros; repeat split; reflexivity.
Qed.

(** C7, as the code has it.  [generate_curl_command] returns a string
    unless [urlparse] raises on the request's URL, or [urlencode] raises on
    the query that the exporter writes, or, when the proxy is to be
    included, [urlparse] raises on the URL that the exporter has rebuilt.
    [urlencode] raises when a key, or a value under it, cannot be encoded
    in UTF-8, which is when it holds a lone surrogate; the values under a
    key are the value of the last enabled parameter of the request with
    that key, or else the values that the query of the URL has under it.
    Where it returns a string, the string is the one that the exporter
    without the exception of [urlencode] returns. *)
Theorem generate_curl_command_fails_in_urlparse_or_urlencode :
  forall (lib : NetlocChecks) (request : RequestModel) (include_proxy : bool)
         (proxy_http proxy_https : string) (ssl_verify : bool),
    (Strict.generate_curl_command lib request include_proxy proxy_http proxy_https ssl_verify
     = None
     <-> urlparse lib (url request) = None
         \/ (exists parsed k vs,
               urlparse lib (url request) = Some parsed
               /\ Spec.exported_values (query parsed) request k = Some vs
               /\ (Surrogates.encodable k = false
                   \/ exists v, In v vs /\ Surrogates.encodable v = false))
         \/ (include_proxy = true
             /\ exists full, Strict.full_url lib request = Some full
                             /\ urlparse lib full = None))
    /\ (forall s, Surrogates.encodable s = false <-> Spec.HoldsSurrogate s)
    /\ (forall command,
          Strict.generate_curl_command lib request include_proxy proxy_http proxy_https
            ssl_verify = Some command ->
          generate_curl_command lib request include_proxy proxy_http proxy_https ssl_verify
          = Some command).
Proof.
  intros lib request ip ph phs sv.
  assert (G : forall full, full_url lib request = Some full ->
                (generate_curl_command lib request ip ph phs sv = None
                 <-> ip = true /\ urlparse lib full = None)).
  { intros full F. unfold generate_curl_command. rewrite F. unfold proxy_parts.
    destruct ip.
    - destruct (urlparse lib full) as [p|].
      + destruct (_ && _); [|destruct (_ && _)]; split; try discriminate;
          intros [_ H]; discriminate.
      + split; auto.
    - split; [discriminate|]. intros [H _]; discriminate. }
  assert (E : forall parsed,
             Spec.all_encodable (HttpClient.merge_params (fun v => v) (query_params request)
                              (parse_qs (query parsed))) = false
             <-> exists k vs,
                   Spec.exported_values (query parsed) request k = Some vs
                   /\ (Surrogates.encodable k = false
                       \/ exists v, In v vs /\ Surrogates.encodable v = false)).
  { intros parsed. rewrite all_encodable_false
      by apply nodup_keys_merge_params, nodup_keys_parse_qs.
    unfold Spec.exported_values.
    split; intros (k & vs & H & R); exists k, vs; (split; [|exact R]).
    - now rewrite get_merge_params in H.
    - now rewrite get_merge_params. }
  rewrite strict_generate_curl_command, strict_full_url.
  split; [|split; [exact encodable_surrogate|]].
  - destruct (urlparse lib (url request)) as [parsed|] eqn:U.
    + destruct (Spec.all_encodable _) eqn:A.
      * destruct (full_url lib request) as [full|] eqn:F;
          [|apply full_url_none in F; congruence].
        rewrite (G full eq_refl). split.
        -- intros [I Uf]. right. right. split; [exact I|]. exists full. auto.
        -- intros [H|[(parsed' & k & vs & [= <-] & H)|(I & full' & [= <-] & Uf)]].
           ++ discriminate.
           ++ assert (A' : Spec.all_encodable
                             (HttpClient.merge_params (fun v => v) (query_params request)
                                (parse_qs (query parsed))) = false)
                by (apply E; eauto).
              congruence.
           ++ auto.
      * split; [|reflexivity]. intros _. right. left.
        apply E in A as (k & vs & H). exists parsed, k, vs. auto.
    + split; [auto|reflexivity].
  - intros command. destruct (urlparse lib (url request)) as [parsed|]; [|discriminate].
    destruct (Spec.all_encodable _); [|discriminate].
    destruct (full_url lib request); [auto|discriminate].
Qed.

End Exporter.

(** ** Importing what the exporter wrote *)

Section RoundTrip.
Import PyStr Urllib Shlex CurlImport CurlExport.

Lemma join_cons (sep x : string) (l : list string) :
  l <> [] -> join sep (x :: l) = x ++ sep ++ join sep l.
Proof. destruct l; [congruence|reflexivity]. Qed.

Lemma renders_nil : Spec.Renders [] [].
Proof. split; [reflexivity|tauto]. Qed.

Lemma renders_word (x : string) (parts ws : list string) :
  Spec.Renders parts ws -> Spec.Renders (quote x :: parts) (x :: ws).
Proof.
  intros [J E]. split; [|split; discriminate].
  destruct parts as [|p parts].
  - rewrite (proj1 E eq_refl). reflexivity.
  - destruct ws as [|w ws]; [destruct E as [_ E]; discriminate (E eq_refl)|].
    rewrite join_cons by discriminate. cbn [map].
    rewrite (join_cons " " (quote x)) by discriminate.
    cbn [map] in J. now rewrite J.
Qed.

(** A flag that needs no quoting, written together with its argument. *)
Lemma renders_flag (flag x : string) (parts ws : list string) :
  quote flag = flag ->
  Spec.Renders parts ws ->
  Spec.Renders ((flag ++ " " ++ quote x) :: parts) (flag :: x :: ws).
Proof.
  intros Q R. destruct (renders_word x _ _ R) as [J _].
  split; [|split; discriminate].
  cbn [map]. rewrite (join_cons " " (quote flag)) by discriminate.
  rewrite Q. cbn [map] in J. rewrite <- J.
  destruct parts as [|p parts].
  - cbn. rewrite ?append_assoc. reflexivity.
  - rewrite !join_cons by discriminate. rewrite !append_assoc. reflexivity.
Qed.

Lemma renders_headers (hs : list KeyValuePair) (parts ws : list string) :
  Spec.Renders parts ws ->
  Spec.Renders (app (header_parts hs) parts) (app (Spec.header_words hs) ws).
Proof.
  intros R. unfold header_parts, Spec.header_words, Spec.mergeable.
  induction hs as [|h hs IH]; [exact R|]. cbn [flat_map].
  destruct (kv_enabled h && nonempty (kv_key h)); [|exact IH].
  cbn [app]. apply (renders_flag "-H"); [reflexivity|exact IH].
Qed.

Lemma renders_auth (a : AuthConfig) (parts ws : list string) :
  Spec.Renders parts ws ->
  Spec.Renders (app (auth_parts a) parts) (app (Spec.auth_words a) ws).
Proof.
  intros R. unfold auth_parts, Spec.auth_words.
  destruct (auth_type a); cbn [auth_type_value String.eqb Ascii.eqb Bool.eqb andb].
  - exact R.
  - destruct (nonempty (username a) || nonempty (password a)); [|exact R].
    apply (renders_flag "-u"); [reflexivity|exact R].
  - destruct (nonempty (bearer_token a)); [|exact R].
    apply (renders_flag "-H"); [reflexivity|exact R].
Qed.

Lemma renders_multipart (items : list MultipartItem) (parts ws : list string) :
  Spec.Renders parts ws ->
  Spec.Renders (app (multipart_parts items) parts) (app (Spec.multipart_words items) ws).
Proof.
  intros R. unfold multipart_parts, Spec.multipart_words.
  induction items as [|i items IH]; [exact R|]. cbn [flat_map].
  destruct (mp_enabled i && nonempty (mp_key i)); [|exact IH].
  destruct (mp_type i =? "file"); cbn [app];
    apply (renders_flag "-F"); first [reflexivity | exact IH].
Qed.

Lemma renders_body (request : RequestModel) :
  Spec.Renders (body_parts request) (Spec.body_words request).
Proof.
  unfold body_parts, Spec.body_words.
  destruct (body_type request);
    cbn [body_type_value String.eqb Ascii.eqb Bool.eqb andb].
  - apply renders_nil.
  - destruct (nonempty (raw_body request)); [|apply renders_nil].
    apply (renders_flag "--data-raw"); [reflexivity|apply renders_nil].
  - destruct (form_data request) as [|f fs] eqn:F; [apply renders_nil|].
    destruct (form_parts (f :: fs)) as [|x xs]; [apply renders_nil|].
    apply (renders_flag "--data"); [reflexivity|apply renders_nil].
  - rewrite <- (app_nil_r (multipart_parts _)), <- (app_nil_r (Spec.multipart_words _)).
    apply renders_multipart, renders_nil.
Qed.

Lemma method_value_safe (m : HttpMethod) : quote (method_value m) = method_value m.
Proof. destruct m; reflexivity. Qed.

(** The command that the exporter writes, word by word. *)
Lemma generate_curl_command_words (lib : NetlocChecks) (request : RequestModel)
    (proxy_http proxy_https full : string) :
  full_url lib request = Some full ->
  generate_curl_command lib request false proxy_http proxy_https true
  = Some ("curl " ++ join " " (map quote (Spec.export_words request full))).
Proof.
  intros F. unfold generate_curl_command. rewrite F. cbn [proxy_parts negb].
  f_equal. rewrite app_nil_r.
  assert (R : Spec.Renders
                (app (if negb (method_value (method request) =? "GET")
                      then ["-X " ++ method_value (method request)] else [])
                     (quote full :: app (header_parts (headers request))
                                       (app (auth_parts (auth request)) (body_parts request))))
                (Spec.export_words request full)).
  { unfold Spec.export_words, Spec.method_words.
    assert (R0 : Spec.Renders
                   (quote full :: app (header_parts (headers request))
                                      (app (auth_parts (auth request)) (body_parts request)))
                   (full :: app (Spec.header_words (headers request))
                                (app (Spec.auth_words (auth request))
                                     (Spec.body_words request)))).
    { apply renders_word, renders_headers, renders_auth, renders_body. }
    destruct (negb (method_value (method request) =? "GET")); [|exact R0].
    cbn [app]. rewrite <- (method_value_safe (method request)) at 1.
    apply (renders_flag "-X"); [reflexivity|exact R0]. }
  destruct R as [J E].
  replace (escape_shell_string full) with (quote full) by reflexivity.
  match goal with
  | |- join " " ?l = _ =>
      replace l with
        ("curl" :: app (if negb (method_value (method request) =? "GET")
                        then ["-X " ++ method_value (method request)] else [])
                       (quote full :: app (header_parts (headers request))
                                         (app (auth_parts (auth request))
                                              (body_parts request))))
  end.
  - rewrite join_cons.
    + rewrite J. reflexivity.
    + destruct (negb _); discriminate.
  - destruct (negb _); cbn [app]; rewrite <- ?app_assoc; reflexivity.
Qed.

Lemma length_lstrip (p : ascii -> bool) (x : string) :
  String.length (lstrip_of p x) <= String.length x.
Proof. induction x as [|c x IH]; simpl; [lia|]. destruct (p c); simpl; lia. Qed.

Lemma lstrip_fixed (p : ascii -> bool) (x : string) :
  lstrip_of p x = x -> x <> "" -> exists c x', x = String c x' /\ p c = false.
Proof.
  destruct x as [|c x]; [congruence|]. intros L _. exists c, x. split; [reflexivity|].
  simpl in L. destruct (p c); [|reflexivity].
  pose proof (length_lstrip p x) as H. rewrite L in H. simpl in H. lia.
Qed.

Lemma rstrip_append (p : ascii -> bool) (a b : string) :
  rstrip_of p b = b -> b <> "" -> rstrip_of p (a ++ b) = a ++ b.
Proof.
  intros R N. induction a as [|c a IH]; [exact R|]. simpl. rewrite IH.
  destruct (a ++ b) eqn:E; [|reflexivity].
  destruct a; simpl in E; [congruence|discriminate].
Qed.

Lemma rstrip_plain (p : ascii -> bool) (x : string) :
  forall_str (fun c => negb (p c)) x = true -> rstrip_of p x = x.
Proof.
  induction x as [|c x IH]; [reflexivity|]. simpl. intros H.
  apply andb_true_iff in H as [Hc Hx]. rewrite (IH Hx).
  destruct x; [|reflexivity]. apply negb_true_iff in Hc. now rewrite Hc.
Qed.

Lemma safe_plain (x : string) :
  forall_str is_safe x = true -> forall_str (fun c => negb (is_space c)) x = true.
Proof.
  induction x as [|c x IH]; [reflexivity|]. simpl. intros H.
  apply andb_true_iff in H as [Hc Hx]. rewrite (IH Hx), andb_true_r.
  apply negb_true_iff. apply (safe_char_plain c Hc).
Qed.

Lemma trimmed_quote (s : string) : Spec.Trimmed (quote s).
Proof.
  unfold quote. destruct s as [|c s]; [split; [|split]; [reflexivity|reflexivity|discriminate]|].
  cbn [nonempty negb]. destruct (forall_str is_safe (String c s)) eqn:S.
  - split; [|split]; [| |discriminate].
    + simpl in S. apply andb_true_iff in S as [Sc _].
      simpl. now rewrite (proj2 (proj2 (proj2 (safe_char_plain c Sc)))).
    + apply rstrip_plain, safe_plain, S.
  - split; [|split]; [| |discriminate].
    + reflexivity.
    + change (String squote (replace (String squote "") quote_escape (String c s)
                             ++ String squote ""))
        with (String squote (replace (String squote "") quote_escape (String c s))
              ++ String squote "").
      apply rstrip_append; [reflexivity|discriminate].
Qed.

Lemma trimmed_append (a b : string) (sep : string) :
  Spec.Trimmed a -> Spec.Trimmed b -> Spec.Trimmed (a ++ sep ++ b).
Proof.
  intros (La & Ra & Na) (Lb & Rb & Nb).
  destruct (lstrip_fixed _ _ La Na) as (c & a' & -> & Sc).
  split; [|split].
  - simpl. now rewrite Sc.
  - rewrite <- append_assoc. now apply rstrip_append.
  - discriminate.
Qed.

Lemma trimmed_join_quote (w : string) (ws : list string) :
  Spec.Trimmed (join " " (map quote (w :: ws))).
Proof.
  revert w. induction ws as [|w' ws IH]; intros w.
  - apply trimmed_quote.
  - change (join " " (map quote (w :: w' :: ws)))
      with (quote w ++ " " ++ join " " (map quote (w' :: ws))).
    apply trimmed_append; [apply trimmed_quote | apply IH].
Qed.

Lemma strip_trimmed (x : string) : Spec.Trimmed x -> strip x = x.
Proof. intros (L & R & _). unfold strip. now rewrite L, R. Qed.

(** The prefix removal undoes the first word of a generated command. *)
Lemma strip_curl_prefix_command (x : string) :
  Spec.Trimmed x -> strip_curl_prefix ("curl " ++ x) = x.
Proof.
  intros T. unfold strip_curl_prefix.
  assert (T' : Spec.Trimmed ("curl" ++ " " ++ x)).
  { apply trimmed_append; [|exact T]. split; [|split]; [reflexivity|reflexivity|discriminate]. }
  change ("curl" ++ " " ++ x) with ("curl " ++ x) in T'.
  rewrite (strip_trimmed _ T'). unfold startswith. rewrite prefix_append.
  cbn [append drop]. apply strip_trimmed, T.
Qed.

(** The importer's tokens on a generated command are the exported words. *)
Lemma tokenize_generated (lib : NetlocChecks) (request : RequestModel)
    (proxy_http proxy_https full command : string) :
  full_url lib request = Some full ->
  generate_curl_command lib request false proxy_http proxy_https true = Some command ->
  tokenize (strip_curl_prefix command) = Spec.export_words request full.
Proof.
  intros F G. rewrite (generate_curl_command_words lib request _ _ full F) in G.
  assert (C : command = "curl " ++ join " " (map quote (Spec.export_words request full)))
    by congruence.
  rewrite C. clear G C.
  assert (N : exists w ws, Spec.export_words request full = w :: ws).
  { unfold Spec.export_words. destruct (Spec.method_words (method request)); simpl; eauto. }
  destruct N as (w & ws & ->).
  rewrite strip_curl_prefix_command by apply trimmed_join_quote.
  unfold tokenize. now rewrite split_join_quote.
Qed.

Lemma not_dash_not_flag (t : string) :
  startswith "-" t = false -> Spec.takes_argument t = false.
Proof.
  intros D. unfold Spec.takes_argument, is_flag. cbn [existsb].
  destruct (startswith "--proxy" t) eqn:P.
  { apply prefix_inv in P as [b ->]. discriminate. }
  rewrite !orb_false_r.
  repeat match goal with
         | |- context [String.eqb t ?n] =>
             destruct (String.eqb_spec t n); [subst t; discriminate|]
         end.
  reflexivity.
Qed.

Lemma scan_url_word (v : scan_vars) (u : string) (rest : list string) :
  startswith "-" u = false -> truthy (v_url v) = false ->
  scan v (u :: rest) = scan (set_url u v) rest.
Proof.
  intros D T. pose proof (not_dash_not_flag u D) as A.
  rewrite takes_argument_eq in A. repeat (apply orb_false_iff in A as [? A]).
  rewrite scan_cons, starts_dash, D, T.
  repeat match goal with H : ?c = false |- context [if ?c then _ else _] => rewrite H end.
  reflexivity.
Qed.

Lemma scan_method_words (m : HttpMethod) (rest : list string) :
  scan initial_vars (app (Spec.method_words m) rest)
  = scan (Spec.after_method m initial_vars) rest.
Proof. destruct m; reflexivity. Qed.

Lemma scan_header_words (hs : list KeyValuePair) (rest : list string) :
  forall v, scan v (app (Spec.header_words hs) rest) = scan (Spec.after_headers hs v) rest.
Proof.
  unfold Spec.header_words, Spec.after_headers.
  induction hs as [|h hs IH]; intros v; [reflexivity|].
  cbn [flat_map fold_left]. destruct (Spec.mergeable h); [|apply IH].
  cbn [app]. rewrite <- IH. reflexivity.
Qed.

Lemma scan_auth_words (a : AuthConfig) (rest : list string) (v : scan_vars) :
  scan v (app (Spec.auth_words a) rest) = scan (Spec.after_auth a v) rest.
Proof.
  unfold Spec.after_auth, Spec.auth_words.
  destruct (auth_type a); [reflexivity| |].
  - destruct (nonempty (username a) || nonempty (password a)); reflexivity.
  - destruct (nonempty (bearer_token a)); reflexivity.
Qed.

Lemma scan_multipart_words (items : list MultipartItem) :
  forall v, scan v (Spec.multipart_words items)
            = Spec.after_flag_args add_form (Spec.multipart_words items) v.
Proof.
  unfold Spec.multipart_words.
  induction items as [|i items IH]; intros v; [reflexivity|].
  cbn [flat_map]. destruct (mp_enabled i && nonempty (mp_key i)); [|apply IH].
  cbn [app Spec.after_flag_args]. rewrite <- IH. reflexivity.
Qed.

Lemma scan_body_words (request : RequestModel) (v : scan_vars) :
  scan v (Spec.body_words request) = Spec.after_body request v.
Proof.
  unfold Spec.after_body, Spec.body_words. destruct (body_type request).
  - reflexivity.
  - destruct (nonempty (raw_body request)); reflexivity.
  - destruct (form_parts (form_data request)); reflexivity.
  - apply scan_multipart_words.
Qed.

(** The variables of the loop after a generated command. *)
Lemma scan_export_words (request : RequestModel) (full : string) :
  startswith "-" full = false ->
  scan initial_vars (Spec.export_words request full) = Spec.after_export request full.
Proof.
  intros D. unfold Spec.export_words, Spec.after_export.
  rewrite scan_method_words, scan_url_word; [|exact D|destruct (method request); reflexivity].
  now rewrite scan_header_words, scan_auth_words, scan_body_words.
Qed.

(** *** What each group of words leaves untouched *)







Lemma upper_method_value (m : HttpMethod) : upper (method_value m) = method_value m.
Proof. destruct m; reflexivity. Qed.



(** *** Headers *)







(** *** Bodies *)

Lemma split_char_plain (c : ascii) (x : string) :
  has_char c x = false -> split_char c x = [x].
Proof.
  unfold has_char. induction x as [|a x IH]; [reflexivity|]. simpl. intros H.
  apply orb_false_iff in H as [Ha Hx]. rewrite Ascii.eqb_sym, Ha, (IH Hx). reflexivity.
Qed.

Lemma split_char_append (c : ascii) (x z : string) :
  has_char c x = false -> split_char c (x ++ String c z) = x :: split_char c z.
Proof.
  unfold has_char. induction x as [|a x IH]; simpl; intros H.
  - now rewrite Ascii.eqb_refl.
  - apply orb_false_iff in H as [Ha Hx]. rewrite Ascii.eqb_sym, Ha, (IH Hx). reflexivity.
Qed.









(** *** The round trip *)





End RoundTrip.

(** ** build_headers and build_body (http_client.py) *)

Section Builders.
Import PyStr Urllib HttpClient.

Lemma fold_left_ext {A B : Type} (f g : A -> B -> A) (l : list B) (a : A) :
  (forall a b, f a b = g a b) -> fold_left f l a = fold_left g l a.
Proof.
  intros E. revert a. induction l as [|b l IH]; intros a; simpl; [reflexivity|].
  now rewrite E, IH.
Qed.

(** A loop that skips the items failing [ok] does the same on the list
    without them. *)
Lemma fold_left_filter {A B : Type} (ok : B -> bool) (g : A -> B -> A) (l : list B) (a : A) :
  fold_left (fun a b => if ok b then g a b else a) (filter ok l) a
  = fold_left (fun a b => if ok b then g a b else a) l a.
Proof.
  revert a. induction l as [|b l IH]; intros a; simpl; [reflexivity|].
  destruct (ok b) eqn:E; simpl; [rewrite E|]; apply IH.
Qed.

Lemma get_assign_all {A V : Type} (pick : A -> option (string * V)) (items : list A)
    (d : PyDict.dict V) (k : string) :
  PyDict.get k (Spec.assign_all pick items d)
  = match Spec.last_assigned pick k items with
    | Some v => Some v
    | None => PyDict.get k d
    end.
Proof.
  unfold Spec.assign_all. revert d. induction items as [|x items IH]; intros d; [reflexivity|].
  cbn [fold_left Spec.last_assigned]. rewrite IH.
  destruct (Spec.last_assigned pick k items); [reflexivity|].
  destruct (pick x) as [[k' v]|]; [|reflexivity].
  destruct (String.eqb_spec k' k).
  - subst. apply get_set_same.
  - now apply get_set_other.
Qed.

Lemma nodup_keys_assign_all {A V : Type} (pick : A -> option (string * V)) (items : list A)
    (d : PyDict.dict V) :
  NoDup (PyDict.keys d) -> NoDup (PyDict.keys (Spec.assign_all pick items d)).
Proof.
  unfold Spec.assign_all. revert d. induction items as [|x items IH]; intros d N; [exact N|].
  cbn [fold_left]. apply IH. destruct (pick x) as [[k v]|]; [now apply nodup_keys_set|exact N].
Qed.

Lemma assign_all_filter {A V : Type} (pick : A -> option (string * V)) (ok : A -> bool) :
  (forall x, ok x = false -> pick x = None) ->
  forall (items : list A) (d : PyDict.dict V),
    Spec.assign_all pick (filter ok items) d = Spec.assign_all pick items d.
Proof.
  intros N items. unfold Spec.assign_all.
  induction items as [|x items IH]; intros d; [reflexivity|]. cbn [filter fold_left].
  destruct (ok x) eqn:E; [apply IH|]. rewrite (N x E). apply IH.
Qed.

Lemma sent_pair_none (env_vars : PyDict.dict string) (p : KeyValuePair) :
  Spec.mergeable p = false -> Spec.sent_pair env_vars p = None.
Proof. intros E. unfold Spec.sent_pair. now rewrite E. Qed.

(** The two loops over key and value pairs are [assign_all]. *)
Lemma pairs_loop (env_vars : PyDict.dict string) (items : list KeyValuePair)
    (d : PyDict.dict string) :
  fold_left (fun data item =>
               if kv_enabled item && nonempty (kv_key item)
               then let key := substitute_variables (kv_key item) env_vars in
                    let value := substitute_variables (kv_value item) env_vars in
                    PyDict.set key value data
               else data) items d
  = Spec.assign_all (Spec.sent_pair env_vars) items d.
Proof.
  unfold Spec.assign_all. apply fold_left_ext. intros a b.
  unfold Spec.sent_pair, Spec.mergeable. now destruct (kv_enabled b && nonempty (kv_key b)).
Qed.

Lemma multipart_loop {File : Type} (open_rb : string -> option File)
    (env_vars : PyDict.dict string) (items : list MultipartItem) :
  multipart_body File open_rb items env_vars
  = (Spec.assign_all (Spec.sent_text env_vars) items [],
     Spec.assign_all (Spec.sent_file open_rb env_vars) items []).
Proof.
  unfold multipart_body, Spec.assign_all.
  generalize (@nil (string * string)) as d, (@nil (string * File)) as f.
  induction items as [|i items IH]; intros d f; [reflexivity|].
  cbn [fold_left]. unfold Spec.sent_text at 2, Spec.sent_file at 2, Spec.mergeable_item.
  destruct (mp_enabled i && nonempty (mp_key i)); cbn [andb]; [|apply IH].
  destruct (mp_type i =? "file"); cbn [negb]; [|apply IH].
  destruct (open_rb (substitute_variables (mp_value i) env_vars)); apply IH.
Qed.

Lemma merge_params_filter (f : string -> string) (ps : list KeyValuePair)
    (d : PyDict.dict (list string)) :
  merge_params f (filter Spec.mergeable ps) d = merge_params f ps d.
Proof.
  apply (fold_left_filter Spec.mergeable
           (fun d param => PyDict.set (kv_key param) [f (kv_value param)] d)).
Qed.

(** X1. The headers that are sent.  Under a key, [build_headers] holds
    the substituted value of the last enabled header with a non-empty key
    whose substituted key is that key; a disabled header or one without a
    key is never sent.  A bearer token that is not empty replaces whatever
    the headers put under Authorization, spelled exactly so, and touches no
    other key.  The keys of the result are distinct. *)
Theorem build_headers_holds_last_enabled_header :
  forall (request : RequestModel) (env_vars : PyDict.dict string),
    (forall k : string,
       PyDict.get k (build_headers request env_vars)
       = if match auth_type (auth request) with BEARER => true | _ => false end
            && nonempty (bearer_token (auth request)) && (k =? "Authorization")
         then Some ("Bearer " ++ substitute_variables (bearer_token (auth request)) env_vars)
         else Spec.last_assigned (Spec.sent_pair env_vars) k (headers request))
    /\ NoDup (PyDict.keys (build_headers request env_vars)).
Proof.
  intros request env_vars. unfold build_headers. rewrite pairs_loop.
  assert (B : (auth_type_value (auth_type (auth request)) =? "bearer")
              = match auth_type (auth request) with BEARER => true | _ => false end)
    by (destruct (auth_type (auth request)); reflexivity).
  rewrite B. split.
  - intros k.
    destruct (match auth_type (auth request) with BEARER => true | _ => false end
              && nonempty (bearer_token (auth request))); cbn [andb].
    + destruct (String.eqb_spec k "Authorization").
      * subst k. apply get_set_same.
      * rewrite get_set_other by congruence. rewrite get_assign_all.
        now destruct (Spec.last_assigned _ k _).
    + rewrite get_assign_all. now destruct (Spec.last_assigned _ k _).
  - destruct (_ && _); [apply nodup_keys_set|]; apply nodup_keys_assign_all; constructor.
Qed.

(** X2. The body that is sent, by body type.  [build_body] raises in
    one case only: the body is raw, its type is JSON, and [json.loads]
    raises something other than [JSONDecodeError] on the substituted text.
    Otherwise no body type sends nothing; a raw body is its text with the
    variables substituted, sent as JSON when its type is JSON and the
    substituted text parses, and as text when its type is not JSON or
    [json.loads] raises [JSONDecodeError]; a form is a dict that holds,
    under a key, the substituted value of the last enabled field whose
    substituted key is that key; a multipart body has such a dict for its
    text items and one for its file items, where a file item whose path
    cannot be opened assigns nothing and the text fields do not depend on
    the files. *)
Theorem build_body_by_body_type :
  forall (Json File : Type) (json_loads : string -> loads Json)
         (open_rb : string -> option File)
         (request : RequestModel) (env_vars : PyDict.dict string),
    (build_body Json File json_loads open_rb request env_vars = None
     <-> body_type request = RAW /\ raw_body_type request = JSON
         /\ json_loads (substitute_variables (raw_body request) env_vars) = OtherError)
    /\ match body_type request with
       | BODY_NONE =>
           build_body Json File json_loads open_rb request env_vars
           = Some (None, None, None)
       | RAW =>
           let text := substitute_variables (raw_body request) env_vars in
           (raw_body_type request <> JSON ->
            build_body Json File json_loads open_rb request env_vars
            = Some (Some (DataText text), None, None))
           /\ (raw_body_type request = JSON ->
               forall json_data, json_loads text = Loaded json_data ->
               build_body Json File json_loads open_rb request env_vars
               = Some (None, None, Some json_data))
           /\ (raw_body_type request = JSON -> json_loads text = JSONDecodeError ->
               build_body Json File json_loads open_rb request env_vars
               = Some (Some (DataText text), None, None))
       | FORM_URLENCODED =>
           exists data,
             build_body Json File json_loads open_rb request env_vars
             = Some (Some (DataDict data), None, None)
             /\ forall k, PyDict.get k data
                          = Spec.last_assigned (Spec.sent_pair env_vars) k (form_data request)
       | MULTIPART =>
           exists data files,
             build_body Json File json_loads open_rb request env_vars
             = Some (Some (DataDict data), Some files, None)
             /\ (forall k, PyDict.get k data
                           = Spec.last_assigned (Spec.sent_text env_vars) k
                               (multipart_data request))
             /\ (forall k, PyDict.get k files
                           = Spec.last_assigned (Spec.sent_file open_rb env_vars) k
                               (multipart_data request))
       end.
Proof.
  intros. split.
  - unfold build_body.
    destruct (body_type request);
      cbn [body_type_value String.eqb Ascii.eqb Bool.eqb andb]; cbv zeta.
    + split; [discriminate|]. now intros [E _].
    + destruct (raw_body_type request);
        cbn [raw_body_type_value String.eqb Ascii.eqb Bool.eqb andb].
      * split; [discriminate|]. now intros (_ & E & _).
      * destruct (json_loads _); split; try discriminate; auto.
        -- now intros (_ & _ & E).
        -- now intros (_ & _ & E).
      * split; [discriminate|]. now intros (_ & E & _).
    + split; [discriminate|]. now intros [E _].
    + destruct (multipart_body _ _ _ _). split; [discriminate|]. now intros [E _].
  - unfold build_body.
    destruct (body_type request); cbn [body_type_value String.eqb Ascii.eqb Bool.eqb andb].
    + reflexivity.
    + cbv zeta. destruct (raw_body_type request);
        cbn [raw_body_type_value String.eqb Ascii.eqb Bool.eqb andb].
      * split; [reflexivity|]. split; intros E; discriminate E.
      * split; [congruence|]. split.
        -- intros _ json_data L. now rewrite L.
        -- intros _ L. now rewrite L.
      * split; [reflexivity|]. split; intros E; discriminate E.
    + rewrite pairs_loop. eexists. split; [reflexivity|].
      intros k. rewrite get_assign_all. now destruct (Spec.last_assigned _ k _).
    + rewrite multipart_loop. do 2 eexists. split; [reflexivity|].
      split; intros k; rewrite get_assign_all; now destruct (Spec.last_assigned _ k _).
Qed.

(** X3. What the builders pass over leaves no trace: the URL, the
    headers and the body built for a request are those built for the
    request without its disabled entries and its entries without a key;
    and a multipart body is the one of the items that are enabled, have a
    key and, for a file, can be opened. *)
Theorem builders_pass_over_disabled_entries :
  forall (lib : NetlocChecks) (Json File : Type) (json_loads : string -> loads Json)
         (open_rb : string -> option File)
         (request : RequestModel) (env_vars : PyDict.dict string),
    build_url lib (Spec.enabled_only request) env_vars = build_url lib request env_vars
    /\ build_headers (Spec.enabled_only request) env_vars = build_headers request env_vars
    /\ build_body Json File json_loads open_rb (Spec.enabled_only request) env_vars
       = build_body Json File json_loads open_rb request env_vars
    /\ multipart_body File open_rb
         (filter (Spec.reaches_body open_rb env_vars) (multipart_data request)) env_vars
       = multipart_body File open_rb (multipart_data request) env_vars.
Proof.
  intros. split; [|split; [|split]].
  - unfold build_url.
    change (prepare_url (Spec.enabled_only request) env_vars)
      with (prepare_url request env_vars).
    destruct (urlparse lib (prepare_url request env_vars)); [|reflexivity].
    cbv zeta. cbn [Spec.enabled_only query_params]. now rewrite merge_params_filter.
  - unfold build_headers. cbn [Spec.enabled_only headers auth]. cbv zeta.
    rewrite !pairs_loop. now rewrite (assign_all_filter _ _ (sent_pair_none env_vars)).
  - unfold build_body.
    cbn [Spec.enabled_only body_type raw_body_type raw_body form_data multipart_data].
    cbv zeta. rewrite !pairs_loop, !multipart_loop.
    rewrite (assign_all_filter _ _ (sent_pair_none env_vars)).
    rewrite (assign_all_filter (Spec.sent_text env_vars) Spec.mergeable_item).
    rewrite (assign_all_filter (Spec.sent_file open_rb env_vars) Spec.mergeable_item).
    + reflexivity.
    + intros x E. unfold Spec.sent_file. now rewrite E.
    + intros x E. unfold Spec.sent_text. now rewrite E.
  - rewrite !multipart_loop.
    rewrite (assign_all_filter (Spec.sent_text env_vars) (Spec.reaches_body open_rb env_vars)).
    rewrite (assign_all_filter (Spec.sent_file open_rb env_vars)
               (Spec.reaches_body open_rb env_vars)).
    + reflexivity.
    + intros x. unfold Spec.reaches_body, Spec.sent_file.
      destruct (Spec.mergeable_item x); [|reflexivity].
      destruct (mp_type x =? "file"); [|reflexivity]. cbn [andb negb orb].
      now destruct (open_rb _).
    + intros x. unfold Spec.reaches_body, Spec.sent_text.
      destruct (Spec.mergeable_item x); [|reflexivity].
      destruct (mp_type x =? "file"); [reflexivity|]. discriminate.
Qed.

End Builders.

(** ** generate_curl_command (curl_export.py): what it passes over and
    what it appends *)

Section ExporterOptions.
Import PyStr Urllib Shlex HttpClient CurlImport CurlExport.

Lemma flat_map_filter {A B : Type} (ok : A -> bool) (g : A -> list B) (l : list A) :
  flat_map (fun x => if ok x then g x else []) (filter ok l)
  = flat_map (fun x => if ok x then g x else []) l.
Proof.
  induction l as [|x l IH]; [reflexivity|]. cbn [filter flat_map].
  destruct (ok x) eqn:E; [|exact IH]. cbn [flat_map]. now rewrite E, IH.
Qed.

(** X4. The exporter passes over what is disabled: the command written
    for a request is the one written for the request without its disabled
    entries and its entries without a key, whatever the options are. *)
Theorem generate_curl_command_passes_over_disabled_entries :
  forall (lib : NetlocChecks) (request : RequestModel) (include_proxy : bool)
         (proxy_http proxy_https : string) (ssl_verify : bool),
    generate_curl_command lib (Spec.enabled_only request) include_proxy proxy_http
      proxy_https ssl_verify
    = generate_curl_command lib request include_proxy proxy_http proxy_https ssl_verify.
Proof.
  intros. unfold generate_curl_command.
  assert (F : full_url lib (Spec.enabled_only request) = full_url lib request).
  { unfold full_url. cbn [Spec.enabled_only url query_params].
    destruct (urlparse lib (url request)); [|reflexivity].
    cbv zeta. now rewrite merge_params_filter. }
  assert (H : header_parts (filter Spec.mergeable (headers request))
              = header_parts (headers request)).
  { apply (flat_map_filter Spec.mergeable
             (fun header => ["-H " ++ escape_shell_string
                                         (kv_key header ++ ": " ++ kv_value header)])). }
  assert (FP : forall items, form_parts (filter Spec.mergeable items) = form_parts items).
  { intros items.
    apply (flat_map_filter Spec.mergeable
             (fun item => [kv_key item ++ "=" ++ kv_value item])). }
  assert (M : multipart_parts (filter Spec.mergeable_item (multipart_data request))
              = multipart_parts (multipart_data request)).
  { apply (flat_map_filter Spec.mergeable_item
             (fun item =>
                if mp_type item =? "file"
                then ["-F " ++ escape_shell_string (mp_key item ++ "=@" ++ mp_value item)]
                else ["-F " ++ escape_shell_string (mp_key item ++ "=" ++ mp_value item)])). }
  assert (B : body_parts (Spec.enabled_only request) = body_parts request).
  { unfold body_parts.
    cbn [Spec.enabled_only body_type raw_body form_data multipart_data].
    rewrite M, FP.
    destruct (filter Spec.mergeable (form_data request)) eqn:E.
    - assert (N : form_parts (form_data request) = []) by (rewrite <- FP, E; reflexivity).
      rewrite N. now destruct (form_data request).
    - destruct (form_data request); [discriminate E|reflexivity]. }
  rewrite F, B. cbn [Spec.enabled_only method headers auth]. now rewrite H.
Qed.

Lemma join_app (sep : string) (l1 l2 : list string) :
  l1 <> [] -> l2 <> [] -> join sep (app l1 l2) = join sep l1 ++ sep ++ join sep l2.
Proof.
  intros N1 N2. induction l1 as [|x [|y l] IH]; [congruence| |].
  - cbn [app]. now apply join_cons.
  - change (app (x :: y :: l) l2) with (x :: app (y :: l) l2).
    rewrite join_cons by (cbn [app]; discriminate).
    rewrite IH by discriminate.
    rewrite (join_cons sep x (y :: l)) by discriminate.
    now rewrite !append_assoc.
Qed.

Lemma proxy_parts_chosen (lib : NetlocChecks) (include_proxy : bool)
    (proxy_http proxy_https full : string) (pp : list string) :
  proxy_parts lib include_proxy proxy_http proxy_https full = Some pp ->
  pp = match Spec.chosen_proxy lib include_proxy proxy_http proxy_https full with
       | Some p => ["--proxy " ++ escape_shell_string p]
       | None => []
       end.
Proof.
  unfold proxy_parts, Spec.chosen_proxy. destruct include_proxy; [|congruence].
  destruct (urlparse lib full); [|discriminate].
  destruct (_ && _); [congruence|]. destruct (_ && _); congruence.
Qed.

(** The text that the options add to a command. *)
Lemma generate_curl_command_options (lib : NetlocChecks) (request : RequestModel)
    (include_proxy : bool) (proxy_http proxy_https : string) (ssl_verify : bool)
    (command : string) :
  generate_curl_command lib request include_proxy proxy_http proxy_https ssl_verify
  = Some command ->
  exists plain full,
    full_url lib request = Some full
    /\ generate_curl_command lib request false proxy_http proxy_https true = Some plain
    /\ command
       = plain
         ++ match Spec.chosen_proxy lib include_proxy proxy_http proxy_https full with
            | Some p => " --proxy " ++ escape_shell_string p
            | None => ""
            end
         ++ (if ssl_verify then "" else " --insecure").
Proof.
  unfold generate_curl_command. destruct (full_url lib request) as [full|]; [|discriminate].
  cbn [proxy_parts negb]. cbv zeta.
  destruct (proxy_parts lib include_proxy proxy_http proxy_https full) as [pp|] eqn:P;
    [|discriminate].
  apply proxy_parts_chosen in P. rewrite app_nil_r.
  set (base := app (app (app (app (if negb (method_value (method request) =? "GET")
                                   then app ["curl"] ["-X " ++ method_value (method request)]
                                   else ["curl"])
                                  [escape_shell_string full])
                             (header_parts (headers request)))
                        (auth_parts (auth request)))
                   (body_parts request)).
  assert (N : base <> []).
  { unfold base. destruct (negb _); cbn [app]; discriminate. }
  intros G. exists (join " " base), full. split; [reflexivity|]. split; [reflexivity|].
  assert (C : command = join " " (if negb ssl_verify then app (app base pp) ["--insecure"]
                                  else app base pp)) by congruence.
  rewrite C, P. clear G C P.
  destruct (Spec.chosen_proxy lib include_proxy proxy_http proxy_https full) as [p|];
    destruct ssl_verify; cbn [negb].
  - rewrite join_app by (exact N || discriminate). now rewrite append_nil_r.
  - rewrite !join_app by (try exact N; try discriminate; destruct base; discriminate).
    cbn [join String.concat]. now rewrite !append_assoc.
  - now rewrite app_nil_r, !append_nil_r.
  - rewrite app_nil_r. rewrite join_app by (exact N || discriminate). reflexivity.
Qed.

End ExporterOptions.

Section ExportedOptionsImported.
Import PyStr Urllib Shlex HttpClient CurlImport CurlExport.

(** X5. What the options add to a command.  The command written with a
    proxy or without the verification of certificates is the command
    written without these options, followed by the proxy option when one
    is chosen (the HTTPS proxy for an https URL, the HTTP proxy for an
    http URL, each only when it is not empty) and then by the option
    insecure when the verification is off. *)
Theorem generate_curl_command_appends_options :
  forall (lib : NetlocChecks) (request : RequestModel) (include_proxy : bool)
         (proxy_http proxy_https : string) (ssl_verify : bool) (command : string),
    generate_curl_command lib request include_proxy proxy_http proxy_https ssl_verify
    = Some command ->
    exists plain full,
      full_url lib request = Some full
      /\ generate_curl_command lib request false proxy_http proxy_https true = Some plain
      /\ command
         = plain
           ++ match Spec.chosen_proxy lib include_proxy proxy_http proxy_https full with
              | Some p => " --proxy " ++ escape_shell_string p
              | None => ""
              end
           ++ (if ssl_verify then "" else " --insecure").
Proof. intros. now apply generate_curl_command_options. Qed.

Lemma generate_curl_command_appends_options_witness :
  exists plain full,
    full_url Spec.permissive
      (mkRequest POST "https://x.test/a" [] [] BODY_NONE TEXT "" [] []
                 AuthConfig_default "Default") = Some full
    /\ generate_curl_command Spec.permissive
         (mkRequest POST "https://x.test/a" [] [] BODY_NONE TEXT "" [] []
                    AuthConfig_default "Default") false "http://p:1" "http://q:2" true
       = Some plain
    /\ "curl -X POST https://x.test/a --proxy http://q:2 --insecure"
       = plain
         ++ match Spec.chosen_proxy Spec.permissive true "http://p:1" "http://q:2" full with
            | Some p => " --proxy " ++ escape_shell_string p
            | None => ""
            end
         ++ " --insecure".
Proof.
  apply (generate_curl_command_appends_options Spec.permissive
           (mkRequest POST "https://x.test/a" [] [] BODY_NONE TEXT "" [] []
                      AuthConfig_default "Default") true "http://p:1" "http://q:2" false).
  reflexivity.
Defined.

(** The words of a command written with options. *)
Lemma generate_curl_command_option_words (lib : NetlocChecks) (request : RequestModel)
    (include_proxy : bool) (proxy_http proxy_https : string) (ssl_verify : bool)
    (command : string) :
  generate_curl_command lib request include_proxy proxy_http proxy_https ssl_verify
  = Some command ->
  exists full,
    full_url lib request = Some full
    /\ command
       = "curl "
         ++ join " " (map quote
                        (app (Spec.export_words request full)
                             (Spec.option_words
                                (Spec.chosen_proxy lib include_proxy proxy_http
                                                   proxy_https full) ssl_verify))).
Proof.
  intros G. destruct (generate_curl_command_options _ _ _ _ _ _ _ G)
    as (plain & full & F & P & C).
  exists full. split; [exact F|].
  rewrite (generate_curl_command_words lib request _ _ full F) in P.
  assert (E : plain = "curl " ++ join " " (map quote (Spec.export_words request full)))
    by congruence.
  rewrite C, E. clear G P C E.
  assert (N : map quote (Spec.export_words request full) <> []).
  { unfold Spec.export_words. destruct (Spec.method_words (method request)); discriminate. }
  rewrite map_app. unfold Spec.option_words.
  destruct (Spec.chosen_proxy lib include_proxy proxy_http proxy_https full) as [p|];
    destruct ssl_verify; cbn [app map].
  - rewrite join_app by (exact N || discriminate).
    rewrite !append_nil_r, !append_assoc. reflexivity.
  - rewrite join_app by (exact N || discriminate).
    rewrite !append_assoc. reflexivity.
  - now rewrite app_nil_r, !append_nil_r.
  - rewrite join_app by (exact N || discriminate).
    rewrite !append_assoc. reflexivity.
Qed.

Lemma tokenize_generated_options (lib : NetlocChecks) (request : RequestModel)
    (include_proxy : bool) (proxy_http proxy_https : string) (ssl_verify : bool)
    (command : string) :
  generate_curl_command lib request include_proxy proxy_http proxy_https ssl_verify
  = Some command ->
  exists full,
    full_url lib request = Some full
    /\ tokenize (strip_curl_prefix command)
       = app (Spec.export_words request full)
             (Spec.option_words
                (Spec.chosen_proxy lib include_proxy proxy_http proxy_https full)
                ssl_verify).
Proof.
  intros G. destruct (generate_curl_command_option_words _ _ _ _ _ _ _ G) as (full & F & ->).
  exists full. split; [exact F|].
  assert (N : exists w ws,
             app (Spec.export_words request full)
                 (Spec.option_words
                    (Spec.chosen_proxy lib include_proxy proxy_http proxy_https full)
                    ssl_verify) = w :: ws).
  { unfold Spec.export_words. destruct (Spec.method_words (method request)); simpl; eauto. }
  destruct N as (w & ws & ->).
  rewrite strip_curl_prefix_command by apply trimmed_join_quote.
  unfold tokenize. now rewrite split_join_quote.
Qed.

Lemma scan_multipart_words_rest (items : list MultipartItem) (rest : list string) :
  forall v, scan v (app (Spec.multipart_words items) rest)
            = scan (Spec.after_flag_args add_form (Spec.multipart_words items) v) rest.
Proof.
  unfold Spec.multipart_words.
  induction items as [|i items IH]; intros v; [reflexivity|].
  cbn [flat_map]. destruct (mp_enabled i && nonempty (mp_key i)); [|apply IH].
  cbn [app Spec.after_flag_args]. rewrite <- IH. reflexivity.
Qed.

Lemma scan_body_words_rest (request : RequestModel) (rest : list string) (v : scan_vars) :
  scan v (app (Spec.body_words request) rest) = scan (Spec.after_body request v) rest.
Proof.
  unfold Spec.after_body, Spec.body_words. destruct (body_type request).
  - reflexivity.
  - destruct (nonempty (raw_body request)); reflexivity.
  - destruct (form_parts (form_data request)); reflexivity.
  - apply scan_multipart_words_rest.
Qed.

Lemma scan_export_words_rest (request : RequestModel) (full : string) (rest : list string) :
  startswith "-" full = false ->
  scan initial_vars (app (Spec.export_words request full) rest)
  = scan (Spec.after_export request full) rest.
Proof.
  intros D. unfold Spec.export_words, Spec.after_export.
  rewrite <- app_assoc. cbn [app]. rewrite <- !app_assoc.
  rewrite scan_method_words, scan_url_word; [|exact D|destruct (method request); reflexivity].
  now rewrite scan_header_words, scan_auth_words, scan_body_words_rest.
Qed.

(** The importer passes over the words of the options. *)
Lemma scan_option_words (proxy : option string) (ssl_verify : bool) (v : scan_vars) :
  scan v (Spec.option_words proxy ssl_verify) = v.
Proof. destruct proxy, ssl_verify; reflexivity. Qed.

(** The result of an import is a function of the variables of the loop,
    once there is a token. *)
Lemma parse_curl_command_by_scan (lib : NetlocChecks) (c1 c2 : string) :
  tokenize (strip_curl_prefix c1) <> [] ->
  tokenize (strip_curl_prefix c2) <> [] ->
  scan initial_vars (tokenize (strip_curl_prefix c1))
  = scan initial_vars (tokenize (strip_curl_prefix c2)) ->
  parse_curl_command lib c1 = parse_curl_command lib c2.
Proof.
  unfold parse_curl_command. cbv zeta.
  destruct (tokenize (strip_curl_prefix c1)) as [|t1 ts1]; [congruence|].
  destruct (tokenize (strip_curl_prefix c2)) as [|t2 ts2]; [congruence|].
  intros _ _ E. now rewrite E.
Qed.

(** X6. The options do not change what is imported.  When the exported
    URL does not start with a dash, importing the command written with a
    proxy or with the option insecure gives what importing the command
    written without them gives: the same request, or the same error. *)
Theorem import_passes_over_exported_options :
  forall (lib : NetlocChecks) (request : RequestModel) (include_proxy : bool)
         (proxy_http proxy_https : string) (ssl_verify : bool) (full command : string),
    full_url lib request = Some full ->
    startswith "-" full = false ->
    generate_curl_command lib request include_proxy proxy_http proxy_https ssl_verify
    = Some command ->
    exists plain,
      generate_curl_command lib request false proxy_http proxy_https true = Some plain
      /\ parse_curl_command lib command = parse_curl_command lib plain.
Proof.
  intros lib request include_proxy proxy_http proxy_https ssl_verify full command F D G.
  destruct (generate_curl_command_options _ _ _ _ _ _ _ G) as (plain & full' & F' & P & _).
  exists plain. split; [exact P|].
  destruct (tokenize_generated_options _ _ _ _ _ _ _ G) as (f1 & F1 & T1).
  assert (f1 = full) by congruence. subst f1.
  pose proof (tokenize_generated lib request proxy_http proxy_https full plain F P) as T2.
  apply parse_curl_command_by_scan.
  - rewrite T1. unfold Spec.export_words.
    destruct (Spec.method_words (method request)); discriminate.
  - rewrite T2. unfold Spec.export_words.
    destruct (Spec.method_words (method request)); discriminate.
  - rewrite T1, T2, scan_export_words_rest, scan_option_words by exact D.
    symmetry. now apply scan_export_words.
Qed.

Lemma import_passes_over_exported_options_witness :
  exists plain,
    generate_curl_command Spec.permissive
      (mkRequest POST "https://x.test/a" [] [mkKV true "K" "v"] RAW TEXT "hello" [] []
                 AuthConfig_default "Default") false "http://p:1" "http://q:2" true
    = Some plain
    /\ parse_curl_command Spec.permissive
         "curl -X POST https://x.test/a -H 'K: v' --data-raw hello --proxy http://q:2 --insecure"
       = parse_curl_command Spec.permissive plain.
Proof.
  apply (import_passes_over_exported_options Spec.permissive
           (mkRequest POST "https://x.test/a" [] [mkKV true "K" "v"] RAW TEXT "hello" [] []
                      AuthConfig_default "Default")
           true "http://p:1" "http://q:2" false "https://x.test/a"); reflexivity.
Defined.

(** X7. Quoting is undone by the importer's tokenizer.  Whatever the
    words are, one at least, the text made of them, each escaped by
    [escape_shell_string] and a space between two, is split by the
    importer into these words again: no character of a word (space, quote,
    backslash, line break) is lost or splits the word. *)
Theorem tokenize_reads_back_escaped_words :
  forall (w : string) (ws : list string),
    tokenize (join " " (map escape_shell_string (w :: ws))) = w :: ws.
Proof.
  intros w ws. unfold tokenize.
  change (map escape_shell_string (w :: ws)) with (map quote (w :: ws)).
  now rewrite split_join_quote.
Qed.

End ExportedOptionsImported.

(** ** parse_curl_command (curl_import.py): what every imported request
    satisfies *)

Section Imported.
Import PyStr Urllib Shlex HttpClient CurlImport CurlExport.

Lemma lstrip_lstrip (p : ascii -> bool) (x : string) :
  lstrip_of p (lstrip_of p x) = lstrip_of p x.
Proof.
  induction x as [|c x IH]; [reflexivity|]. simpl.
  destruct (p c) eqn:E; [exact IH|]. simpl. now rewrite E.
Qed.

Lemma rstrip_rstrip (p : ascii -> bool) (x : string) :
  rstrip_of p (rstrip_of p x) = rstrip_of p x.
Proof.
  induction x as [|c x IH]; [reflexivity|]. simpl.
  destruct (rstrip_of p x) as [|a b] eqn:E.
  - destruct (p c) eqn:Pc; [reflexivity|]. simpl. now rewrite Pc.
  - change (rstrip_of p (String c (String a b)))
      with (match rstrip_of p (String a b) with
            | EmptyString => if p c then EmptyString else String c EmptyString
            | r' => String c r'
            end).
    now rewrite IH.
Qed.

Lemma lstrip_rstrip (p : ascii -> bool) (y : string) :
  lstrip_of p y = y -> lstrip_of p (rstrip_of p y) = rstrip_of p y.
Proof.
  intros L. destruct y as [|c y]; [reflexivity|].
  destruct (lstrip_fixed p _ L) as (c' & y' & E & Pc); [discriminate|].
  injection E as <- <-. simpl.
  destruct (rstrip_of p y); [rewrite Pc|]; simpl; now rewrite Pc.
Qed.

(** [strip] does nothing to what it has returned. *)
Lemma strip_strip (x : string) : strip (strip x) = strip x.
Proof.
  unfold strip. rewrite lstrip_rstrip by apply lstrip_lstrip. apply rstrip_rstrip.
Qed.

(** A property of the variables that every turn of the loop keeps is
    kept by the loop. *)
Lemma scan_invariant (P : scan_vars -> Prop) :
  (forall a v, P v -> P (set_method a v)) ->
  (forall a v, P v -> P (scan_header a v)) ->
  (forall a v, P v -> P (set_data a v)) ->
  (forall a v, P v -> P (set_data_raw a v)) ->
  (forall a v, P v -> P (set_data_binary a v)) ->
  (forall a v, P v -> P (add_form a v)) ->
  (forall a v, P v -> P (scan_user a v)) ->
  (forall a v, P v -> P (set_url a v)) ->
  forall tokens v, P v -> P (scan v tokens).
Proof.
  intros H1 H2 H3 H4 H5 H6 H7 H8.
  induction tokens as [|t|t a rest IH1 IH2] using list_ind2; intros v Pv.
  - exact Pv.
  - rewrite scan_cons; cbv beta iota.
    repeat match goal with
           | |- context [if ?b then _ else _] => destruct b
           end; cbn [scan]; auto.
  - rewrite scan_cons; cbv beta iota.
    repeat match goal with
           | |- context [if ?b then _ else _] => destruct b
           end; auto.
Qed.

Lemma headers_scan_user a v : v_headers (scan_user a v) = v_headers v
  /\ v_bearer_token (scan_user a v) = v_bearer_token v.
Proof. unfold scan_user. destruct (split_first ":" a) as [[k x]|]; split; reflexivity. Qed.

(** The headers and the bearer token that the loop collects. *)
Lemma scan_headers (tokens : list string) :
  let v := scan initial_vars tokens in
  Forall (fun kv => Spec.imported_header (mkKV true (fst kv) (snd kv))) (v_headers v)
  /\ (forall t, v_bearer_token v = Some t -> strip t = t).
Proof.
  apply (scan_invariant
           (fun v => Forall (fun kv => Spec.imported_header (mkKV true (fst kv) (snd kv)))
                            (v_headers v)
                     /\ (forall t, v_bearer_token v = Some t -> strip t = t)));
    try (intros a v Pv; exact Pv).
  - intros a v [F B]. unfold scan_header.
    destruct (split_first ":" a) as [[k x]|]; [|split; assumption].
    destruct ((lower (str_strip k) =? "authorization")
              && startswith "bearer " (lower (str_strip x))) eqn:E.
    + split; [exact F|]. cbn [set_bearer_token v_bearer_token].
      intros t T. injection T as <-. apply strip_str_strip.
    + split; [|exact B]. cbn [add_header v_headers]. apply Forall_app. split; [exact F|].
      constructor; [|constructor].
      unfold Spec.imported_header. cbn [fst snd kv_enabled kv_key kv_value].
      rewrite !strip_str_strip. auto.
  - intros a v [F B]. destruct (headers_scan_user a v) as [-> ->]. now split.
  - split; [constructor|discriminate].
Qed.

(** X8. The headers and the auth of an imported request.  Every header
    of a request that the importer returns is enabled, has a trimmed key
    and a trimmed value, and is not an Authorization header whose value
    starts with the word bearer, in any case of letters: such a header is
    turned into the bearer token.  The auth is none, or basic with a user
    name that is not empty and no token, or bearer with a trimmed token
    that is not empty and neither user name nor password; it is bearer
    whenever the loop has collected a token that is not empty, whatever
    the option -u gave. *)
Theorem imported_headers_and_auth :
  forall (lib : NetlocChecks) (curl_string : string) (r : RequestModel),
    parse_curl_command lib curl_string = Ok r ->
    Forall Spec.imported_header (headers r)
    /\ match auth_type (auth r) with
       | AUTH_NONE => auth r = AuthConfig_default
       | BASIC => username (auth r) <> "" /\ bearer_token (auth r) = ""
       | BEARER =>
           bearer_token (auth r) <> "" /\ strip (bearer_token (auth r)) = bearer_token (auth r)
           /\ username (auth r) = "" /\ password (auth r) = ""
       end
    /\ (forall token,
          v_bearer_token (scan initial_vars (tokenize (strip_curl_prefix curl_string)))
          = Some token ->
          token <> "" -> auth r = mkAuth BEARER "" "" token).
Proof.
  intros lib curl r P.
  destruct (parse_curl_command_ok lib curl r P) as (_ & _ & H & _ & _ & _ & _ & _ & A).
  destruct (scan_headers (tokenize (strip_curl_prefix curl))) as [F B].
  split; [|split].
  - rewrite H. apply Forall_map. exact F.
  - rewrite A. unfold set_auth.
    destruct (v_bearer_token _) as [[|c t]|] eqn:T.
    + destruct (v_auth_user _) as [[|c u]|]; cbn; auto; split; [discriminate|reflexivity].
    + cbn [auth_type bearer_token username password].
      split; [discriminate|]. split; [now apply B|]. split; reflexivity.
    + destruct (v_auth_user _) as [[|c u]|]; cbn; auto; split; [discriminate|reflexivity].
  - intros token T N. rewrite A. unfold set_auth. rewrite T.
    destruct token; [congruence|reflexivity].
Qed.

Lemma imported_headers_and_auth_witness :
  Forall Spec.imported_header [mkKV true "Accept" "text/plain"]
  /\ match auth_type (mkAuth BEARER "" "" "tok") with
     | AUTH_NONE => mkAuth BEARER "" "" "tok" = AuthConfig_default
     | BASIC => username (mkAuth BEARER "" "" "tok") <> ""
                /\ bearer_token (mkAuth BEARER "" "" "tok") = ""
     | BEARER =>
         bearer_token (mkAuth BEARER "" "" "tok") <> ""
         /\ strip (bearer_token (mkAuth BEARER "" "" "tok"))
            = bearer_token (mkAuth BEARER "" "" "tok")
         /\ username (mkAuth BEARER "" "" "tok") = ""
         /\ password (mkAuth BEARER "" "" "tok") = ""
     end
  /\ (forall token,
        v_bearer_token
          (scan initial_vars
             (tokenize
                (strip_curl_prefix
                   "curl -u me:pw -H ' Accept :text/plain ' -H 'authorization: BEARER  tok ' http://x.test/")))
        = Some token ->
        token <> "" -> mkAuth BEARER "" "" "tok" = mkAuth BEARER "" "" token).
Proof.
  apply (imported_headers_and_auth Spec.permissive
           "curl -u me:pw -H ' Accept :text/plain ' -H 'authorization: BEARER  tok ' http://x.test/"
           (mkRequest GET "http://x.test/" [] [mkKV true "Accept" "text/plain"]
                      BODY_NONE TEXT "" [] [] (mkAuth BEARER "" "" "tok") "Default")).
  reflexivity.
Defined.

End Imported.

Section ImportedBody.
Import PyStr Urllib Shlex HttpClient CurlImport CurlExport.

Lemma has_char_app_false (c : ascii) (a b : string) :
  has_char c (a ++ b) = false -> has_char c a = false /\ has_char c b = false.
Proof. rewrite has_char_append. apply orb_false_iff. Qed.

(** The pairs that the importer makes of a form text. *)
Lemma form_pairs_fields (content : string) :
  Forall (fun p => kv_enabled p = true
                   /\ has_char "=" (kv_key p) = false
                   /\ has_char "&" (kv_key p) = false
                   /\ has_char "&" (kv_value p) = false) (form_pairs content).
Proof.
  unfold form_pairs. pose proof (split_char_pieces "&" content) as F.
  induction F as [|x xs Hx F IH]; [constructor|]. cbn [flat_map].
  apply Forall_app. split; [|exact IH].
  destruct (split_first "=" x) as [[k v]|] eqn:E; [|constructor].
  apply split_first_spec in E as [-> K]. constructor; [|constructor].
  cbn [kv_enabled kv_key kv_value].
  apply has_char_app_false in Hx as [Hk Hv].
  change (has_char "&" ("=" ++ v) = false) in Hv.
  apply has_char_app_false in Hv as [_ Hv]. auto.
Qed.

(** The items that the importer makes of the arguments of -F. *)
Lemma multipart_items_fields (items : list string) :
  Forall (fun i => mp_enabled i = true
                   /\ has_char "=" (mp_key i) = false
                   /\ (mp_type i = "file"
                       \/ (mp_type i = "text" /\ startswith "@" (mp_value i) = false)))
         (multipart_items items).
Proof.
  unfold multipart_items. induction items as [|x xs IH]; [constructor|]. cbn [flat_map].
  apply Forall_app. split; [|exact IH].
  destruct (split_first "=" x) as [[k v]|] eqn:E; [|constructor].
  apply split_first_spec in E as [-> K].
  destruct (startswith "@" v) eqn:S; constructor; try constructor;
    cbn [mp_enabled mp_key mp_type mp_value]; auto.
Qed.

(** X9. The body of an imported request is of one kind.  Whatever the
    command, a request that the importer returns fills only the fields of
    its body type: without a body, nothing; a raw body, its trimmed text
    alone, typed JSON exactly when the text starts with a brace or a
    bracket and text otherwise; a form, its pairs alone, each enabled, with
    a key free of both separators and a value free of ampersands; a
    multipart body, its items alone, each enabled, with a key free of the
    equals sign, and typed file or, when its value does not start with an
    at sign, text.  The environment is Default and every query parameter
    is enabled. *)
Theorem imported_body_is_of_one_kind :
  forall (lib : NetlocChecks) (curl_string : string) (r : RequestModel),
    parse_curl_command lib curl_string = Ok r ->
    match body_type r with
    | BODY_NONE =>
        raw_body_type r = TEXT /\ raw_body r = "" /\ form_data r = []
        /\ multipart_data r = []
    | RAW =>
        form_data r = [] /\ multipart_data r = []
        /\ strip (raw_body r) = raw_body r
        /\ raw_body_type r
           = (if startswith "{" (raw_body r) || startswith "[" (raw_body r)
              then JSON else TEXT)
    | FORM_URLENCODED =>
        raw_body_type r = TEXT /\ raw_body r = "" /\ multipart_data r = []
        /\ Forall (fun p => kv_enabled p = true
                            /\ has_char "=" (kv_key p) = false
                            /\ has_char "&" (kv_key p) = false
                            /\ has_char "&" (kv_value p) = false) (form_data r)
    | MULTIPART =>
        raw_body_type r = TEXT /\ raw_body r = "" /\ form_data r = []
        /\ Forall (fun i => mp_enabled i = true
                            /\ has_char "=" (mp_key i) = false
                            /\ (mp_type i = "file"
                                \/ (mp_type i = "text"
                                    /\ startswith "@" (mp_value i) = false)))
                  (multipart_data r)
    end
    /\ environment r = "Default"
    /\ Forall (fun p => kv_enabled p = true) (query_params r).
Proof.
  intros lib curl r P.
  destruct (parse_curl_command_ok lib curl r P) as (_ & _ & _ & B1 & B2 & B3 & B4 & B5 & _).
  split; [|split].
  - rewrite B1, B2, B3, B4, B5. clear. unfold set_body.
    destruct (body_content _) as [[|c0 s0]|].
    + destruct (v_form_data _);
        cbn [b_body_type b_raw_body_type b_raw_body b_form_data b_multipart_data];
        auto using multipart_items_fields.
    + destruct (startswith "{" (str_strip (String c0 s0))
                || startswith "[" (str_strip (String c0 s0)))
        eqn:J.
      * cbn [b_body_type b_raw_body_type b_raw_body b_form_data b_multipart_data].
        rewrite J. auto using strip_str_strip.
      * destruct (has_char "=" (str_strip (String c0 s0))
                  && has_char "&" (str_strip (String c0 s0))).
        -- cbn [b_body_type b_raw_body_type b_raw_body b_form_data b_multipart_data].
           auto using form_pairs_fields.
        -- cbn [b_body_type b_raw_body_type b_raw_body b_form_data b_multipart_data].
           rewrite J. auto using strip_str_strip.
    + destruct (v_form_data _);
        cbn [b_body_type b_raw_body_type b_raw_body b_form_data b_multipart_data];
        auto using multipart_items_fields.
  - unfold parse_curl_command in P. cbv zeta in P.
    destruct (tokenize _); [discriminate|].
    destruct (v_url _) as [[|c0 u0]|]; try discriminate.
    destruct (urlparse lib _); [|discriminate]. now injection P as <-.
  - unfold parse_curl_command in P. cbv zeta in P.
    destruct (tokenize _); [discriminate|].
    destruct (v_url _) as [[|c0 u0]|]; try discriminate.
    destruct (urlparse lib _); [|discriminate]. injection P as <-.
    cbn [query_params]. apply Forall_map, Forall_forall. reflexivity.
Qed.

Lemma imported_body_is_of_one_kind_witness :
  let r := mkRequest GET "http://x.test/" [] [] FORM_URLENCODED TEXT ""
                     [mkKV true "a" "1"; mkKV true "b" "2=3"] []
                     AuthConfig_default "Default" in
  (raw_body_type r = TEXT /\ raw_body r = "" /\ multipart_data r = []
   /\ Forall (fun p => kv_enabled p = true
                       /\ has_char "=" (kv_key p) = false
                       /\ has_char "&" (kv_key p) = false
                       /\ has_char "&" (kv_value p) = false) (form_data r))
  /\ environment r = "Default"
  /\ Forall (fun p => kv_enabled p = true) (query_params r).
Proof.
  exact (imported_body_is_of_one_kind Spec.permissive
           "curl http://x.test/ -F f=@/tmp/x -d ' a=1&skipped&b=2=3 '"
           (mkRequest GET "http://x.test/" [] [] FORM_URLENCODED TEXT ""
                      [mkKV true "a" "1"; mkKV true "b" "2=3"] []
                      AuthConfig_default "Default") eq_refl).
Defined.

End ImportedBody.

Section ImportedTokens.
Import PyStr Urllib Shlex HttpClient CurlImport CurlExport.

Lemma fallback_step_tokens (st : fallback_state) (c : ascii) :
  Forall (fun t => t <> "") (fb_tokens st) ->
  Forall (fun t => t <> "") (fb_tokens (fallback_step st c)).
Proof.
  intros F. unfold fallback_step. destruct (fb_quote_char st) as [q|].
  - destruct (Ascii.eqb c q); exact F.
  - destruct (Ascii.eqb c dquote || Ascii.eqb c squote); [exact F|].
    destruct (Ascii.eqb c " "); [|exact F].
    destruct (fb_current st) eqn:E; [exact F|]. cbn [nonempty fb_tokens].
    apply Forall_app. split; [exact F|]. constructor; [discriminate|constructor].
Qed.

Lemma fallback_run_tokens (s : string) :
  forall st, Forall (fun t => t <> "") (fb_tokens st) ->
             Forall (fun t => t <> "") (fb_tokens (fallback_run st s)).
Proof.
  induction s as [|c s IH]; intros st F; [exact F|].
  cbn [fallback_run]. apply IH, fallback_step_tokens, F.
Qed.

(** The hand-written tokenizer on a text without quotes. *)
Lemma fallback_run_plain (s : string) :
  has_char dquote s = false -> has_char squote s = false ->
  forall tokens current,
    has_char " " current = false ->
    Spec.fallback_finish (fallback_run (mkFallback tokens current None) s)
    = app tokens (filter nonempty (split_char " " (current ++ s))).
Proof.
  induction s as [|c s IH]; intros D S tokens current N.
  - cbn [fallback_run]. rewrite append_nil_r, (split_char_plain " " current N).
    unfold Spec.fallback_finish. cbn [fb_current fb_tokens filter].
    destruct (nonempty current); [reflexivity|now rewrite app_nil_r].
  - unfold has_char in D, S. cbn [exists_str] in D, S.
    apply orb_false_iff in D as [Dc D]. apply orb_false_iff in S as [Sc S].
    cbn [fallback_run]. unfold fallback_step. cbn [fb_quote_char fb_current fb_tokens].
    rewrite (Ascii.eqb_sym c dquote), Dc, (Ascii.eqb_sym c squote), Sc. cbn [orb].
    destruct (Ascii.eqb_spec c " ") as [->|C].
    + rewrite (split_char_append " " current s N). cbn [filter].
      destruct current as [|a current]; cbn [nonempty].
      * apply (IH D S tokens "" eq_refl).
      * rewrite (IH D S (app tokens [String a current]) "" eq_refl). cbn [append].
        now rewrite <- app_assoc.
    + rewrite (IH D S tokens (current ++ String c "")).
      * now rewrite append_assoc.
      * rewrite has_char_append, N. unfold has_char. cbn [exists_str orb].
        rewrite orb_false_r. apply Ascii.eqb_neq. congruence.
Qed.

(** X10. The tokenizer that takes over when [shlex.split] fails.  It
    returns no empty token.  On a text without quotes its tokens are the
    pieces between spaces that are not empty: only the space separates, a
    tab or a line break stays inside its token, and a backslash is kept as
    it is.  The importer uses it exactly when [shlex.split] raises, and
    the tokens of [shlex.split] otherwise. *)
Theorem fallback_tokens_are_the_pieces_between_spaces :
  forall s : string,
    Forall (fun t => t <> "") (fallback_split s)
    /\ (has_char dquote s = false -> has_char squote s = false ->
        fallback_split s = filter nonempty (split_char " " s))
    /\ (Shlex.split s = None -> tokenize s = fallback_split s)
    /\ (forall tokens, Shlex.split s = Some tokens -> tokenize s = tokens).
Proof.
  intros s. split; [|split; [|split]].
  - unfold fallback_split.
    pose proof (fallback_run_tokens s (mkFallback [] "" None) (Forall_nil _)) as F.
    destruct (fb_current _) eqn:E; [exact F|]. cbn [nonempty].
    apply Forall_app. split; [exact F|]. constructor; [discriminate|constructor].
  - intros D S. apply (fallback_run_plain s D S [] "" eq_refl).
  - intros E. unfold tokenize. now rewrite E.
  - intros tokens E. unfold tokenize. now rewrite E.
Qed.

End ImportedTokens.

Section Reexport.
Import PyStr Urllib Shlex HttpClient CurlImport CurlExport.










Example export_of_imported_example :
  full_url Spec.permissive
    (mkRequest GET "http://x.test/p?a=1&b=2&a=3"
               [mkKV true "a" "1"; mkKV true "a" "3"; mkKV true "b" "2"] []
               BODY_NONE TEXT "" [] [] AuthConfig_default "Default")
  = Some "http://x.test/p?a=3&b=2".
Proof. reflexivity. Qed.

End Reexport.

(** ** to_dict and from_dict (models.py) *)

Section ModelDictFacts.
Import PyStr Persistence ModelDicts.

Lemma collect_map {A : Type} (from_dict : json -> built A) (to_dict : A -> json)
    (l : list A) :
  (forall x, from_dict (to_dict x) = Built x) ->
  collect (map from_dict (map to_dict l)) = Built l.
Proof.
  intros R. induction l as [|x l IH]; [reflexivity|].
  cbn [map collect]. now rewrite R, IH.
Qed.

Lemma comprehension_map {A : Type} (from_dict : json -> built A) (to_dict : A -> json)
    (l : list A) :
  (forall x, from_dict (to_dict x) = Built x) ->
  comprehension from_dict (JArray (map to_dict l)) = Built l.
Proof. intros R. unfold comprehension. cbn [iterate]. now apply collect_map. Qed.

Lemma KeyValuePair_round_trip (p : KeyValuePair) :
  KeyValuePair_from_dict (KeyValuePair_to_dict p) = Built p.
Proof. destruct p. reflexivity. Qed.

Lemma MultipartItem_round_trip (m : MultipartItem) :
  MultipartItem_from_dict (MultipartItem_to_dict m) = Built m.
Proof. destruct m. reflexivity. Qed.

Lemma AuthConfig_round_trip (a : AuthConfig) :
  AuthConfig_from_dict (AuthConfig_to_dict a) = Built a.
Proof. destruct a as [t u p b]. destruct t; reflexivity. Qed.

Lemma RequestModel_round_trip (r : RequestModel) :
  RequestModel_from_dict (RequestModel_to_dict r) = Built r.
Proof.
  destruct r as [m u qs hs bt rt rb fd md a e].
  unfold RequestModel_from_dict, RequestModel_to_dict, field.
  cbn [PyDict.get String.eqb Ascii.eqb Bool.eqb method url query_params headers body_type
       raw_body_type raw_body form_data multipart_data auth environment].
  rewrite !(comprehension_map _ _ _ KeyValuePair_round_trip).
  rewrite (comprehension_map _ _ _ MultipartItem_round_trip).
  rewrite AuthConfig_round_trip.
  destruct m, bt, rt; reflexivity.
Qed.

Lemma CollectionItem_round_trip (i : CollectionItem) :
  CollectionItem_from_dict (CollectionItem_to_dict i) = Built i.
Proof.
  destruct i as [n r]. unfold CollectionItem_from_dict, CollectionItem_to_dict, field.
  cbn [PyDict.get String.eqb Ascii.eqb Bool.eqb item_name item_request].
  now rewrite RequestModel_round_trip.
Qed.

Lemma Collection_round_trip (c : Collection) :
  Collection_from_dict (Collection_to_dict c) = Built c.
Proof.
  destruct c as [n items]. unfold Collection_from_dict, Collection_to_dict, field.
  cbn [PyDict.get String.eqb Ascii.eqb Bool.eqb coll_name coll_items].
  now rewrite (comprehension_map _ _ _ CollectionItem_round_trip).
Qed.

(** X12. A request survives its dict.  [from_dict] applied to what
    [to_dict] returns gives the object back, field for field, for a key
    and value pair, a multipart item, an auth configuration and a whole
    request: no field is renamed, reordered into another, or lost, and
    the value of every enum is read back as its member. *)
Theorem request_from_dict_of_to_dict :
  (forall p, KeyValuePair_from_dict (KeyValuePair_to_dict p) = Built p)
  /\ (forall m, MultipartItem_from_dict (MultipartItem_to_dict m) = Built m)
  /\ (forall a, AuthConfig_from_dict (AuthConfig_to_dict a) = Built a)
  /\ (forall r, RequestModel_from_dict (RequestModel_to_dict r) = Built r).
Proof.
  split; [|split; [|split]].
  - exact KeyValuePair_round_trip.
  - exact MultipartItem_round_trip.
  - exact AuthConfig_round_trip.
  - exact RequestModel_round_trip.
Qed.

(** X13. A collection survives its dict: [from_dict] applied to what
    [to_dict] returns gives the collection back, with its items in their
    order and the request of each. *)
Theorem collection_from_dict_of_to_dict :
  (forall i, CollectionItem_from_dict (CollectionItem_to_dict i) = Built i)
  /\ (forall c, Collection_from_dict (Collection_to_dict c) = Built c).
Proof. split; [exact CollectionItem_round_trip | exact Collection_round_trip]. Qed.

Lemma field_set_other (k k' : string) (v default : json) (d : PyDict.dict json) :
  k <> k' -> field k' default (PyDict.set k v d) = field k' default d.
Proof. intros N. unfold field. now rewrite get_set_other. Qed.

(** X14. What a request's [from_dict] does not look at, and what it
    does without.  A key that is not the name of a field changes nothing:
    the dict with such a key added is read as the dict without it.  A
    field that is absent takes its default, so that the empty dict is read
    as the default request.  A method that is not the value of a member of
    the enum, in its exact letters, raises: there is no fall back to GET
    here. *)
Theorem request_from_dict_defaults_and_unknown_keys :
  forall (d : PyDict.dict json) (k : string) (v : json),
    (~ In k ["method"; "url"; "query_params"; "headers"; "body_type"; "raw_body_type";
             "raw_body"; "form_data"; "multipart_data"; "auth"; "environment"] ->
     RequestModel_from_dict (JObject (PyDict.set k v d)) = RequestModel_from_dict (JObject d))
    /\ RequestModel_from_dict (JObject []) = Built RequestModel_default
    /\ (forall s, PyDict.get "method" d = Some (JString s) -> HttpMethod_of s = None ->
          RequestModel_from_dict (JObject d) = Raises).
Proof.
  intros d k v. split; [|split]; [|reflexivity|].
  - intros N. unfold RequestModel_from_dict.
    rewrite !field_set_other; [reflexivity| | | | | | | | | | |];
      intros ->; apply N; cbn [In]; tauto.
  - intros s G E. unfold RequestModel_from_dict, field at 1. rewrite G.
    unfold an_enum at 1. rewrite E. reflexivity.
Qed.

End ModelDictFacts.

(** ** The collections and the history files (persistence.py) *)

Section StorageFacts.
Import PyStr Persistence ModelDicts Storage.

Lemma collect_raises {A : Type} (l : list (built A)) : In Raises l -> collect l = Raises.
Proof.
  induction l as [|x l IH]; [intros []|]. intros [->|I]; [reflexivity|].
  cbn [collect]. rewrite (IH I). now destruct x.
Qed.

(** X15. Collections that are saved are loaded again.  When the file can
    be written, [load_collections] after [save_collections] returns the
    collections that were saved, in their order, with every item and every
    request as it was; when it cannot, the file is left as it is. *)
Theorem load_collections_after_save_collections :
  forall (collections : list Collection) (f : json_file),
    (file_writable f = true ->
     load_collections (save_collections collections f) = Built collections)
    /\ (file_writable f = false -> save_collections collections f = f).
Proof.
  intros collections f. unfold save_collections, write_json. split; intros W; rewrite W.
  - unfold load_collections. cbn [file_content].
    now rewrite (comprehension_map _ _ _ Collection_round_trip).
  - reflexivity.
Qed.

(** X16. One collection that cannot be read loses them all.  When the
    file holds a list one element of which makes [Collection.from_dict]
    raise (an element that is not an object, say, or one of whose requests
    has a method outside the enum), [load_collections] returns the empty
    list: the collections that could be read are not returned. *)
Theorem load_collections_loses_all_on_one_bad :
  forall (f : json_file) (items : list json) (item : json),
    file_content f = Present (Some (JArray items)) ->
    In item items ->
    Collection_from_dict item = Raises ->
    load_collections f = Built [].
Proof.
  intros f items item F I R. unfold load_collections. rewrite F.
  unfold comprehension. cbn [iterate].
  rewrite collect_raises; [reflexivity|]. rewrite <- R. now apply in_map.
Qed.

Lemma load_collections_loses_all_on_one_bad_witness :
  load_collections
    (mkFile (Present (Some (JArray
       [Collection_to_dict (mkCollection "kept" [mkItem "a" RequestModel_default]);
        JObject [("name", JString "bad");
                 ("items", JArray [JObject [("request",
                                             JObject [("method", JString "get")])]])]])))
            true)
  = Built [].
Proof.
  apply (load_collections_loses_all_on_one_bad _
           [Collection_to_dict (mkCollection "kept" [mkItem "a" RequestModel_default]);
            JObject [("name", JString "bad");
                     ("items", JArray [JObject [("request",
                                                 JObject [("method", JString "get")])]])]]
           (JObject [("name", JString "bad");
                     ("items", JArray [JObject [("request",
                                                 JObject [("method", JString "get")])]])])).
  - reflexivity.
  - right. left. reflexivity.
  - reflexivity.
Defined.

Section HistoryFacts.
Variable Entry : Type.
Variable to_dict : Entry -> json.
Variable from_dict : nat -> json -> option Entry.

Lemma entries_from_map (l : list Entry) :
  (forall i e, from_dict i (to_dict e) = Some e) ->
  forall i, entries_from Entry from_dict i (map to_dict l) = Some l.
Proof.
  intros R. induction l as [|e l IH]; intros i; [reflexivity|].
  cbn [map entries_from]. now rewrite R, IH.
Qed.

Lemma entries_from_none (items : list json) :
  forall i n item,
    nth_error items n = Some item -> from_dict (i + n) item = None ->
    entries_from Entry from_dict i items = None.
Proof.
  induction items as [|x items IH]; intros i n item N F.
  - destruct n; discriminate.
  - destruct n as [|n]; cbn [nth_error] in N.
    + injection N as ->. rewrite Nat.add_0_r in F. cbn [entries_from]. now rewrite F.
    + cbn [entries_from]. destruct (from_dict i x); [|reflexivity].
      rewrite (IH (S i) n item N); [reflexivity|].
      now rewrite Nat.add_succ_l, <- Nat.add_succ_r.
Qed.

Lemma length_firstn_le {A : Type} (n : nat) (l : list A) : List.length (firstn n l) <= n.
Proof. rewrite length_firstn. apply Nat.le_min_l. Qed.

Lemma add_history_entry_written (entry : Entry) (f : json_file) :
  file_writable f = true ->
  file_content (add_history_entry Entry to_dict from_dict entry f)
  = Present (Some (JArray (to_dict entry
                           :: map to_dict (firstn 999 (load_history Entry from_dict f))))).
Proof.
  intros W. unfold add_history_entry, save_history, write_json. cbv zeta. rewrite W.
  reflexivity.
Qed.

End HistoryFacts.

(** X17. The history file is capped, the newest entry first.  When the
    file can be written, [add_history_entry] leaves in it a list that
    starts with the new entry, goes on with the entries that
    [load_history] had found, in their order, as far as the first 999 of
    them, and so never has more than 1000 elements.  [clear_history]
    leaves the empty list, which is loaded as no entry.  When the file
    cannot be written, both leave it as it is. *)
Theorem add_history_entry_keeps_newest_thousand :
  forall (Entry : Type) (to_dict : Entry -> json) (from_dict : nat -> json -> option Entry)
         (entry : Entry) (f : json_file),
    (file_writable f = true ->
     exists items,
       file_content (add_history_entry Entry to_dict from_dict entry f)
       = Present (Some (JArray items))
       /\ List.length items <= 1000
       /\ items = to_dict entry
                  :: map to_dict (firstn 999 (load_history Entry from_dict f))
       /\ load_history Entry from_dict (clear_history Entry to_dict f) = [])
    /\ (file_writable f = false ->
        add_history_entry Entry to_dict from_dict entry f = f
        /\ clear_history Entry to_dict f = f).
Proof.
  intros Entry to_dict from_dict entry f. split; intros W.
  - eexists. split; [now apply add_history_entry_written|]. split; [|split].
    + cbn [List.length]. rewrite length_map.
      pose proof (length_firstn_le 999 (load_history Entry from_dict f)). lia.
    + reflexivity.
    + unfold clear_history, save_history, write_json. rewrite W. reflexivity.
  - unfold add_history_entry, clear_history, save_history, write_json. cbv zeta.
    now rewrite W.
Qed.

(** X18. The history that is read back.  When [from_dict] gives back
    every entry that [to_dict] wrote and the file can be written, loading
    the history after [add_history_entry] returns the new entry followed
    by the entries that were loaded before, cut after the thousandth. *)
Theorem load_history_after_add_history_entry :
  forall (Entry : Type) (to_dict : Entry -> json) (from_dict : nat -> json -> option Entry)
         (entry : Entry) (f : json_file),
    (forall i e, from_dict i (to_dict e) = Some e) ->
    file_writable f = true ->
    load_history Entry from_dict (add_history_entry Entry to_dict from_dict entry f)
    = firstn 1000 (entry :: load_history Entry from_dict f).
Proof.
  intros Entry to_dict from_dict entry f R W.
  unfold load_history at 1. rewrite add_history_entry_written by exact W.
  cbn [iterate].
  change (to_dict entry :: map to_dict (firstn 999 (load_history Entry from_dict f)))
    with (map to_dict (entry :: firstn 999 (load_history Entry from_dict f))).
  now rewrite entries_from_map.
Qed.

Lemma load_history_after_add_history_entry_witness :
  load_history string (fun _ j => match j with JString s => Some s | _ => None end)
    (add_history_entry string JString
       (fun _ j => match j with JString s => Some s | _ => None end)
       "new" (mkFile (Present (Some (JArray [JString "old"; JString "older"]))) true))
  = firstn 1000
      ("new" :: load_history string
                  (fun _ j => match j with JString s => Some s | _ => None end)
                  (mkFile (Present (Some (JArray [JString "old"; JString "older"]))) true)).
Proof.
  apply (load_history_after_add_history_entry string JString
           (fun _ j => match j with JString s => Some s | _ => None end)).
  - reflexivity.
  - reflexivity.
Defined.

(** X19. A history that cannot be read is replaced.  When the file
    holds a list one element of which makes [from_dict] raise,
    [load_history] returns no entry at all, and [add_history_entry] then
    writes a history of the new entry alone: the entries that the file
    held are gone. *)
Theorem add_history_entry_replaces_unreadable_history :
  forall (Entry : Type) (to_dict : Entry -> json) (from_dict : nat -> json -> option Entry)
         (entry : Entry) (f : json_file) (items : list json) (n : nat) (item : json),
    file_content f = Present (Some (JArray items)) ->
    nth_error items n = Some item ->
    from_dict n item = None ->
    load_history Entry from_dict f = []
    /\ (file_writable f = true ->
        file_content (add_history_entry Entry to_dict from_dict entry f)
        = Present (Some (JArray [to_dict entry]))).
Proof.
  intros Entry to_dict from_dict entry f items n item F N R.
  assert (L : load_history Entry from_dict f = []).
  { unfold load_history. rewrite F. cbn [iterate].
    now rewrite (entries_from_none Entry from_dict items 0 n item N R). }
  split; [exact L|]. intros W. rewrite add_history_entry_written by exact W.
  now rewrite L.
Qed.

Lemma add_history_entry_replaces_unreadable_history_witness :
  load_history string (fun _ j => match j with JString s => Some s | _ => None end)
    (mkFile (Present (Some (JArray [JString "old"; JNull; JString "older"]))) true) = []
  /\ (file_writable
        (mkFile (Present (Some (JArray [JString "old"; JNull; JString "older"]))) true)
      = true ->
      file_content
        (add_history_entry string JString
           (fun _ j => match j with JString s => Some s | _ => None end)
           "new" (mkFile (Present (Some (JArray [JString "old"; JNull; JString "older"])))
                         true))
      = Present (Some (JArray [JString "new"]))).
Proof.
  apply (add_history_entry_replaces_unreadable_history string JString
           (fun _ j => match j with JString s => Some s | _ => None end)
           "new" _ [JString "old"; JNull; JString "older"] 1 JNull); reflexivity.
Defined.

End StorageFacts.

(** ** The environments file, saved and loaded (persistence.py, app.py) *)

Section EnvironmentsSaved.
Import PyStr Persistence.

Lemma Environment_round_trip (e : EnvironmentData) :
  Environment_from_dict (Environment_to_dict e) = Some e.
Proof. destruct e. reflexivity. Qed.

Lemma load_entries_saved (environments : PyDict.dict EnvironmentData) :
  load_entries (map (fun '(name, env) => (name, Environment_to_dict env)) environments)
  = Some environments.
Proof.
  induction environments as [|[name e] l IH]; [reflexivity|].
  cbn [map load_entries]. now rewrite Environment_round_trip, IH.
Qed.

Lemma load_environments_saved (environments : PyDict.dict EnvironmentData) (d : disk) :
  writable d = true ->
  load_environments (save_environments environments d)
  = (environments, save_environments environments d).
Proof.
  intros W. unfold save_environments. rewrite W. unfold load_environments.
  cbn [environments_file]. now rewrite load_entries_saved.
Qed.

Lemma default_environment_mem (d : disk) :
  PyDict.mem "Default" (fst (create_main_window_environments d)) = true.
Proof.
  unfold create_main_window_environments.
  destruct (load_environments d) as [envs d'].
  destruct (PyDict.mem "Default" envs) eqn:M; cbn [negb fst]; [exact M|].
  unfold PyDict.mem. now rewrite get_set_same.
Qed.

(** X20. Environments that are saved are loaded again.  When the file
    can be written, [load_environments] after [save_environments] returns
    the environments that were saved, name for name in their order, each
    with its name and its variables, and writes nothing more; when it
    cannot, [save_environments] leaves the file as it is. *)
Theorem load_environments_after_save_environments :
  forall (environments : PyDict.dict EnvironmentData) (d : disk),
    (writable d = true ->
     load_environments (save_environments environments d)
     = (environments, save_environments environments d))
    /\ (writable d = false -> save_environments environments d = d).
Proof.
  intros environments d. split; intros W.
  - now apply load_environments_saved.
  - unfold save_environments. now rewrite W.
Qed.

(** X21. What start-up holds is what the file holds.  When the file can
    be written, the environments that the application holds after
    start-up, Default among them, are those that [load_environments]
    returns from the file as start-up left it, and that load writes
    nothing: a second start-up finds what the first one held. *)
Theorem startup_environments_are_on_disk :
  forall d : disk,
    writable d = true ->
    load_environments (snd (create_main_window_environments d))
    = create_main_window_environments d
    /\ create_main_window_environments (snd (create_main_window_environments d))
       = create_main_window_environments d.
Proof.
  intros d W.
  assert (L : load_environments (snd (create_main_window_environments d))
              = create_main_window_environments d).
  { unfold create_main_window_environments.
    destruct (load_environments d) as [envs d'] eqn:E.
    assert (D : d' = d \/ (environments_file d = Absent
                           /\ envs = [("Default", default_env)]
                           /\ d' = save_environments [("Default", default_env)] d)).
    { unfold load_environments in E. destruct (environments_file d) as [|[[]|]].
      - right. injection E as <- <-. auto.
      - left. now injection E as _ <-.
      - left. now injection E as _ <-.
      - left. now injection E as _ <-.
      - left. now injection E as _ <-.
      - left. now injection E as _ <-.
      - left. destruct (load_entries members); now injection E as _ <-.
      - left. now injection E as _ <-. }
    destruct (negb (PyDict.mem "Default" envs)) eqn:M; cbn [snd].
    - destruct D as [->|(_ & _ & ->)].
      + now apply load_environments_saved.
      + apply load_environments_saved. unfold save_environments. now rewrite W.
    - destruct D as [->|(_ & -> & ->)]; [exact E|].
      now apply load_environments_saved. }
  split; [exact L|].
  unfold create_main_window_environments at 1. rewrite L.
  destruct (create_main_window_environments d) as [envs d'] eqn:C.
  assert (M : PyDict.mem "Default" envs = true).
  { pose proof (default_environment_mem d) as H. now rewrite C in H. }
  now rewrite M.
Qed.

Lemma startup_environments_are_on_disk_witness :
  let d := mkDisk (Present (Some (JObject [("Prod", JObject [("name", JString "Prod");
                                                              ("variables", JObject [])])])))
                  true in
  load_environments (snd (create_main_window_environments d))
  = create_main_window_environments d
  /\ create_main_window_environments (snd (create_main_window_environments d))
     = create_main_window_environments d.
Proof.
  exact (startup_environments_are_on_disk
           (mkDisk (Present (Some (JObject [("Prod", JObject [("name", JString "Prod");
                                                               ("variables", JObject [])])])))
                   true) eq_refl).
Defined.

End EnvironmentsSaved.

(** ** The name of a history entry (models.py) and the URL that is sent
    against the URL that is exported *)

Section NamesAndUrls.
Import PyStr Urllib HttpClient CurlExport ModelDicts.







End NamesAndUrls.

(** ** The collections that the window holds (ui_history.py, ui_main.py) *)

Section CollectionsHeld.
Import PyStr UiCollections.




Lemma import_collections_filter (existing collections : list Collection) :
  import_collections existing collections
  = app existing
        (filter (fun c => negb (existsb (String.eqb (coll_name c)) (map coll_name existing)))
                collections).
Proof.
  unfold import_collections. cbv zeta. generalize (map coll_name existing) as names.
  intros names. revert existing.
  induction collections as [|c cs IH]; intros existing; cbn [fold_left filter].
  - now rewrite app_nil_r.
  - rewrite IH. destruct (negb _); [now rewrite <- app_assoc|reflexivity].
Qed.

Lemma existsb_app_left {A : Type} (p : A -> bool) (l1 l2 : list A) :
  existsb p l1 = true -> existsb p (app l1 l2) = true.
Proof. intros E. rewrite existsb_app, E. reflexivity. Qed.

(** X25. Importing collections leaves the existing ones alone.  The
    merge keeps every existing collection as it is and in its place, and
    adds after them, in their order, the imported collections whose name no
    existing collection has; an imported collection with the name of an
    existing one is left out with all its items.  So importing the same
    collections a second time adds nothing. *)
Theorem import_collections_keeps_existing :
  forall existing collections : list Collection,
    import_collections existing collections
    = app existing
          (filter (fun c => negb (existsb (String.eqb (coll_name c))
                                          (map coll_name existing))) collections)
    /\ import_collections (import_collections existing collections) collections
       = import_collections existing collections.
Proof.
  intros existing collections. split; [apply import_collections_filter|].
  rewrite (import_collections_filter (import_collections existing collections)).
  transitivity (app (import_collections existing collections) []); [|apply app_nil_r].
  f_equal. rewrite import_collections_filter.
  set (added := filter (fun c => negb (existsb (String.eqb (coll_name c))
                                                (map coll_name existing))) collections).
  assert (A : forall c, In c collections ->
                existsb (String.eqb (coll_name c)) (map coll_name (app existing added))
                = true).
  { intros c I. rewrite map_app, existsb_app.
    destruct (existsb (String.eqb (coll_name c)) (map coll_name existing)) eqn:E;
      [reflexivity|]. cbn [orb].
    apply existsb_exists. exists (coll_name c). split; [|apply String.eqb_refl].
    apply in_map. subst added. apply filter_In. split; [exact I|].
    cbv beta. now rewrite E. }
  clearbody added. revert A. generalize (app existing added) as all. intros all A.
  induction collections as [|c cs IH]; [reflexivity|]. cbn [filter].
  rewrite (A c (or_introl eq_refl)). cbn [negb]. apply IH.
  intros c' I. apply A. now right.
Qed.

End CollectionsHeld.

(** ** The word curl at the head of a command (curl_import.py) *)

Section CurlPrefix.
Import PyStr Urllib Shlex CurlImport.




End CurlPrefix.
